(** * Gibbs sampler for motif search: a shallow embedding of [gibbs_sampler.py]

    The Python functions of [gibbs_sampler.py] are transcribed as Rocq
    functions over an error monad (Python exceptions) with the pseudo-random
    generator threaded explicitly.  Python [int]s are [Z], strings are lists
    of characters, and Python lists are lists, indexed and updated with
    stdpp's lookup and insert.

    Python [float]s appear twice.  In the transcription of whole runs they
    are exact rationals [Q]: a cell [1 / (m + 4)] and a product of cells
    carry no rounding, so a product of positive cells is never zero there.
    What is stated of a run is therefore stated of a run that returns, or of
    the corpus of the module, on which the sampler's products are exact in
    binary64 too, or of a failure that is reached before any float is
    computed.  [build_profile_matrix] and the k-mer sampler, where rounding
    decides whether the code raises, are transcribed a second time over
    binary64 floats (module [Binary64]), and what is stated of the sampler's
    arithmetic is stated there. *)

From Stdlib Require Import ZArith QArith Qround Ascii String List Lia Floats.
From stdpp Require Import base list.
Import ListNotations.

Local Open Scope Z_scope.

(** ** Python runtime *)

Module Py.

(** The exceptions that the transcribed code can raise. *)
Inductive exn : Set :=
| IndexError
| ValueError
| UnboundLocalError
| ZeroDivisionError.

Inductive result (A : Type) : Type :=
| Ok (a : A)
| Err (e : exn).
Arguments Ok {A} a.
Arguments Err {A} e.

Definition bind {A B} (c : result A) (f : A -> result B) : result B :=
  match c with
  | Ok a => f a
  | Err e => Err e
  end.

Definition is_ok {A} (c : result A) : bool :=
  match c with Ok _ => true | Err _ => false end.

(** A string is a list of characters; a one-character string is a
    singleton list. *)
Abbreviation str := (list ascii).

(** [range(n)] for an [int] [n]: empty when [n <= 0]. *)
Definition range (n : Z) : list nat := seq 0 (Z.to_nat n).

(** [len(l)] *)
Definition len {A} (l : list A) : Z := Z.of_nat (length l).

(** [l[i]] for an index produced by [range]: never negative. *)
Definition index {A} (l : list A) (i : nat) : result A :=
  match l !! i with
  | Some x => Ok x
  | None => Err IndexError
  end.

(** [l[j] = v] for an index produced by [range]. *)
Definition set_index {A} (l : list A) (j : nat) (v : A) : result (list A) :=
  if bool_decide (j < length l)%nat then Ok (<[j := v]> l) else Err IndexError.

(** Python's normalisation of a possibly negative subscript. *)
Definition wrap (n i : Z) : Z := if i <? 0 then i + n else i.

(** [l[i]] for an arbitrary [int] subscript. *)
Definition getitem {A} (l : list A) (i : Z) : result A :=
  let j := wrap (len l) i in
  if (j <? 0) || (len l <=? j) then Err IndexError else index l (Z.to_nat j).

(** [l.pop(i)]: the list that remains. *)
Definition pop {A} (l : list A) (i : Z) : result (list A) :=
  let j := wrap (len l) i in
  if (j <? 0) || (len l <=? j) then Err IndexError
  else Ok (delete (Z.to_nat j) l).

(** [l.insert(i, x)]: the subscript is clamped, never an error. *)
Definition insert {A} (l : list A) (i : Z) (x : A) : list A :=
  let j := Z.min (Z.max 0 (wrap (len l) i)) (len l) in
  take (Z.to_nat j) l ++ x :: drop (Z.to_nat j) l.

(** [s[lo:hi]]: both bounds are wrapped and clamped. *)
Definition clamp (n x : Z) : Z := if x <? 0 then Z.max 0 (x + n) else Z.min x n.

Definition slice {A} (s : list A) (lo hi : Z) : list A :=
  let lo' := clamp (len s) lo in
  let hi' := clamp (len s) hi in
  take (Z.to_nat (hi' - lo')) (drop (Z.to_nat lo') s).

(** [max(l)] *)
Definition max (l : list Z) : result Z :=
  match l with
  | [] => Err ValueError
  | x :: l' => Ok (fold_left Z.max l' x)
  end.

(** [sum(l)] over floats *)
Definition sum (l : list Q) : Q := fold_left Qplus l 0%Q.

(** A [for] loop whose body may raise: the state is threaded through the
    iterations and the first exception ends the loop. *)
Fixpoint for_each {A S} (xs : list A) (body : A -> S -> result S) (s : S)
  : result S :=
  match xs with
  | [] => Ok s
  | x :: xs' => bind (body x s) (for_each xs' body)
  end.

(** A list comprehension whose element expression may raise. *)
Fixpoint comprehension {A B} (f : A -> result B) (xs : list A)
  : result (list B) :=
  match xs with
  | [] => Ok []
  | x :: xs' =>
      bind (f x) (fun y => bind (comprehension f xs') (fun ys => Ok (y :: ys)))
  end.

(** [s == s'] on strings *)
Fixpoint str_eqb (s s' : str) : bool :=
  match s, s' with
  | [], [] => true
  | c :: r, c' :: r' => Ascii.eqb c c' && str_eqb r r'
  | _, _ => false
  end.

(** Values of the two types that meet in [column.count(j)]. *)
Inductive obj : Type :=
| Str (s : str)
| Int (z : Z).

(** [a == b]: a string never equals an integer. *)
Definition eqb (a b : obj) : bool :=
  match a, b with
  | Str s, Str s' => str_eqb s s'
  | Int z, Int z' => z =? z'
  | _, _ => false
  end.

(** [l.count(x)] *)
Fixpoint count (l : list obj) (x : obj) : Z :=
  match l with
  | [] => 0
  | y :: l' => (if eqb y x then 1 else 0) + count l' x
  end.

(** [s.startswith(p)] *)
Fixpoint startswith (s p : str) : bool :=
  match p, s with
  | [], _ => true
  | c :: p', d :: s' => Ascii.eqb c d && startswith s' p'
  | _ :: _, [] => false
  end.

(** [s.replace(old, new)]: every non-overlapping occurrence, left to right.
    [skip] counts the characters of a matched occurrence still to drop. *)
Fixpoint replace_from (old new : str) (skip : nat) (s : str) : str :=
  match s with
  | [] => []
  | c :: s' =>
      match skip with
      | S n => replace_from old new n s'
      | O =>
          if startswith s old
          then new ++ replace_from old new (length old - 1) s'
          else c :: replace_from old new 0 s'
      end
  end.

Definition replace (s old new : str) : str :=
  match old with
  | [] => new ++ flat_map (fun c => c :: new) s
  | _ :: _ => replace_from old new 0 s
  end.

End Py.

Import Py.

Notation "'let*' x ':=' c 'in' k" := (Py.bind c (fun x => k))
  (at level 10, x pattern, c at level 100, k at level 200).

(** ** The [random] module

    The generator is the stream of the uniform draws of [random.random()],
    each meant to lie in [[0, 1)]; every library call consumes one draw. *)

Module Random.

Definition rng := nat -> Q.

Definition valid (g : rng) : Prop := forall n, (0 <= g n)%Q /\ (g n < 1)%Q.

Definition of_list (l : list Q) : rng := fun n => nth n l 0%Q.

Definition random (g : rng) : Q * rng := (g O, fun n => g (S n)).

(** [random.randint(a, b)]: [ValueError] on an empty range, else the draw
    scaled to [[a, b]]. *)
Definition randint (a b : Z) (g : rng) : result (Z * rng) :=
  if b <? a then Err ValueError
  else
    let '(u, g') := random g in
    Ok (a + Qfloor (u * inject_Z (b - a + 1)), g').

(** [itertools.accumulate]: the first element, then the running sums. *)
Fixpoint accumulate_from (acc : Q) (ws : list Q) : list Q :=
  match ws with
  | [] => []
  | w :: ws' => (acc + w)%Q :: accumulate_from (acc + w)%Q ws'
  end.

Definition accumulate (ws : list Q) : list Q :=
  match ws with
  | [] => []
  | w :: ws' => w :: accumulate_from w ws'
  end.

(** [bisect.bisect(a, x, 0, hi)] on a non-decreasing list: the first
    position below [hi] whose entry exceeds [x], else [hi]. *)
Fixpoint bisect (a : list Q) (x : Q) (hi : nat) : nat :=
  match hi, a with
  | S hi', y :: a' => if Qle_bool y x then S (bisect a' x hi') else O
  | _, _ => O
  end.

(** [random.choices(population, weights=weights)[0]]; the [+ 0.0] that turns
    [total] into a float is left out. *)
Definition choices {A} (population : list A) (weights : list Q) (g : rng)
  : result (A * rng) :=
  let cum_weights := accumulate weights in
  if negb (length cum_weights =? length population)%nat then Err ValueError
  else
    let* total := getitem cum_weights (-1) in
    if Qle_bool total 0 then Err ValueError
    else
      let '(u, g') := random g in
      let hi := (length population - 1)%nat in
      let* x := index population (bisect cum_weights (u * total)%Q hi) in
      Ok (x, g').

End Random.

Import Random.

(** ** [score_motif] and [consensus] *)

Definition chr (s : string) : ascii :=
  match s with
  | String c _ => c
  | EmptyString => Ascii.zero
  end.

Definition lit (s : string) : str := list_ascii_of_string s.

(** [counts[n] += 1] *)
Definition incr (counts : list Z) (n : nat) : result (list Z) :=
  let* c := index counts n in
  set_index counts n (c + 1).

(** The tally of one symbol, lines 111-118 and 140-147. *)
Definition tally (c : ascii) (counts : list Z) : result (list Z) :=
  if Ascii.eqb c (chr "A") then incr counts 0
  else if Ascii.eqb c (chr "C") then incr counts 1
  else if Ascii.eqb c (chr "G") then incr counts 2
  else if Ascii.eqb c (chr "T") then incr counts 3
  else Ok counts.

(** The counts of column [i], lines 109-118 and 138-147. *)
Definition column_counts (motif : list str) (i : nat) : result (list Z) :=
  for_each (range (len motif))
    (fun j counts =>
       let* m := index motif j in
       let* c := index m i in
       tally c counts)
    [0; 0; 0; 0].

(** The majority symbol appended to the consensus, lines 119-127 and
    148-156; when no branch fires the string is left as it is. *)
Definition append_majority (counts : list Z) (consensus : str) : result str :=
  let* max_count := Py.max counts in
  let* c0 := index counts 0 in
  if max_count =? c0 then Ok (consensus ++ lit "A")
  else
    let* c1 := index counts 1 in
    if max_count =? c1 then Ok (consensus ++ lit "C")
    else
      let* c2 := index counts 2 in
      if max_count =? c2 then Ok (consensus ++ lit "G")
      else
        let* c3 := index counts 3 in
        if max_count =? c3 then Ok (consensus ++ lit "T")
        else Ok consensus.

(** The mismatches of column [i] against [consensus[i]], lines 128-130. *)
Definition count_mismatches (motif : list str) (i : nat) (consensus : str)
    (score : Z) : result Z :=
  for_each (range (len motif))
    (fun j score =>
       let* m := index motif j in
       let* c := index m i in
       let* d := index consensus i in
       if Ascii.eqb c d then Ok score else Ok (score + 1))
    score.

(** One pass of the column loop of [score_motif]; the state is the pair of
    the local variables [consensus] and [score]. *)
Definition score_column (motif : list str) (i : nat) (st : str * Z)
    : result (str * Z) :=
  let '(consensus, score) := st in
  let* counts := column_counts motif i in
  let* consensus := append_majority counts consensus in
  let* score := count_mismatches motif i consensus score in
  Ok (consensus, score).

(** The locals [(consensus, score)] of [score_motif] when its loop ends. *)
Definition score_motif_locals (motif : list str) : result (str * Z) :=
  let* m0 := index motif 0 in
  for_each (range (len m0)) (score_column motif) ([], 0).

Definition score_motif (motif : list str) : result Z :=
  let* st := score_motif_locals motif in
  Ok (snd st).

Definition consensus_column (motifs : list str) (i : nat) (consensus : str)
    : result str :=
  let* counts := column_counts motifs i in
  append_majority counts consensus.

Definition consensus (motifs : list str) : result str :=
  let* m0 := index motifs 0 in
  for_each (range (len m0)) (consensus_column motifs) [].

(** ** [build_profile_matrix] *)

(** [profile[i][j] = v] *)
Definition set_cell (profile : list (list Q)) (i j : nat) (v : Q)
    : result (list (list Q)) :=
  let* row := index profile i in
  let* row' := set_index row j v in
  set_index profile i row'.

(** [[motif[i] for motif in motifs]]: a list of one-character strings. *)
Definition column_of (motifs : list str) (i : nat) : result (list obj) :=
  comprehension (fun motif => let* c := index motif i in Ok (Str [c])) motifs.

(** The inner loop over [j], line 79-80: [column.count(j)] looks the integer
    [j] up in a list of strings. *)
Definition fill_row (motifs : list str) (i : nat) (column : list obj)
    (profile : list (list Q)) : result (list (list Q)) :=
  for_each (range 4)
    (fun j profile =>
       let v := (inject_Z (count column (Int (Z.of_nat j)) + 1)
                 / inject_Z (len motifs + 4))%Q in
       set_cell profile i j v)
    profile.

Definition build_profile_matrix (motifs : list str) : result (list (list Q)) :=
  let* m0 := index motifs 0 in
  let profile := map (fun _ => map (fun _ => 0%Q) (range 4)) (range (len m0)) in
  for_each (range (len m0))
    (fun i profile =>
       let* column := column_of motifs i in
       fill_row motifs i column profile)
    profile.

(** ** [profile_randomly_generated_kmer]

    Over exact rationals: no product underflows and no quotient is rounded.
    The same lines over binary64 floats follow in [Binary64]. *)

(** [prob *= profile[j][n]] *)
Definition times_cell (profile : list (list Q)) (j n : nat) (prob : Q)
    : result Q :=
  let* row := index profile j in
  let* p := index row n in
  Ok (prob * p)%Q.

(** The likelihood of one candidate, lines 89-98. *)
Definition kmer_prob (kmer : str) (k : Z) (profile : list (list Q))
    : result Q :=
  for_each (range k)
    (fun j prob =>
       let* c := index kmer j in
       if Ascii.eqb c (chr "A") then times_cell profile j 0 prob
       else if Ascii.eqb c (chr "C") then times_cell profile j 1 prob
       else if Ascii.eqb c (chr "G") then times_cell profile j 2 prob
       else if Ascii.eqb c (chr "T") then times_cell profile j 3 prob
       else Ok prob)
    1%Q.

(** The candidate offsets [range(n - k + 1)]. *)
Definition offsets (seq : str) (k : Z) : list nat := range (len seq - k + 1).

(** [seq[i:i+k]] *)
Definition kmer_at (seq : str) (k : Z) (i : Z) : str := slice seq i (i + k).

(** [p / total] on floats *)
Definition fdiv (p total : Q) : result Q :=
  if Qeq_bool total 0 then Err ZeroDivisionError else Ok (p / total)%Q.

(** The normalised weights of all offsets, lines 86-100. *)
Definition kmer_weights (seq : str) (k : Z) (profile : list (list Q))
    : result (list Q) :=
  let* probabilities :=
    comprehension
      (fun i => kmer_prob (kmer_at seq k (Z.of_nat i)) k profile)
      (offsets seq k) in
  comprehension (fun p => fdiv p (Py.sum probabilities)) probabilities.

Definition profile_randomly_generated_kmer (seq : str) (k : Z)
    (profile : list (list Q)) (g : rng) : result (str * rng) :=
  let* probabilities := kmer_weights seq k profile in
  let* (i, g') := choices (offsets seq k) probabilities g in
  Ok (kmer_at seq k (Z.of_nat i), g').

(** ** The profile and the k-mer sampler in binary64

    A Python [float] is an IEEE 754 binary64 number, and so is Rocq's
    primitive [float]: products, sums, quotients and comparisons agree bit
    for bit.  [build_profile_matrix] and the sampler are transcribed once
    more over it, because whether line 100 divides by zero, and which total
    [random.choices] sees, is a matter of rounding: a product of positive
    cells can underflow to [0.0], which the exact rationals above cannot
    show.  [prob = 1] is an [int] until the first product; as a float it has
    the same value. *)

Module Binary64.

(** The stream of the results of [random.random()]. *)
Definition rng := nat -> float.

Definition of_list (l : list float) : rng := fun n => nth n l 0%float.

Definition random (g : rng) : float * rng := (g O, fun n => g (S n)).

(** [sum(l)]: the additions from left to right, starting from [0] (CPython
    3.12 and later also carry a correction term for the rounding of the
    additions; the sum of a single number is [0 + p] either way). *)
Definition sum (l : list float) : float := fold_left PrimFloat.add l 0%float.

(** [itertools.accumulate]: the first element, then the running sums. *)
Fixpoint accumulate_from (acc : float) (ws : list float) : list float :=
  match ws with
  | [] => []
  | w :: ws' => (acc + w)%float :: accumulate_from (acc + w)%float ws'
  end.

Definition accumulate (ws : list float) : list float :=
  match ws with
  | [] => []
  | w :: ws' => w :: accumulate_from w ws'
  end.

(** [bisect.bisect(a, x, lo, hi)], the binary search of the library:
    [while lo < hi: mid = (lo + hi) // 2; if x < a[mid]: hi = mid; else:
    lo = mid + 1].  Every turn shrinks [hi - lo], which is the fuel. *)
Fixpoint bisect_loop (fuel : nat) (a : list float) (x : float) (lo hi : nat)
    : result nat :=
  match fuel with
  | O => Ok lo
  | S fuel' =>
      if (lo <? hi)%nat then
        let mid := ((lo + hi) / 2)%nat in
        let* y := index a mid in
        if (x <? y)%float then bisect_loop fuel' a x lo mid
        else bisect_loop fuel' a x (mid + 1) hi
      else Ok lo
  end.

Definition bisect (a : list float) (x : float) (lo hi : nat) : result nat :=
  bisect_loop (hi - lo) a x lo hi.

(** [total = cum_weights[-1] + 0.0] *)
Definition total_weight (cum_weights : list float) : result float :=
  let* last := getitem cum_weights (-1) in
  Ok (last + 0)%float.

(** [random.choices(population, weights=weights)[0]], CPython 3.9 and
    later: the total must be positive and finite. *)
Definition choices {A} (population : list A) (weights : list float) (g : rng)
    : result (A * rng) :=
  let cum_weights := accumulate weights in
  if negb (length cum_weights =? length population)%nat then Err ValueError
  else
    let* total := total_weight cum_weights in
    if (total <=? 0)%float then Err ValueError
    else if negb (is_finite total) then Err ValueError
    else
      let '(u, g') := random g in
      let hi := (length population - 1)%nat in
      let* i := bisect cum_weights (u * total)%float 0 hi in
      let* x := index population i in
      Ok (x, g').

(** [float(n)] for an [int] that a float holds exactly, as the length of a
    list is. *)
Definition of_int (n : Z) : float := of_uint63 (Uint63.of_Z n).

(** [profile[i][j] = v] *)
Definition set_cell (profile : list (list float)) (i j : nat) (v : float)
    : result (list (list float)) :=
  let* row := index profile i in
  let* row' := set_index row j v in
  set_index profile i row'.

(** The inner loop over [j], line 79-80.  [a / b] on two [int]s is their
    quotient rounded once; for [int]s that floats hold exactly, it is the
    quotient of the two floats. *)
Definition fill_row (motifs : list str) (i : nat) (column : list obj)
    (profile : list (list float)) : result (list (list float)) :=
  for_each (range 4)
    (fun j profile =>
       let v := (of_int (count column (Int (Z.of_nat j)) + 1)
                 / of_int (len motifs + 4))%float in
       set_cell profile i j v)
    profile.

Definition build_profile_matrix (motifs : list str)
    : result (list (list float)) :=
  let* m0 := index motifs 0 in
  let profile :=
    map (fun _ => map (fun _ => 0%float) (range 4)) (range (len m0)) in
  for_each (range (len m0))
    (fun i profile =>
       let* column := column_of motifs i in
       fill_row motifs i column profile)
    profile.

(** [prob *= profile[j][n]] *)
Definition times_cell (profile : list (list float)) (j n : nat) (prob : float)
    : result float :=
  let* row := index profile j in
  let* p := index row n in
  Ok (prob * p)%float.

(** The likelihood of one candidate, lines 89-98. *)
Definition kmer_prob (kmer : str) (k : Z) (profile : list (list float))
    : result float :=
  for_each (range k)
    (fun j prob =>
       let* c := index kmer j in
       if Ascii.eqb c (chr "A") then times_cell profile j 0 prob
       else if Ascii.eqb c (chr "C") then times_cell profile j 1 prob
       else if Ascii.eqb c (chr "G") then times_cell profile j 2 prob
       else if Ascii.eqb c (chr "T") then times_cell profile j 3 prob
       else Ok prob)
    1%float.

(** [p / total] on floats: only a zero divisor raises. *)
Definition fdiv (p total : float) : result float :=
  if is_zero total then Err ZeroDivisionError else Ok (p / total)%float.

(** The likelihoods of all offsets, lines 86-99. *)
Definition likelihoods (seq : str) (k : Z) (profile : list (list float))
    : result (list float) :=
  comprehension
    (fun i => kmer_prob (kmer_at seq k (Z.of_nat i)) k profile)
    (offsets seq k).

(** The normalised weights, line 100. *)
Definition kmer_weights (seq : str) (k : Z) (profile : list (list float))
    : result (list float) :=
  let* probabilities := likelihoods seq k profile in
  comprehension (fun p => fdiv p (sum probabilities)) probabilities.

Definition profile_randomly_generated_kmer (seq : str) (k : Z)
    (profile : list (list float)) (g : rng) : result (str * rng) :=
  let* probabilities := kmer_weights seq k profile in
  let* (i, g') := choices (offsets seq k) probabilities g in
  Ok (kmer_at seq k (Z.of_nat i), g').

End Binary64.

(** ** [gibbs_sampler] *)

(** The corpus of the module, lines 28-34. *)
Definition dna : list str :=
  [ lit "TTACCTTAAC"; lit "GATGTCTGTC"; lit "CCGGCGTTAG"; lit "CACTAACGAG";
    lit "CGTCAGAGGT" ].

(** The ANSI escapes ["\033[31m"] and ["\033[0m"]. *)
Definition red : str := ascii_of_nat 27 :: lit "[31m".
Definition reset : str := ascii_of_nat 27 :: lit "[0m".

(** The locals of [gibbs_sampler] that live across iterations.  [gibbs_motifs]
    and [consensus_motif] are bound by the loop body only: [None] stands for a
    name that has not been assigned yet. *)
Record locals : Type := {
  motifs : list str;
  best_motifs : list str;
  gibbs_motifs : option (list str);
  consensus_motif : option str;
  gen : rng
}.

(** Reading a local variable that may be unbound. *)
Definition read {A} (v : option A) : result A :=
  match v with
  | Some x => Ok x
  | None => Err UnboundLocalError
  end.

(** Lines 40-43: one random k-mer per sequence. *)
Definition init_motifs (dna : list str) (k : Z) (g : rng)
    : result (list str * rng) :=
  for_each dna
    (fun seq '(motifs, g) =>
       let* (i, g') := randint 0 (len seq - k) g in
       Ok (motifs ++ [kmer_at seq k i], g'))
    ([], g).

(** Lines 65-68: every sequence with its best motif wrapped in red. *)
Definition highlight (dna best_motifs : list str) : result (list str) :=
  for_each (range (len best_motifs))
    (fun i gibbs_motifs =>
       let* seq := index dna i in
       let* b := index best_motifs i in
       Ok (gibbs_motifs ++ [replace seq b (red ++ b ++ reset)]))
    [].

(** Lines 48-70: the body of the sampling loop. *)
Definition gibbs_step (dna : list str) (k t : Z) (st : locals)
    : result locals :=
  let* (i, g) := randint 0 (t - 1) st.(gen) in
  let* motif_i := getitem st.(motifs) i in
  let* motifs := pop st.(motifs) i in
  let* profile := build_profile_matrix motifs in
  let* seq := getitem dna i in
  let* (motif_i, g) := profile_randomly_generated_kmer seq k profile g in
  let motifs := Py.insert motifs i motif_i in
  let* new_score := score_motif motifs in
  let* best_score := score_motif st.(best_motifs) in
  let best_motifs :=
    if new_score <? best_score then motifs else st.(best_motifs) in
  let* gibbs_motifs := highlight dna best_motifs in
  let* consensus_motif := consensus best_motifs in
  Ok {| motifs := motifs;
        best_motifs := best_motifs;
        gibbs_motifs := Some gibbs_motifs;
        consensus_motif := Some consensus_motif;
        gen := g |}.

(** [for _ in range(N)] *)
Definition gibbs_loop (dna : list str) (k t N : Z) (st : locals)
    : result locals :=
  for_each (range N) (fun _ st => gibbs_step dna k t st) st.

(** The state in which the sampling loop is entered. *)
Definition gibbs_init (dna : list str) (k : Z) (g : rng) : result locals :=
  let* (motifs, g') := init_motifs dna k g in
  Ok {| motifs := motifs;
        best_motifs := motifs;
        gibbs_motifs := None;
        consensus_motif := None;
        gen := g' |}.

(** Line 72: the returned tuple, its components evaluated left to right. *)
Definition gibbs_return (st : locals) : result (list str * Z * list str * str) :=
  let* score := score_motif st.(best_motifs) in
  let* gibbs_motifs := read st.(gibbs_motifs) in
  let* consensus_motif := read st.(consensus_motif) in
  Ok (st.(best_motifs), score, gibbs_motifs, consensus_motif).

Definition gibbs_sampler (dna : list str) (k t N : Z) (g : rng)
    : result (list str * Z * list str * str * rng) :=
  let* st := gibbs_init dna k g in
  let* st := gibbs_loop dna k t N st in
  let* r := gibbs_return st in
  Ok (r, st.(gen)).

(** ** [RepeatGibbsMotSearch] *)

(** One constructor per [f.write] call of lines 220-226. *)
Inductive write : Type :=
| WriteHeader (N_iter N : Z)
| WriteConsensus (consensus : str)
| WriteScore (score : Z)
| WriteMotifsTitle
| WriteMotif (gibbs_motif : str)
| WriteSeparator.

(** [zip] of three lists: as long as the shortest. *)
Fixpoint zip3 {A B C} (a : list A) (b : list B) (c : list C)
    : list (A * B * C) :=
  match a, b, c with
  | x :: a', y :: b', z :: c' => (x, y, z) :: zip3 a' b' c'
  | _, _, _ => []
  end.

(** [list.sort(key=lambda x: x[0])]: stable, ascending. *)
Fixpoint insert_by_score {B C} (x : Z * B * C) (l : list (Z * B * C))
    : list (Z * B * C) :=
  match l with
  | [] => [x]
  | y :: l' =>
      if fst (fst y) <? fst (fst x) then y :: insert_by_score x l'
      else x :: l
  end.

Definition sort_by_score {B C} (l : list (Z * B * C)) : list (Z * B * C) :=
  fold_right insert_by_score [] l.

(** The lists of one batch, lines 206-214; [score_lst] is the module-level
    list of line 194 and outlives the batch. *)
Record batch : Type := {
  motif_lst : list (list str);
  score_lst : list Z;
  all_gibs_motifs_lst : list (list str);
  consensus_lst : list str;
  bgen : rng
}.

(** Lines 209-214. *)
Definition run_batch (k t N n_times : Z) (scores0 : list Z) (g : rng)
    : result batch :=
  for_each (range n_times)
    (fun _ b =>
       let* (motif, score, gibbs_motifs, consensus, g') :=
         gibbs_sampler dna k t N b.(bgen) in
       Ok {| motif_lst := b.(motif_lst) ++ [motif];
             score_lst := b.(score_lst) ++ [score];
             all_gibs_motifs_lst := b.(all_gibs_motifs_lst) ++ [gibbs_motifs];
             consensus_lst := b.(consensus_lst) ++ [consensus];
             bgen := g' |})
    {| motif_lst := []; score_lst := scores0; all_gibs_motifs_lst := [];
       consensus_lst := []; bgen := g |}.

(** What persists from one outer iteration to the next: the module-level
    [score_lst], the report written so far, the generator, and the local
    [data] of the last iteration. *)
Record driver : Type := {
  scores : list Z;
  report : list write;
  data : list (Z * list str * str);
  dgen : rng
}.

(** Lines 206-226: one outer iteration. *)
Definition outer_iteration (k t N n_times : Z) (N_iter : nat) (d : driver)
    : result driver :=
  let* b := run_batch k t N n_times d.(scores) d.(dgen) in
  let data :=
    sort_by_score
      (zip3 b.(score_lst) b.(all_gibs_motifs_lst) b.(consensus_lst)) in
  let* c0 := index b.(consensus_lst) 0 in
  let* s0 := index b.(score_lst) 0 in
  let* g0 := index b.(all_gibs_motifs_lst) 0 in
  Ok {| scores := b.(score_lst);
        report :=
          d.(report)
          ++ [WriteHeader (Z.of_nat N_iter + 1) N; WriteConsensus c0;
              WriteScore s0; WriteMotifsTitle]
          ++ map WriteMotif g0 ++ [WriteSeparator];
        data := data;
        dgen := b.(bgen) |}.

Definition RepeatGibbsMotSearch (k t N n_times : Z) (scores0 : list Z)
    (g : rng) : result driver :=
  for_each (range N) (outer_iteration k t N n_times)
    {| scores := scores0; report := []; data := []; dgen := g |}.

(** ** [visualize_until_convergence] *)

(** [int(x)] of a float: truncation toward zero. *)
Definition int_of_float (x : Q) : Z := Z.quot (Qnum x) (Zpos (Qden x)).

(** [min(l)] *)
Definition list_min (l : list Z) : result Z :=
  match l with
  | [] => Err ValueError
  | x :: l' => Ok (fold_left Z.min l' x)
  end.

(** [l.index(x)]: the first position that holds [x]. *)
Fixpoint list_index (l : list Z) (x : Z) : result Z :=
  match l with
  | [] => Err ValueError
  | y :: l' =>
      if y =? x then Ok 0
      else let* i := list_index l' x in Ok (i + 1)
  end.

(** One constructor per call into seaborn and matplotlib, lines 163-189,
    with the data that the call receives. *)
Inductive plot_call : Type :=
| SetStyle
| Figure
| Plot (ys : list Z)
| Xlabel
| Ylabel
| Title
| FillBetween (xs : list nat) (ys : list Z)
| Scatter (x y : Z)
| Ylim (lo hi : Z)
| Legend (min_score min_score_iter : Z)
| Savefig
| Show.

(** The calls made, in order.  [score_lst[a:]] is [score_lst[a:len]]. *)
Definition visualize_until_convergence (score_lst : list Z)
    : result (list plot_call) :=
  let n := len score_lst in
  let* min_score :=
    list_min (slice score_lst (int_of_float ((2 # 10) * inject_Z n)) n) in
  let* min_score_iter := list_index score_lst min_score in
  let burn_in := int_of_float ((1 # 10) * inject_Z n) in
  Ok [ SetStyle; Figure; Plot score_lst; Xlabel; Ylabel; Title;
       FillBetween (range burn_in) (slice score_lst 0 burn_in);
       Scatter min_score_iter min_score; Ylim 4 12;
       Legend min_score min_score_iter; Savefig; Show ].

(** ** [main] *)

(** One constructor per [print] call of lines 235-239. *)
Inductive printed : Type :=
| PrintRunning (n_times N : Z)
| PrintVisualizing
| PrintDone.

Section Main.

(** The built-in [int] applied to a command-line argument. *)
Variable int_of_str : str -> result Z.

(** [int(sys.argv[n]) if len(sys.argv) > n else default] *)
Definition argument (argv : list str) (n : nat) (default : Z) : result Z :=
  if Z.of_nat n <? len argv
  then let* a := index argv n in int_of_str a
  else Ok default.

(** What a call leaves behind: the report and the module-level [score_lst]
    (in the driver state), the plot calls and the printed lines. *)
Definition main (argv : list str) (g : rng)
    : result (driver * list plot_call * list printed) :=
  let k := 4 in
  let t := 5 in
  let* N := argument argv 1 30 in
  let* n_times := argument argv 2 60 in
  let* d := RepeatGibbsMotSearch k t N n_times [] g in
  let* plot := visualize_until_convergence d.(scores) in
  Ok (d, plot, [PrintRunning n_times N; PrintVisualizing; PrintDone]).

End Main.

(** The [WriteHeader] entries of a report, in order. *)
Definition headers (report : list write) : list write :=
  List.filter
    (fun w => match w with WriteHeader _ _ => true | _ => false end) report.

(** ** Vocabulary of the statements *)

(** The alphabet in the priority order of the [if] chains. *)
Definition symbols : list ascii := [chr "A"; chr "C"; chr "G"; chr "T"].

Definition nucleotide (c : ascii) : Prop := c ∈ symbols.

(** A motif set: every motif has length [k] and is written over the
    alphabet. *)
Definition equal_length (k : nat) (motifs : list str) : Prop :=
  Forall (fun m => length m = k) motifs.

Definition over_alphabet (motifs : list str) : Prop :=
  Forall (Forall nucleotide) motifs.

(** Column [i] of a motif set: the characters at position [i]. *)
Fixpoint column (motifs : list str) (i : nat) : str :=
  match motifs with
  | [] => []
  | m :: ms =>
      match m !! i with
      | Some c => c :: column ms i
      | None => column ms i
      end
  end.

(** How often [s] occurs in a column. *)
Fixpoint occurrences (s : ascii) (col : str) : Z :=
  match col with
  | [] => 0
  | c :: col' => (if Ascii.eqb c s then 1 else 0) + occurrences s col'
  end.

(** The four counts of a column, in priority order. *)
Definition counts_of (col : str) : list Z :=
  map (fun s => occurrences s col) symbols.

(** How many characters of a column differ from [s]. *)
Fixpoint mismatches (s : ascii) (col : str) : Z :=
  match col with
  | [] => 0
  | c :: col' => (if Ascii.eqb c s then 0 else 1) + mismatches s col'
  end.

(** The symbol chosen by the [if] chain on the counts [[a; c; g; t]]. *)
Definition pick (a c g t : Z) : ascii :=
  let max_count := Z.max (Z.max (Z.max a c) g) t in
  if max_count =? a then chr "A"
  else if max_count =? c then chr "C"
  else if max_count =? g then chr "G"
  else chr "T".

Definition majority (col : str) : ascii :=
  pick (occurrences (chr "A") col) (occurrences (chr "C") col)
       (occurrences (chr "G") col) (occurrences (chr "T") col).

(** The sum of a list of integers. *)
Definition sumZ (l : list Z) : Z := fold_right Z.add 0 l.

(** The column-majority string and the mismatch total of a motif set of
    width [k]. *)
Definition consensus_of (k : nat) (motifs : list str) : str :=
  map (fun i => majority (column motifs i)) (seq 0 k).

Definition column_score (motifs : list str) (i : nat) : Z :=
  mismatches (majority (column motifs i)) (column motifs i).

Definition score_of (k : nat) (motifs : list str) : Z :=
  sumZ (map (column_score motifs) (seq 0 k)).

(** A profile as the sampler expects it: rows of four strictly positive
    cells. *)
Definition positive_profile (profile : list (list Q)) : Prop :=
  Forall (fun row => length row = 4%nat /\ Forall (fun cell => (0 < cell)%Q) row)
    profile.

(** A stream of draws and the state in which a run on it enters the sampling
    loop, for the examples. *)
Definition example_draws : rng :=
  of_list [5 # 14; 3 # 14; 1 # 2; 11 # 14; 13 # 14;
           1 # 10; 1 # 14; 7 # 10; 9 # 14]%Q.

Definition start_of (dna : list str) (k : Z) (g : rng) : locals :=
  match gibbs_init dna k g with
  | Ok st => st
  | Err _ =>
      {| motifs := []; best_motifs := []; gibbs_motifs := None;
         consensus_motif := None; gen := g |}
  end.

(** A sequence with one highlighted motif, as [highlight] renders it. *)
Definition highlighted (before motif after : string) : str :=
  lit before ++ red ++ lit motif ++ reset ++ lit after.

(** The draws of two runs of one iteration each on the corpus of the module.
    Run 1 starts every motif at offset 0, evicts motif 0 and draws offset 0
    again.  Run 2 starts at offsets 2, 1, 3, 5, 6, evicts motif 0 and draws
    offset 2 again. *)
Definition batch_draws : rng :=
  of_list [0; 0; 0; 0; 0; 0; 0;
           5 # 14; 3 # 14; 1 # 2; 11 # 14; 13 # 14; 1 # 10; 5 # 14]%Q.

(** A corpus whose sequences all have room for a motif of length [k], and a
    motif set aligned with it. *)
Definition long_enough (k : nat) (dna : list str) : Prop :=
  Forall (fun seq => (k <= length seq)%nat) dna.

Definition aligned (dna : list str) (k : nat) (ms : list str) : Prop :=
  length ms = length dna /\ equal_length k ms.

(** The width of a motif set is the length of its first motif; the column
    loops read [motif[j][i]] for every [i] below it, so no motif may be
    shorter than the first one. *)
Definition width (motifs : list str) : nat :=
  match motifs with
  | [] => 0%nat
  | m0 :: _ => length m0
  end.

Definition no_shorter (motifs : list str) : bool :=
  match motifs with
  | [] => false
  | m0 :: _ => forallb (fun m => (length m0 <=? length m)%nat) motifs
  end.

(** The first [k] columns of a motif set. *)
Definition columns (k : nat) (motifs : list str) : list str :=
  map (column motifs) (seq 0 k).

(** [m] is a window of [seq]: [k] consecutive characters starting at some
    offset [i] with [i + k <= len(seq)]. *)
Definition window (k : nat) (seq m : str) : Prop :=
  exists i : nat, (i + k <= length seq)%nat /\ m = take k (drop i seq).

(** A motif set whose [i]th motif is a window of the [i]th sequence. *)
Definition windows (dna : list str) (k : nat) (ms : list str) : Prop :=
  Forall2 (window k) dna ms.

(** One line of the rendering, line 67. *)
Definition render (seq b : str) : str := replace seq b (red ++ b ++ reset).

(** The motif set and the generator state of the module's corpus with every
    motif at offset 0, for the examples. *)
Definition example_locals : locals :=
  {| motifs := [lit "TTAC"; lit "GATG"; lit "CCGG"; lit "CACT"; lit "CGTC"];
     best_motifs := [lit "TTAC"; lit "GATG"; lit "CCGG"; lit "CACT"; lit "CGTC"];
     gibbs_motifs := None;
     consensus_motif := None;
     gen := example_draws |}.

(** The number of positions at which two strings differ. *)
Fixpoint hamming (a b : str) : Z :=
  match a, b with
  | x :: a', y :: b' => (if Ascii.eqb x y then 0 else 1) + hamming a' b'
  | _, _ => 0
  end.

(** A binary64 profile of four strictly positive cells per row. *)
Definition positive_cells (profile : list (list float)) : bool :=
  forallb
    (fun row => (length row =? 4)%nat && forallb (fun c => (0 <? c)%float) row)
    profile.

(** A binary64 profile whose rows hold four cells each. *)
Definition four_cells (profile : list (list float)) : Prop :=
  Forall (fun row => length row = 4%nat) profile.

(** * Properties *)

(** Discharges the side conditions of a concrete motif set. *)
Ltac motif_set :=
  repeat first
    [ apply Forall_nil_2
    | apply Forall_cons_2
    | reflexivity
    | discriminate
    | lia
    | progress unfold equal_length, over_alphabet, nucleotide, symbols
    | apply list_elem_of_here
    | apply list_elem_of_further ].

(** ** Loops *)

Lemma bind_ok {A B} (c : result A) (f : A -> result B) (b : B) :
  Py.bind c f = Ok b -> exists a, c = Ok a /\ f a = Ok b.
Proof. destruct c as [a|e]; simpl; [eauto | discriminate]. Qed.

Lemma range_len {A} (l : list A) : range (len l) = seq 0 (length l).
Proof. unfold range, len. by rewrite Nat2Z.id. Qed.

Lemma range_of_nat (n : nat) : range (Z.of_nat n) = seq 0 n.
Proof. unfold range. by rewrite Nat2Z.id. Qed.

Lemma for_each_app {A S} (xs ys : list A) (f : A -> S -> result S) (s : S) :
  for_each (xs ++ ys) f s = Py.bind (for_each xs f s) (for_each ys f).
Proof.
  revert s. induction xs as [|x xs IH]; intros s; [done|].
  simpl. destruct (f x s) as [s'|e]; simpl; [apply IH | done].
Qed.

(** A loop over the subscripts of a list that starts by reading the element
    is a loop over the elements. *)
Lemma for_each_subscripts_from {A S} (l1 l2 : list A) (f : A -> S -> result S)
    (s : S) :
  for_each (seq (length l1) (length l2))
    (fun j s => let* x := index (l1 ++ l2) j in f x s) s
  = for_each l2 f s.
Proof.
  revert l1 s. induction l2 as [|x l2 IH]; intros l1 s; [done|].
  simpl. unfold index at 1. rewrite list_lookup_middle by done. simpl.
  destruct (f x s) as [s'|e]; simpl; [|done].
  specialize (IH (l1 ++ [x]) s').
  rewrite length_app, <- app_assoc in IH. simpl in IH.
  by rewrite Nat.add_1_r in IH.
Qed.

Lemma for_each_subscripts {A S} (l : list A) (f : A -> S -> result S) (s : S) :
  for_each (range (len l)) (fun j s => let* x := index l j in f x s) s
  = for_each l f s.
Proof. rewrite range_len. apply (for_each_subscripts_from [] l). Qed.

(** ** Column counts and the majority symbol *)

Lemma index_lt {A} (l : list A) (i : nat) :
  (i < length l)%nat -> exists x, l !! i = Some x /\ index l i = Ok x.
Proof.
  intros Hi. destruct (lookup_lt_is_Some_2 l i Hi) as [x Hx].
  exists x. unfold index. by rewrite Hx.
Qed.

Lemma tally_spec (ch : ascii) (a c g t : Z) :
  tally ch [a; c; g; t]
  = Ok [a + (if Ascii.eqb ch (chr "A") then 1 else 0);
        c + (if Ascii.eqb ch (chr "C") then 1 else 0);
        g + (if Ascii.eqb ch (chr "G") then 1 else 0);
        t + (if Ascii.eqb ch (chr "T") then 1 else 0)].
Proof.
  unfold tally.
  destruct (Ascii.eqb_spec ch (chr "A")) as [->|_];
    [cbn; by rewrite !Z.add_0_r|].
  destruct (Ascii.eqb_spec ch (chr "C")) as [->|_];
    [cbn; by rewrite !Z.add_0_r|].
  destruct (Ascii.eqb_spec ch (chr "G")) as [->|_];
    [cbn; by rewrite !Z.add_0_r|].
  destruct (Ascii.eqb_spec ch (chr "T")) as [->|_];
    [cbn; by rewrite !Z.add_0_r|].
  by rewrite !Z.add_0_r.
Qed.

Lemma tally_loop (motif : list str) (i : nat) (a c g t : Z) :
  Forall (fun m => (i < length m)%nat) motif ->
  for_each motif (fun m counts => let* ch := index m i in tally ch counts)
    [a; c; g; t]
  = Ok [a + occurrences (chr "A") (column motif i);
        c + occurrences (chr "C") (column motif i);
        g + occurrences (chr "G") (column motif i);
        t + occurrences (chr "T") (column motif i)].
Proof.
  intros Hlen. revert a c g t.
  induction Hlen as [|m ms Hm _ IH]; intros a c g t.
  - simpl. by rewrite !Z.add_0_r.
  - destruct (index_lt m i Hm) as (ch & Hch & Hix).
    cbn [for_each column]. rewrite Hix, Hch. cbn [Py.bind].
    rewrite tally_spec. cbn [Py.bind]. rewrite IH.
    cbn [occurrences]. by rewrite !Z.add_assoc.
Qed.

Lemma column_counts_spec (motif : list str) (i : nat) :
  Forall (fun m => (i < length m)%nat) motif ->
  column_counts motif i = Ok (counts_of (column motif i)).
Proof.
  intros Hlen. unfold column_counts.
  rewrite (for_each_subscripts motif
             (fun m counts => let* ch := index m i in tally ch counts)).
  by rewrite tally_loop.
Qed.

Lemma append_majority_spec (a c g t : Z) (consensus : str) :
  append_majority [a; c; g; t] consensus = Ok (consensus ++ [pick a c g t]).
Proof.
  unfold append_majority, pick. cbn.
  destruct (Z.eqb_spec (Z.max (Z.max (Z.max a c) g) t) a); [done|].
  destruct (Z.eqb_spec (Z.max (Z.max (Z.max a c) g) t) c); [done|].
  destruct (Z.eqb_spec (Z.max (Z.max (Z.max a c) g) t) g); [done|].
  destruct (Z.eqb_spec (Z.max (Z.max (Z.max a c) g) t) t); [done|].
  exfalso. lia.
Qed.

Lemma append_majority_column (col consensus : str) :
  append_majority (counts_of col) consensus = Ok (consensus ++ [majority col]).
Proof. apply append_majority_spec. Qed.

(** The chosen symbol has a maximal count, and every symbol before it in the
    priority order has a strictly smaller one. *)
Lemma pick_spec (a c g t : Z) :
  exists r : nat,
    symbols !! r = Some (pick a c g t) /\
    (forall r' x y, [a; c; g; t] !! r' = Some x -> [a; c; g; t] !! r = Some y ->
       x <= y /\ ((r' < r)%nat -> x < y)).
Proof.
  unfold pick.
  destruct (Z.eqb_spec (Z.max (Z.max (Z.max a c) g) t) a) as [Ha|Ha].
  { exists 0%nat. split; [done|]. intros [|[|[|[|r']]]] x y; cbn; intros; simplify_eq; lia. }
  destruct (Z.eqb_spec (Z.max (Z.max (Z.max a c) g) t) c) as [Hc|Hc].
  { exists 1%nat. split; [done|]. intros [|[|[|[|r']]]] x y; cbn; intros; simplify_eq; lia. }
  destruct (Z.eqb_spec (Z.max (Z.max (Z.max a c) g) t) g) as [Hg|Hg].
  { exists 2%nat. split; [done|]. intros [|[|[|[|r']]]] x y; cbn; intros; simplify_eq; lia. }
  exists 3%nat. split; [done|]. intros [|[|[|[|r']]]] x y; cbn; intros; simplify_eq; lia.
Qed.

(** ** [consensus] and [score_motif] in closed form *)

Lemma equal_length_lt (k : nat) (motifs : list str) (i : nat) :
  equal_length k motifs -> (i < k)%nat ->
  Forall (fun m => (i < length m)%nat) motifs.
Proof.
  unfold equal_length. intros Hk Hi.
  eapply Forall_impl; [exact Hk|]. simpl. intros m ->. exact Hi.
Qed.

Lemma consensus_loop (k : nat) (motifs : list str) (n j : nat) (acc : str) :
  equal_length k motifs -> (n + j <= k)%nat ->
  for_each (seq n j) (consensus_column motifs) acc
  = Ok (acc ++ map (fun i => majority (column motifs i)) (seq n j)).
Proof.
  intros Hk. revert n acc. induction j as [|j IH]; intros n acc Hn.
  - simpl. by rewrite app_nil_r.
  - cbn [seq for_each map]. unfold consensus_column at 1.
    rewrite (column_counts_spec motifs n)
      by (apply (equal_length_lt k); [done | lia]).
    cbn [Py.bind]. rewrite append_majority_column. cbn [Py.bind].
    rewrite IH by lia. by rewrite <- app_assoc.
Qed.

Lemma first_motif (k : nat) (motifs : list str) :
  motifs <> [] -> equal_length k motifs ->
  exists m0, index motifs 0 = Ok m0 /\ length m0 = k.
Proof.
  intros Hne Hk. destruct motifs as [|m0 ms]; [done|].
  exists m0. split; [done|]. by apply Forall_cons_1 in Hk as [? _].
Qed.

Lemma consensus_spec (k : nat) (motifs : list str) :
  motifs <> [] -> equal_length k motifs ->
  consensus motifs = Ok (consensus_of k motifs).
Proof.
  intros Hne Hk. destruct (first_motif k motifs Hne Hk) as (m0 & Hm0 & Hlen).
  unfold consensus. rewrite Hm0. cbn [Py.bind].
  rewrite range_len, Hlen. by rewrite (consensus_loop k) by (done || lia).
Qed.

Lemma mismatch_loop (motif : list str) (i : nat) (consensus : str) (d : ascii)
    (score : Z) :
  Forall (fun m => (i < length m)%nat) motif ->
  consensus !! i = Some d ->
  for_each motif
    (fun m score =>
       let* c := index m i in
       let* d := index consensus i in
       if Ascii.eqb c d then Ok score else Ok (score + 1))
    score
  = Ok (score + mismatches d (column motif i)).
Proof.
  intros Hlen Hd. revert score.
  induction Hlen as [|m ms Hm _ IH]; intros score.
  - simpl. by rewrite Z.add_0_r.
  - destruct (index_lt m i Hm) as (ch & Hch & Hix).
    cbn [for_each column]. rewrite Hix, Hch. cbn [Py.bind].
    unfold index at 1. rewrite Hd. cbn [Py.bind mismatches].
    destruct (Ascii.eqb ch d); cbn [Py.bind]; rewrite IH; f_equal; lia.
Qed.

Lemma count_mismatches_spec (motif : list str) (i : nat) (consensus : str)
    (d : ascii) (score : Z) :
  Forall (fun m => (i < length m)%nat) motif ->
  consensus !! i = Some d ->
  count_mismatches motif i consensus score
  = Ok (score + mismatches d (column motif i)).
Proof.
  intros Hlen Hd. unfold count_mismatches.
  rewrite (for_each_subscripts motif
             (fun m score =>
                let* c := index m i in
                let* d := index consensus i in
                if Ascii.eqb c d then Ok score else Ok (score + 1))).
  by apply mismatch_loop.
Qed.

Lemma score_loop (k : nat) (motifs : list str) (n j : nat) (acc : str)
    (score : Z) :
  equal_length k motifs -> (n + j <= k)%nat -> length acc = n ->
  for_each (seq n j) (score_column motifs) (acc, score)
  = Ok (acc ++ map (fun i => majority (column motifs i)) (seq n j),
        score + sumZ (map (column_score motifs) (seq n j))).
Proof.
  intros Hk. revert n acc score.
  induction j as [|j IH]; intros n acc score Hn Hacc.
  - simpl. by rewrite app_nil_r, Z.add_0_r.
  - assert (Forall (fun m => (n < length m)%nat) motifs) as Hlt
      by (apply (equal_length_lt k); [done | lia]).
    cbn [seq for_each map]. unfold score_column at 1.
    rewrite (column_counts_spec motifs n Hlt). cbn [Py.bind].
    rewrite append_majority_column. cbn [Py.bind].
    rewrite (count_mismatches_spec motifs n _ (majority (column motifs n)))
      by (done || (rewrite <- Hacc; apply list_lookup_middle; done)).
    cbn [Py.bind]. rewrite IH by (try lia; rewrite length_app; simpl; lia).
    rewrite <- app_assoc. cbn [sumZ fold_right app]. unfold column_score at 2.
    do 2 f_equal. fold (sumZ (map (column_score motifs) (seq (S n) j))). lia.
Qed.

Lemma score_motif_locals_spec (k : nat) (motifs : list str) :
  motifs <> [] -> equal_length k motifs ->
  score_motif_locals motifs = Ok (consensus_of k motifs, score_of k motifs).
Proof.
  intros Hne Hk. destruct (first_motif k motifs Hne Hk) as (m0 & Hm0 & Hlen).
  unfold score_motif_locals. rewrite Hm0. cbn [Py.bind].
  rewrite range_len, Hlen. by rewrite (score_loop k) by (done || lia).
Qed.

Lemma score_motif_spec (k : nat) (motifs : list str) :
  motifs <> [] -> equal_length k motifs ->
  score_motif motifs = Ok (score_of k motifs).
Proof.
  intros Hne Hk. unfold score_motif.
  by rewrite (score_motif_locals_spec k).
Qed.

(** ** Facts about columns *)

Lemma counts_of_lookup (col : str) (r : nat) (s : ascii) :
  symbols !! r = Some s -> counts_of col !! r = Some (occurrences s col).
Proof. intros Hs. unfold counts_of. by rewrite list_lookup_fmap, Hs. Qed.

Lemma majority_spec (col : str) :
  exists r : nat,
    symbols !! r = Some (majority col) /\
    forall r' s', symbols !! r' = Some s' ->
      occurrences s' col <= occurrences (majority col) col /\
      ((r' < r)%nat -> occurrences s' col < occurrences (majority col) col).
Proof.
  destruct (pick_spec (occurrences (chr "A") col) (occurrences (chr "C") col)
              (occurrences (chr "G") col) (occurrences (chr "T") col))
    as (r & Hr & Hmax).
  fold (majority col) in Hr. exists r. split; [done|].
  intros r' s' Hs'. apply (Hmax r'); by apply counts_of_lookup.
Qed.

Lemma mismatches_nonneg (s : ascii) (col : str) : 0 <= mismatches s col.
Proof. induction col as [|c col IH]; simpl; [lia|]. destruct (Ascii.eqb c s); lia. Qed.

Lemma mismatches_zero (s : ascii) (col : str) :
  mismatches s col = 0 <-> Forall (fun c => c = s) col.
Proof.
  induction col as [|c col IH]; simpl; [by split|].
  pose proof (mismatches_nonneg s col) as Hge.
  destruct (Ascii.eqb_spec c s) as [->|Hne].
  - rewrite Forall_cons. rewrite Z.add_0_l, IH. tauto.
  - split; [lia|]. intros H. by apply Forall_cons_1 in H as [? _].
Qed.

Lemma sumZ_nonneg (l : list Z) : Forall (fun x => 0 <= x) l -> 0 <= sumZ l.
Proof. induction 1; simpl; lia. Qed.

Lemma sumZ_zero (l : list Z) :
  Forall (fun x => 0 <= x) l -> (sumZ l = 0 <-> Forall (fun x => x = 0) l).
Proof.
  induction 1 as [|x l Hx Hl IH]; [by split|].
  pose proof (sumZ_nonneg l Hl). change (sumZ (x :: l)) with (x + sumZ l).
  rewrite Forall_cons, <- IH. lia.
Qed.

Lemma score_of_nonneg (k : nat) (motifs : list str) : 0 <= score_of k motifs.
Proof.
  apply sumZ_nonneg, Forall_fmap, Forall_forall. intros i _.
  apply mismatches_nonneg.
Qed.

Lemma score_of_zero (k : nat) (motifs : list str) :
  score_of k motifs = 0 <->
  forall i, (i < k)%nat ->
    Forall (fun c => c = majority (column motifs i)) (column motifs i).
Proof.
  unfold score_of. rewrite sumZ_zero; last first.
  { apply Forall_fmap, Forall_forall. intros i _. apply mismatches_nonneg. }
  rewrite Forall_fmap, Forall_forall. split.
  - intros H i Hi. apply mismatches_zero, (H i), elem_of_seq. lia.
  - intros H i Hi. apply elem_of_seq in Hi. apply mismatches_zero, H. lia.
Qed.

Lemma elem_of_column (motifs : list str) (i : nat) (m : str) (c : ascii) :
  m ∈ motifs -> m !! i = Some c -> c ∈ column motifs i.
Proof.
  intros Hm Hc. induction motifs as [|m' ms IH]; [by apply elem_of_nil in Hm|].
  apply elem_of_cons in Hm as [->|Hm]; simpl.
  - rewrite Hc. by left.
  - destruct (m' !! i); [right|]; by apply IH.
Qed.

Lemma column_elem_of (motifs : list str) (i : nat) (c : ascii) :
  c ∈ column motifs i -> exists m, m ∈ motifs /\ m !! i = Some c.
Proof.
  induction motifs as [|m' ms IH]; simpl; [by intros ?%elem_of_nil|].
  destruct (m' !! i) as [c'|] eqn:Hc'.
  - intros [->|Hin]%elem_of_cons.
    + exists m'. split; [by left | done].
    + destruct (IH Hin) as (m & ? & ?). exists m. split; [by right | done].
  - intros Hin. destruct (IH Hin) as (m & ? & ?). exists m. split; [by right | done].
Qed.

Lemma occurrences_constant (s c : ascii) (col : str) :
  Forall (fun x => x = c) col ->
  occurrences s col = if Ascii.eqb c s then len col else 0.
Proof.
  unfold len. induction 1 as [|x col -> _ IH]; simpl length.
  - by destruct (Ascii.eqb c s).
  - cbn [occurrences]. rewrite IH. destruct (Ascii.eqb c s); lia.
Qed.

Lemma majority_constant (c : ascii) (col : str) :
  nucleotide c -> col <> [] -> Forall (fun x => x = c) col ->
  majority col = c.
Proof.
  intros Hc Hne Hall. unfold majority.
  rewrite !(occurrences_constant _ c col Hall).
  assert (0 < len col) as Hpos by (destruct col; [done | unfold len; simpl; lia]).
  unfold nucleotide, symbols in Hc.
  repeat (apply elem_of_cons in Hc as [->|Hc]); [..|by apply elem_of_nil in Hc];
    cbn; unfold pick;
    repeat match goal with
           | |- context [Z.eqb ?x ?y] => destruct (Z.eqb_spec x y); try done
           end; lia.
Qed.

(** ** The consensus and the score of a motif set *)

(** C3, as the code has it: on [["AACC"; "CCAA"]] every column is a 1-1 tie
    between A and C, each tie goes to A, so the consensus is ["AAAA"] and the
    score is 4, both in [score_motif] and in [consensus]. *)
Theorem tie_scenario_consensus_and_score :
  let motifs := [lit "AACC"; lit "CCAA"] in
  consensus motifs = Ok (lit "AAAA") /\
  score_motif_locals motifs = Ok (lit "AAAA", 4) /\
  score_motif motifs = Ok 4 /\
  forall i, (i < 4)%nat -> counts_of (column motifs i) = [1; 1; 0; 0].
Proof.
  cbv zeta. repeat split.
  intros i Hi. destruct i as [|[|[|[|i]]]]; [reflexivity..|lia].
Qed.

(** C3 as stated (consensus ["AACC"], score 2) does not hold. *)
Lemma tie_scenario_not_AACC_2 :
  ~ (consensus [lit "AACC"; lit "CCAA"] = Ok (lit "AACC") /\
     score_motif [lit "AACC"; lit "CCAA"] = Ok 2).
Proof. intros [H _]. vm_compute in H. discriminate H. Qed.

(** C7: at every column the consensus symbol, in [consensus] and in
    [score_motif] alike, has a maximal count among A, C, G, T, and every
    symbol that precedes it in the order A, C, G, T has a strictly smaller
    count; the counts A:2, C:2, G:0, T:0 give A. *)
Theorem consensus_symbol_maximal_first (k : nat) (motifs : list str) :
  motifs <> [] -> equal_length k motifs ->
  exists c score,
    consensus motifs = Ok c /\
    score_motif_locals motifs = Ok (c, score) /\
    length c = k /\
    (forall i, (i < k)%nat ->
       exists r s,
         c !! i = Some s /\ symbols !! r = Some s /\
         forall r' s', symbols !! r' = Some s' ->
           occurrences s' (column motifs i) <= occurrences s (column motifs i) /\
           ((r' < r)%nat ->
            occurrences s' (column motifs i) < occurrences s (column motifs i))) /\
    append_majority [2; 2; 0; 0] [] = Ok (lit "A").
Proof.
  intros Hne Hk. exists (consensus_of k motifs), (score_of k motifs).
  split; [by apply consensus_spec|].
  split; [by apply score_motif_locals_spec|].
  split; [unfold consensus_of; by rewrite length_map, length_seq|].
  split; [|reflexivity].
  intros i Hi. destruct (majority_spec (column motifs i)) as (r & Hr & Hmax).
  exists r, (majority (column motifs i)). split; [|by split].
  unfold consensus_of. rewrite list_lookup_fmap, lookup_seq_lt by done.
  done.
Qed.

Lemma consensus_symbol_maximal_first_witness :
  exists c score,
    consensus [lit "ACGT"; lit "AGGT"; lit "CCGA"] = Ok c /\
    score_motif_locals [lit "ACGT"; lit "AGGT"; lit "CCGA"] = Ok (c, score) /\
    length c = 4%nat /\
    (forall i, (i < 4)%nat ->
       exists r s,
         c !! i = Some s /\ symbols !! r = Some s /\
         forall r' s', symbols !! r' = Some s' ->
           occurrences s' (column [lit "ACGT"; lit "AGGT"; lit "CCGA"] i)
           <= occurrences s (column [lit "ACGT"; lit "AGGT"; lit "CCGA"] i) /\
           ((r' < r)%nat ->
            occurrences s' (column [lit "ACGT"; lit "AGGT"; lit "CCGA"] i)
            < occurrences s (column [lit "ACGT"; lit "AGGT"; lit "CCGA"] i))) /\
    append_majority [2; 2; 0; 0] [] = Ok (lit "A").
Proof.
  apply (consensus_symbol_maximal_first 4
           [lit "ACGT"; lit "AGGT"; lit "CCGA"]); motif_set.
Defined.

(** C8: the score of a motif set is never negative; it is 0 exactly when all
    motifs of the set are the same string; three copies of ["AAAA"] score 0
    with consensus ["AAAA"]. *)
Theorem score_zero_iff_identical (k : nat) (motifs : list str) :
  motifs <> [] -> equal_length k motifs -> over_alphabet motifs ->
  exists score,
    score_motif motifs = Ok score /\
    0 <= score /\
    (score = 0 <-> forall m m', m ∈ motifs -> m' ∈ motifs -> m = m') /\
    score_motif [lit "AAAA"; lit "AAAA"; lit "AAAA"] = Ok 0 /\
    consensus [lit "AAAA"; lit "AAAA"; lit "AAAA"] = Ok (lit "AAAA").
Proof.
  intros Hne Hk Halpha. exists (score_of k motifs).
  split; [by apply score_motif_spec|].
  split; [apply score_of_nonneg|].
  split; [|by split].
  unfold equal_length in Hk. rewrite Forall_forall in Hk.
  rewrite score_of_zero. split.
  - intros Hcols m m' Hm Hm'. apply list_eq. intros i.
    destruct (decide (i < k)%nat) as [Hi|Hi].
    + destruct (lookup_lt_is_Some_2 m i) as [c Hc]; [by rewrite Hk|].
      destruct (lookup_lt_is_Some_2 m' i) as [c' Hc']; [by rewrite Hk|].
      specialize (Hcols i Hi). rewrite Forall_forall in Hcols.
      pose proof (Hcols c (elem_of_column motifs i m c Hm Hc)).
      pose proof (Hcols c' (elem_of_column motifs i m' c' Hm' Hc')).
      congruence.
    + rewrite (lookup_ge_None_2 m i) by (rewrite Hk by done; lia).
      by rewrite (lookup_ge_None_2 m' i) by (rewrite Hk by done; lia).
  - intros Hsame i Hi.
    destruct motifs as [|m0 ms]; [done|].
    assert (m0 ∈ m0 :: ms) as Hm0 by apply list_elem_of_here.
    destruct (lookup_lt_is_Some_2 m0 i) as [c0 Hc0]; [by rewrite Hk|].
    assert (Forall (fun c => c = c0) (column (m0 :: ms) i)) as Hall.
    { apply Forall_forall. intros c (m & Hm & Hc)%column_elem_of.
      rewrite (Hsame m m0 Hm Hm0) in Hc. congruence. }
    rewrite majority_constant with (c := c0); [done| |..|done].
    + unfold over_alphabet in Halpha. rewrite Forall_forall in Halpha.
      specialize (Halpha m0 Hm0). rewrite Forall_forall in Halpha.
      apply Halpha. by eapply list_elem_of_lookup_2.
    + intros Hnil. pose proof (elem_of_column _ i m0 c0 Hm0 Hc0) as Hin.
      rewrite Hnil in Hin. by apply elem_of_nil in Hin.
Qed.

Lemma score_zero_iff_identical_witness :
  exists score,
    score_motif [lit "ACGT"; lit "ACGT"] = Ok score /\
    0 <= score /\
    (score = 0 <->
     forall m m', m ∈ [lit "ACGT"; lit "ACGT"] ->
                  m' ∈ [lit "ACGT"; lit "ACGT"] -> m = m') /\
    score_motif [lit "AAAA"; lit "AAAA"; lit "AAAA"] = Ok 0 /\
    consensus [lit "AAAA"; lit "AAAA"; lit "AAAA"] = Ok (lit "AAAA").
Proof.
  apply (score_zero_iff_identical 4 [lit "ACGT"; lit "ACGT"]); motif_set.
Defined.

(** C10: on a non-empty set of equal-length motifs, the consensus string that
    [score_motif] accumulates is the string that [consensus] returns. *)
Theorem score_motif_consensus_agree (k : nat) (motifs : list str) :
  motifs <> [] -> equal_length k motifs ->
  exists c score,
    score_motif_locals motifs = Ok (c, score) /\ consensus motifs = Ok c.
Proof.
  intros Hne Hk. exists (consensus_of k motifs), (score_of k motifs).
  split; [by apply score_motif_locals_spec | by apply consensus_spec].
Qed.

Lemma score_motif_consensus_agree_witness :
  exists c score,
    score_motif_locals [lit "TTAC"; lit "GATG"; lit "CCGG"] = Ok (c, score) /\
    consensus [lit "TTAC"; lit "GATG"; lit "CCGG"] = Ok c.
Proof.
  apply (score_motif_consensus_agree 4 [lit "TTAC"; lit "GATG"; lit "CCGG"]);
    motif_set.
Defined.

(** ** [build_profile_matrix] *)

Lemma column_of_spec (motifs : list str) (i : nat) :
  Forall (fun m => (i < length m)%nat) motifs ->
  column_of motifs i = Ok (map (fun c => Str [c]) (column motifs i)).
Proof.
  unfold column_of. induction 1 as [|m ms Hm _ IH]; [done|].
  destruct (index_lt m i Hm) as (ch & Hch & Hix).
  cbn [comprehension column]. rewrite Hix, Hch. cbn [Py.bind].
  by rewrite IH.
Qed.

(** An integer is never found among strings: [column.count(j)] is 0. *)
Lemma count_int_among_strings (col : str) (z : Z) :
  count (map (fun c => Str [c]) col) (Int z) = 0.
Proof. induction col as [|c col IH]; [done|]. simpl. by rewrite IH. Qed.

Lemma set_cell_spec (profile : list (list Q)) (i j : nat) (v : Q)
    (row : list Q) :
  profile !! i = Some row -> (j < length row)%nat ->
  set_cell profile i j v = Ok (<[i := <[j := v]> row]> profile).
Proof.
  intros Hrow Hj. unfold set_cell, index. rewrite Hrow. cbn [Py.bind].
  unfold set_index. rewrite bool_decide_eq_true_2 by done. cbn [Py.bind].
  by rewrite bool_decide_eq_true_2 by (by eapply lookup_lt_Some).
Qed.

Lemma set_cell_inserted (profile : list (list Q)) (i j : nat) (v : Q)
    (row : list Q) :
  (i < length profile)%nat -> (j < length row)%nat ->
  set_cell (<[i := row]> profile) i j v = Ok (<[i := <[j := v]> row]> profile).
Proof.
  intros Hi Hj.
  rewrite (set_cell_spec _ i j v row) by (done || by apply list_lookup_insert_eq).
  by rewrite list_insert_insert_eq.
Qed.

Lemma fill_row_spec (motifs : list str) (i : nat) (col : str)
    (profile : list (list Q)) (row : list Q) :
  profile !! i = Some row -> length row = 4%nat ->
  fill_row motifs i (map (fun c => Str [c]) col) profile
  = Ok (<[i := replicate 4 (1 / inject_Z (len motifs + 4))%Q]> profile).
Proof.
  intros Hrow Hlen.
  destruct row as [|a [|b [|c [|d [|? ?]]]]]; try discriminate Hlen.
  assert (i < length profile)%nat as Hi by (by eapply lookup_lt_Some).
  unfold fill_row. change (range 4) with [0; 1; 2; 3]%nat.
  cbn [for_each]. rewrite !count_int_among_strings.
  rewrite (set_cell_spec profile i 0 _ [a; b; c; d]) by (done || simpl; lia).
  cbn [Py.bind].
  rewrite set_cell_inserted by (done || simpl; lia). cbn [Py.bind].
  rewrite set_cell_inserted by (done || simpl; lia). cbn [Py.bind].
  rewrite set_cell_inserted by (done || simpl; lia). cbn [Py.bind].
  reflexivity.
Qed.

Lemma profile_loop (k : nat) (motifs : list str) (n j : nat)
    (filled : list (list Q)) :
  equal_length k motifs -> (n + j <= k)%nat -> length filled = n ->
  for_each (seq n j)
    (fun i profile =>
       let* column := column_of motifs i in
       fill_row motifs i column profile)
    (filled ++ replicate j (replicate 4 0%Q))
  = Ok (filled ++ replicate j (replicate 4 (1 / inject_Z (len motifs + 4))%Q)).
Proof.
  intros Hk. revert n filled. induction j as [|j IH]; intros n filled Hn Hlen.
  - done.
  - cbn [seq for_each replicate].
    rewrite column_of_spec by (apply (equal_length_lt k); [done | lia]).
    cbn [Py.bind].
    rewrite (fill_row_spec motifs n _ _ (replicate 4 0%Q));
      [|rewrite <- Hlen; by apply list_lookup_middle|done].
    cbn [Py.bind]. rewrite insert_app_r_alt by lia.
    rewrite Hlen, Nat.sub_diag. cbn [list_insert].
    specialize (IH (S n)
      (filled ++ [replicate 4 (1 / inject_Z (len motifs + 4))%Q])).
    rewrite <- !app_assoc in IH. apply IH; [lia|].
    rewrite length_app. simpl. lia.
Qed.

Lemma map_const_replicate {A B} (l : list A) (y : B) :
  map (fun _ => y) l = replicate (length l) y.
Proof. induction l as [|x l IH]; [done|]. simpl. by rewrite IH. Qed.

(** On a well-formed motif set the result is the constant table: every cell
    is [1 / (m + 4)], whatever the motifs contain. *)
Lemma build_profile_matrix_spec (k : nat) (motifs : list str) :
  motifs <> [] -> equal_length k motifs ->
  build_profile_matrix motifs
  = Ok (replicate k (replicate 4 (1 / inject_Z (len motifs + 4))%Q)).
Proof.
  intros Hne Hk. destruct (first_motif k motifs Hne Hk) as (m0 & Hm0 & Hlen).
  unfold build_profile_matrix. rewrite Hm0. cbn [Py.bind].
  rewrite range_len, Hlen. rewrite map_const_replicate, length_seq.
  change (map (fun _ => 0%Q) (range 4)) with (replicate 4 0%Q).
  by apply (profile_loop k motifs 0 k []).
Qed.

Lemma inject_Z_pos (n : Z) : 0 < n -> (0 < inject_Z n)%Q.
Proof. intros Hn. unfold Qlt. simpl. lia. Qed.

Lemma constant_row_sum (c : Q) : (Py.sum (replicate 4 c) == 4 * c)%Q.
Proof. unfold Py.sum. cbn [replicate fold_left]. ring. Qed.

(** The rows of the table built by the code: all cells positive, but a row
    adds up to [4 / (m + 4)], which is 1 for no motif set. *)
Lemma build_profile_matrix_rows (k : nat) (motifs : list str) :
  motifs <> [] -> equal_length k motifs ->
  exists profile,
    build_profile_matrix motifs = Ok profile /\
    length profile = k /\
    forall i row, profile !! i = Some row ->
      row = replicate 4 (1 / inject_Z (len motifs + 4))%Q /\
      Forall (fun cell => (0 < cell)%Q) row /\
      (Py.sum row == 4 / inject_Z (len motifs + 4))%Q /\
      ~ (Py.sum row == 1)%Q.
Proof.
  intros Hne Hk. eexists. split; [by apply (build_profile_matrix_spec k)|].
  split; [by rewrite length_replicate|].
  intros i row [-> _]%lookup_replicate.
  assert (0 < len motifs) as Hm
    by (destruct motifs; [done | unfold len; simpl; lia]).
  assert (0 < inject_Z (len motifs + 4))%Q as Hq by (apply inject_Z_pos; lia).
  assert (~ (inject_Z (len motifs + 4) == 0)%Q) as Hq0
    by (intros H0; rewrite H0 in Hq; by apply Qlt_irrefl in Hq).
  split; [done|]. split; [|split].
  - apply Forall_replicate. apply Qlt_shift_div_l; [done|].
    by rewrite Qmult_0_l.
  - rewrite constant_row_sum. by field.
  - rewrite constant_row_sum. intros Hone.
    assert (inject_Z (len motifs + 4) == 4)%Q as H4.
    { assert (4 / inject_Z (len motifs + 4) == 1)%Q as Hd
        by (rewrite <- Hone; by field).
      transitivity (inject_Z (len motifs + 4) * (4 / inject_Z (len motifs + 4)))%Q;
        [rewrite Hd; ring | by apply Qmult_div_r]. }
    unfold Qeq in H4. simpl in H4. lia.
Qed.

(** C2 at the four motifs left after evicting the first one of the initial
    set: every cell is 1/8.  Column 0 holds G, C, C, C, so the cell of C
    ought to be (3 + 1) / (4 + 4) = 1/2, and the row ought to add up to 1;
    it adds up to 1/2. *)
Theorem build_profile_matrix_counts_nothing :
  let motifs := [lit "GATG"; lit "CCGG"; lit "CACT"; lit "CGTC"] in
  build_profile_matrix motifs = Ok (replicate 4 (replicate 4 (1 # 8)%Q)) /\
  column motifs 0 = lit "GCCC" /\
  ((inject_Z (occurrences (chr "C") (column motifs 0) + 1)
    / inject_Z (len motifs + 4)) == 1 # 2)%Q /\
  ~ (1 # 8 == 1 # 2)%Q /\
  (Py.sum (replicate 4 (1 # 8)%Q) == 1 # 2)%Q /\
  ~ (Py.sum (replicate 4 (1 # 8)%Q) == 1)%Q.
Proof. cbv zeta. repeat split; vm_compute; discriminate. Qed.

(** ** [profile_randomly_generated_kmer] *)

Lemma slice_whole {A} (s : list A) : slice s 0 (0 + len s) = s.
Proof.
  unfold slice, clamp, len. rewrite Z.add_0_l.
  destruct (Z.ltb_spec (Z.of_nat (length s)) 0) as [?|_]; [lia|].
  change (0 <? 0) with false. cbn iota.
  rewrite Z.min_id, Z.min_l by lia.
  change (Z.to_nat 0) with 0%nat. rewrite drop_0, Z.sub_0_r, Nat2Z.id.
  apply firstn_all.
Qed.

Lemma times_cell_pos (profile : list (list Q)) (j n : nat) (prob : Q) :
  positive_profile profile -> (j < length profile)%nat -> (n < 4)%nat ->
  (0 < prob)%Q ->
  exists p, times_cell profile j n prob = Ok p /\ (0 < p)%Q.
Proof.
  intros Hprof Hj Hn Hprob. unfold positive_profile in Hprof.
  destruct (lookup_lt_is_Some_2 profile j Hj) as [row Hrow].
  rewrite Forall_forall in Hprof.
  destruct (Hprof row) as [Hlen Hpos]; [by eapply list_elem_of_lookup_2|].
  destruct (lookup_lt_is_Some_2 row n) as [p Hp]; [lia|].
  rewrite Forall_forall in Hpos.
  exists (prob * p)%Q. unfold times_cell, index. rewrite Hrow. cbn [Py.bind].
  rewrite Hp. cbn [Py.bind]. split; [done|].
  apply Qmult_lt_0_compat; [done|]. apply Hpos. by eapply list_elem_of_lookup_2.
Qed.

Lemma kmer_prob_loop (kmer : str) (profile : list (list Q)) (n j : nat)
    (prob : Q) :
  positive_profile profile ->
  (n + j <= length kmer)%nat -> (n + j <= length profile)%nat ->
  (0 < prob)%Q ->
  exists p,
    for_each (seq n j)
      (fun j prob =>
         let* c := index kmer j in
         if Ascii.eqb c (chr "A") then times_cell profile j 0 prob
         else if Ascii.eqb c (chr "C") then times_cell profile j 1 prob
         else if Ascii.eqb c (chr "G") then times_cell profile j 2 prob
         else if Ascii.eqb c (chr "T") then times_cell profile j 3 prob
         else Ok prob)
      prob = Ok p /\ (0 < p)%Q.
Proof.
  intros Hprof. revert n prob.
  induction j as [|j IH]; intros n prob Hkmer Hrows Hprob.
  - exists prob. by split.
  - cbn [seq for_each].
    destruct (index_lt kmer n) as (c & _ & ->); [lia|]. cbn [Py.bind].
    assert (exists p, (if Ascii.eqb c (chr "A") then times_cell profile n 0 prob
                       else if Ascii.eqb c (chr "C") then times_cell profile n 1 prob
                       else if Ascii.eqb c (chr "G") then times_cell profile n 2 prob
                       else if Ascii.eqb c (chr "T") then times_cell profile n 3 prob
                       else Ok prob) = Ok p /\ (0 < p)%Q) as (p & -> & Hp).
    { repeat (destruct (Ascii.eqb c _);
              [apply times_cell_pos; (done || lia)|]).
      exists prob. by split. }
    cbn [Py.bind]. apply IH; (done || lia).
Qed.

Lemma kmer_prob_pos (kmer : str) (profile : list (list Q)) :
  positive_profile profile -> length profile = length kmer ->
  exists p, kmer_prob kmer (len kmer) profile = Ok p /\ (0 < p)%Q.
Proof.
  intros Hprof Hlen. unfold kmer_prob. rewrite range_len.
  apply kmer_prob_loop; (done || lia).
Qed.

Lemma Qle_bool_pos (x : Q) : (0 < x)%Q -> Qle_bool x 0 = false.
Proof.
  intros Hx. destruct (Qle_bool x 0) eqn:Hle; [|done].
  apply Qle_bool_iff in Hle. by apply Qlt_not_le in Hx.
Qed.

Lemma Qeq_bool_pos (x : Q) : (0 < x)%Q -> Qeq_bool x 0 = false.
Proof.
  intros Hx. destruct (Qeq_bool x 0) eqn:Heq; [|done].
  apply Qeq_bool_iff in Heq. rewrite Heq in Hx. by apply Qlt_irrefl in Hx.
Qed.

(** ** Binary64 arithmetic *)

(** Adding [0] to a float that is not a zero leaves it as it is. *)
Lemma float_zero_plus (p : float) : is_zero p = false -> (0 + p)%float = p.
Proof.
  intros Hz. apply Prim2SF_inj. rewrite add_spec.
  unfold is_zero in Hz. rewrite FloatAxioms.eqb_spec in Hz.
  change (Prim2SF 0) with (S754_zero false).
  change (Prim2SF zero) with (S754_zero false) in Hz.
  destruct (Prim2SF p) as [s|s| |s m e]; try reflexivity.
  destruct s; (vm_compute in Hz; discriminate Hz).
Qed.

Lemma float_zero_plus_zero (p : float) :
  is_zero p = true -> is_zero (0 + p) = true.
Proof.
  unfold is_zero. rewrite !FloatAxioms.eqb_spec, add_spec.
  change (Prim2SF 0) with (S754_zero false).
  change (Prim2SF zero) with (S754_zero false).
  destruct (Prim2SF p) as [s|s| |s m e]; intros Hz.
  - by destruct s.
  - destruct s; (vm_compute in Hz; discriminate Hz).
  - (vm_compute in Hz; discriminate Hz).
  - destruct s; (vm_compute in Hz; discriminate Hz).
Qed.

(** A finite float that is not a zero, divided by itself, is exactly [1]. *)
Lemma float_div_self (p : float) :
  is_zero p = false -> is_finite p = true -> (p / p)%float = 1%float.
Proof.
  intros Hz Hf. apply Prim2SF_inj. rewrite div_spec.
  unfold is_zero in Hz. rewrite FloatAxioms.eqb_spec in Hz.
  unfold is_finite, is_nan, is_infinity in Hf.
  rewrite !FloatAxioms.eqb_spec, abs_spec in Hf.
  destruct (Prim2SF p) as [s|s| |s m e].
  - destruct s; (vm_compute in Hz; discriminate Hz).
  - destruct s; (vm_compute in Hf; discriminate Hf).
  - (vm_compute in Hf; discriminate Hf).
  - clear. cbv [SF64div SFdiv SFdiv_core_binary].
    replace (Zdigits2 (Z.pos m) + e - (Zdigits2 (Z.pos m) + e)) with 0 by lia.
    replace (e - e) with 0 by lia.
    change (Z.min (fexp prec emax 0) 0) with (-53).
    change (0 - -53) with 53. cbv beta iota zeta.
    assert (Z.div_eucl (Z.shiftl (Z.pos m) 53) (Z.pos m) = (2 ^ 53, 0)) as ->.
    { rewrite Z.shiftl_mul_pow2, Z.mul_comm by lia.
      pose proof (Z.div_mul (2 ^ 53) (Z.pos m) ltac:(lia)) as Hq.
      pose proof (Z.mod_mul (2 ^ 53) (Z.pos m) ltac:(lia)) as Hr.
      unfold Z.modulo, Z.div in *.
      destruct (Z.div_eucl (2 ^ 53 * Z.pos m) (Z.pos m)) as [q r].
      by subst. }
    assert (new_location (Z.pos m) 0 = loc_Exact) as ->.
    { unfold new_location, new_location_even, new_location_odd.
      by destruct (Z.even (Z.pos m)). }
    destruct s; vm_compute; reflexivity.
Qed.

(** An infinity or a NaN divided by itself is NaN. *)
Lemma float_div_self_not_finite (p : float) :
  is_finite p = false -> (p / p)%float = nan.
Proof.
  intros Hf. apply Prim2SF_inj. rewrite div_spec.
  unfold is_finite, is_nan, is_infinity in Hf.
  rewrite !FloatAxioms.eqb_spec, abs_spec in Hf.
  change (Prim2SF nan) with S754_nan.
  destruct (Prim2SF p) as [s|s| |s m e]; try reflexivity.
  exfalso. revert Hf. unfold SFeqb, SFcompare, SFabs.
  change (Prim2SF infinity) with (S754_infinity false).
  rewrite Pos.compare_cont_refl, Z.compare_refl. by destruct s.
Qed.

(** ** One candidate offset: [k = len(seq)], in binary64 *)

Lemma offsets_whole (seq : str) : offsets seq (len seq) = [0%nat].
Proof. unfold offsets. by replace (len seq - len seq + 1) with 1 by lia. Qed.

Lemma b64_times_cell_ok (profile : list (list float)) (j n : nat)
    (prob : float) :
  four_cells profile -> (j < length profile)%nat -> (n < 4)%nat ->
  exists p, Binary64.times_cell profile j n prob = Ok p.
Proof.
  intros Hprof Hj Hn. unfold four_cells in Hprof.
  destruct (lookup_lt_is_Some_2 profile j Hj) as [row Hrow].
  rewrite Forall_forall in Hprof.
  pose proof (Hprof row ltac:(by eapply list_elem_of_lookup_2)) as Hlen.
  destruct (lookup_lt_is_Some_2 row n) as [p Hp]; [lia|].
  exists (prob * p)%float. unfold Binary64.times_cell, index.
  rewrite Hrow. cbn [Py.bind]. by rewrite Hp.
Qed.

Lemma b64_kmer_prob_loop (kmer : str) (profile : list (list float))
    (n j : nat) (prob : float) :
  four_cells profile ->
  (n + j <= length kmer)%nat -> (n + j <= length profile)%nat ->
  exists p,
    for_each (seq n j)
      (fun j prob =>
         let* c := index kmer j in
         if Ascii.eqb c (chr "A") then Binary64.times_cell profile j 0 prob
         else if Ascii.eqb c (chr "C") then Binary64.times_cell profile j 1 prob
         else if Ascii.eqb c (chr "G") then Binary64.times_cell profile j 2 prob
         else if Ascii.eqb c (chr "T") then Binary64.times_cell profile j 3 prob
         else Ok prob)
      prob = Ok p.
Proof.
  intros Hprof. revert n prob.
  induction j as [|j IH]; intros n prob Hkmer Hrows; [by exists prob|].
  cbn [seq for_each].
  destruct (index_lt kmer n) as (c & _ & ->); [lia|]. cbn [Py.bind].
  assert (exists p,
            (if Ascii.eqb c (chr "A") then Binary64.times_cell profile n 0 prob
             else if Ascii.eqb c (chr "C")
             then Binary64.times_cell profile n 1 prob
             else if Ascii.eqb c (chr "G")
             then Binary64.times_cell profile n 2 prob
             else if Ascii.eqb c (chr "T")
             then Binary64.times_cell profile n 3 prob
             else Ok prob) = Ok p) as (p & ->).
  { repeat (destruct (Ascii.eqb c _);
            [apply b64_times_cell_ok; (done || lia)|]).
    by exists prob. }
  cbn [Py.bind]. apply IH; lia.
Qed.

(** The product of lines 89-98 is computed without an exception when the
    profile has a row of four cells for every character of the k-mer. *)
Lemma b64_kmer_prob_ok (kmer : str) (profile : list (list float)) :
  length profile = length kmer -> four_cells profile ->
  exists p, Binary64.kmer_prob kmer (len kmer) profile = Ok p.
Proof.
  intros Hlen Hprof. unfold Binary64.kmer_prob. rewrite range_len.
  apply b64_kmer_prob_loop; (done || lia).
Qed.

(** C9: when [k] is the length of the sequence there is one candidate
    offset, 0, and what the call does is decided by the binary64 product [p]
    of the cells that the sequence selects, as lines 89-98 compute it.  If
    [p] is finite and not zero, the call returns the whole sequence after one
    draw, whatever the generator yields; if [p] is [0.0], line 100 raises
    [ZeroDivisionError]; if [p] is infinite or not a number,
    [random.choices] raises [ValueError]. *)
Theorem whole_sequence_unless_product_degenerates (seq : str)
    (profile : list (list float)) (g : Binary64.rng) :
  length profile = length seq -> four_cells profile ->
  exists p : float,
    Binary64.kmer_prob seq (len seq) profile = Ok p /\
    offsets seq (len seq) = [0%nat] /\
    Binary64.profile_randomly_generated_kmer seq (len seq) profile g
    = if is_zero p then Err ZeroDivisionError
      else if is_finite p then Ok (seq, snd (Binary64.random g))
      else Err ValueError.
Proof.
  intros Hlen Hprof.
  destruct (b64_kmer_prob_ok seq profile Hlen Hprof) as (p & Hp).
  exists p. split; [done|]. split; [apply offsets_whole|].
  unfold Binary64.profile_randomly_generated_kmer, Binary64.kmer_weights,
    Binary64.likelihoods.
  rewrite offsets_whole. cbn [comprehension]. unfold kmer_at.
  change (Z.of_nat 0) with 0. rewrite slice_whole, Hp.
  cbn [Py.bind comprehension]. unfold Binary64.sum. cbn [fold_left].
  unfold Binary64.fdiv. destruct (is_zero p) eqn:Hz.
  - by rewrite float_zero_plus_zero.
  - rewrite float_zero_plus, Hz by done. cbn [Py.bind].
    unfold Binary64.choices, Binary64.total_weight.
    cbn [Binary64.accumulate Binary64.accumulate_from length Nat.eqb negb].
    change (getitem [(p / p)%float] (-1)) with (Ok (p / p)%float).
    cbn [Py.bind]. destruct (is_finite p) eqn:Hf.
    + rewrite float_div_self by done.
      change (1 + 0 <=? 0)%float with false.
      change (is_finite (1 + 0)) with true. cbn [negb].
      unfold Binary64.random, Binary64.bisect. change (1 - 1)%nat with 0%nat.
      cbn [Nat.sub Binary64.bisect_loop Py.bind].
      change (index [0%nat] 0) with (Ok 0%nat). cbn [Py.bind snd].
      change (Z.of_nat 0) with 0. by rewrite slice_whole.
    + rewrite float_div_self_not_finite by done.
      change (nan + 0 <=? 0)%float with false.
      by change (is_finite (nan + 0)) with false.
Qed.

Lemma whole_sequence_unless_product_degenerates_witness :
  exists p : float,
    Binary64.kmer_prob (lit "ACGT") (len (lit "ACGT"))
      (replicate 4 (replicate 4 0.125%float)) = Ok p /\
    offsets (lit "ACGT") (len (lit "ACGT")) = [0%nat] /\
    Binary64.profile_randomly_generated_kmer (lit "ACGT") (len (lit "ACGT"))
      (replicate 4 (replicate 4 0.125%float)) (Binary64.of_list [0.75%float])
    = if is_zero p then Err ZeroDivisionError
      else if is_finite p
           then Ok (lit "ACGT",
                    snd (Binary64.random (Binary64.of_list [0.75%float])))
           else Err ValueError.
Proof.
  apply (whole_sequence_unless_product_degenerates (lit "ACGT")
           (replicate 4 (replicate 4 0.125%float))
           (Binary64.of_list [0.75%float])); [reflexivity|].
  unfold four_cells. by repeat constructor.
Defined.

(** C9, as the claim has it, fails: every cell of this profile is strictly
    positive, yet the product of the 400 cells that the sequence selects is
    [0.125 ** 400 = 0.0] in binary64, and line 100 divides by it. *)
Theorem positive_cells_can_underflow :
  positive_cells (replicate 400 (replicate 4 0.125%float)) = true /\
  length (replicate 400 (replicate 4 0.125%float))
  = length (replicate 400 (chr "A")) /\
  len (replicate 400 (chr "A")) = 400 /\
  Binary64.kmer_prob (replicate 400 (chr "A")) 400
    (replicate 400 (replicate 4 0.125%float)) = Ok 0%float /\
  Binary64.profile_randomly_generated_kmer (replicate 400 (chr "A")) 400
    (replicate 400 (replicate 4 0.125%float)) (Binary64.of_list [0.5%float])
  = Err ZeroDivisionError.
Proof. repeat split; vm_compute; reflexivity. Qed.

(** ** [gibbs_sampler] *)

Lemma gibbs_init_unbound (dna : list str) (k : Z) (g : rng) (st : locals) :
  gibbs_init dna k g = Ok st ->
  st.(best_motifs) = st.(motifs) /\
  st.(gibbs_motifs) = None /\ st.(consensus_motif) = None.
Proof.
  unfold gibbs_init. intros ([ms g'] & _ & Hst)%bind_ok.
  by injection Hst as <-.
Qed.

Lemma gibbs_return_unbound (st : locals) :
  st.(gibbs_motifs) = None -> is_ok (gibbs_return st) = false.
Proof.
  intros Hnone. unfold gibbs_return. rewrite Hnone.
  by destruct (score_motif (best_motifs st)).
Qed.

(** With no iteration the names [gibbs_motifs] and [consensus_motif] are
    never bound, and the [return] raises for every input. *)
Lemma gibbs_sampler_zero_iterations (dna : list str) (k t : Z) (g : rng) :
  is_ok (gibbs_sampler dna k t 0 g) = false.
Proof.
  unfold gibbs_sampler.
  destruct (gibbs_init dna k g) as [st|e] eqn:Hinit; [|done].
  apply gibbs_init_unbound in Hinit as (_ & Hnone & _).
  cbn [Py.bind]. change (gibbs_loop dna k t 0 st) with (Ok st).
  cbn [Py.bind]. pose proof (gibbs_return_unbound st Hnone) as Hret.
  by destruct (gibbs_return st).
Qed.

(** C4 on the corpus of the module: with [N = 0] the call does not return
    the initial motif set; it raises [UnboundLocalError], and no input makes
    a call with [N = 0] return. *)
Theorem zero_iterations_raise_unbound_local :
  gibbs_sampler dna 4 5 0 (of_list []) = Err UnboundLocalError /\
  (exists st,
     gibbs_init dna 4 (of_list []) = Ok st /\
     st.(best_motifs)
     = [lit "TTAC"; lit "GATG"; lit "CCGG"; lit "CACT"; lit "CGTC"] /\
     score_motif st.(best_motifs) = Ok 11) /\
  forall dna k t g, is_ok (gibbs_sampler dna k t 0 g) = false.
Proof.
  split; [reflexivity|]. split; [|apply gibbs_sampler_zero_iterations].
  eexists. split; [reflexivity|]. by split.
Qed.

Lemma gibbs_loop_succ (dna : list str) (k t : Z) (n : nat) (st : locals) :
  gibbs_loop dna k t (Z.of_nat (S n)) st
  = let* st' := gibbs_loop dna k t (Z.of_nat n) st in gibbs_step dna k t st'.
Proof.
  unfold gibbs_loop. rewrite !range_of_nat, seq_S, for_each_app.
  destruct (for_each (seq 0 n) _ st) as [st'|e]; cbn [Py.bind]; [|done].
  cbn [for_each]. by destruct (gibbs_step dna k t st').
Qed.

Lemma gibbs_step_best (dna : list str) (k t : Z) (st st' : locals) :
  gibbs_step dna k t st = Ok st' ->
  exists new_score best_score,
    score_motif st'.(motifs) = Ok new_score /\
    score_motif st.(best_motifs) = Ok best_score /\
    st'.(best_motifs)
    = (if new_score <? best_score then st'.(motifs) else st.(best_motifs)).
Proof.
  unfold gibbs_step.
  intros ([i g] & _ & H)%bind_ok.
  apply bind_ok in H as (motif_i & _ & H).
  apply bind_ok in H as (ms & _ & H).
  apply bind_ok in H as (profile & _ & H).
  apply bind_ok in H as (seq & _ & H).
  apply bind_ok in H as ([motif_i' g'] & _ & H).
  apply bind_ok in H as (new_score & Hnew & H).
  apply bind_ok in H as (best_score & Hbest & H).
  apply bind_ok in H as (gm & _ & H).
  apply bind_ok in H as (cm & _ & H).
  injection H as <-. cbn [motifs best_motifs].
  by exists new_score, best_score.
Qed.

Lemma gibbs_step_scores (dna : list str) (k t : Z) (before after : locals) :
  gibbs_step dna k t before = Ok after ->
  exists new_score best_score best_score',
    score_motif after.(motifs) = Ok new_score /\
    score_motif before.(best_motifs) = Ok best_score /\
    score_motif after.(best_motifs) = Ok best_score' /\
    (new_score < best_score ->
     after.(best_motifs) = after.(motifs) /\ best_score' = new_score) /\
    (best_score <= new_score ->
     after.(best_motifs) = before.(best_motifs) /\ best_score' = best_score) /\
    best_score' <= best_score.
Proof.
  intros Hstep.
  destruct (gibbs_step_best dna k t before after Hstep)
    as (new_score & best_score & Hnew & Hbest & Hupd).
  destruct (Z.ltb_spec new_score best_score) as [Hlt|Hge].
  - exists new_score, best_score, new_score. rewrite Hupd.
    repeat split; (done || lia).
  - exists new_score, best_score, best_score. rewrite Hupd.
    repeat split; (done || lia).
Qed.

(** Over any stretch of a run the score of the best set does not go up. *)
Lemma best_score_monotone (dna : list str) (k t : Z) (n d : nat)
    (st before after : locals) (x : Z) :
  gibbs_loop dna k t (Z.of_nat n) st = Ok before ->
  gibbs_loop dna k t (Z.of_nat (n + d)) st = Ok after ->
  score_motif before.(best_motifs) = Ok x ->
  exists y, score_motif after.(best_motifs) = Ok y /\ y <= x.
Proof.
  intros Hbefore. revert after. induction d as [|d IH]; intros after Hafter Hx.
  - rewrite Nat.add_0_r, Hbefore in Hafter. injection Hafter as <-.
    exists x. split; [done | lia].
  - rewrite Nat.add_succ_r, gibbs_loop_succ in Hafter.
    apply bind_ok in Hafter as (mid & Hmid & Hstep).
    destruct (IH mid Hmid Hx) as (y & Hy & Hyx).
    destruct (gibbs_step_scores dna k t mid after Hstep)
      as (_ & b & b' & _ & Hb & Hb' & _ & _ & Hle).
    exists b'. split; [done|]. rewrite Hy in Hb. injection Hb as <-. lia.
Qed.

(** C5: across one iteration of a run the best set changes only to the newly
    formed set, and only when that set scores strictly lower; so the score
    of the best set never goes up from one iteration to the next. *)
Theorem best_score_never_increases (dna : list str) (k t : Z) (n : nat)
    (st before after : locals) :
  gibbs_loop dna k t (Z.of_nat n) st = Ok before ->
  gibbs_loop dna k t (Z.of_nat (S n)) st = Ok after ->
  exists new_score best_score best_score',
    score_motif after.(motifs) = Ok new_score /\
    score_motif before.(best_motifs) = Ok best_score /\
    score_motif after.(best_motifs) = Ok best_score' /\
    (new_score < best_score ->
     after.(best_motifs) = after.(motifs) /\ best_score' = new_score) /\
    (best_score <= new_score ->
     after.(best_motifs) = before.(best_motifs) /\ best_score' = best_score) /\
    best_score' <= best_score.
Proof.
  intros Hbefore Hafter. rewrite gibbs_loop_succ, Hbefore in Hafter.
  by apply (gibbs_step_scores dna k t).
Qed.

Lemma best_score_never_increases_witness :
  exists before after,
    gibbs_loop dna 4 5 (Z.of_nat 1) (start_of dna 4 example_draws) = Ok before /\
    gibbs_loop dna 4 5 (Z.of_nat 2) (start_of dna 4 example_draws) = Ok after /\
    exists new_score best_score best_score',
      score_motif after.(motifs) = Ok new_score /\
      score_motif before.(best_motifs) = Ok best_score /\
      score_motif after.(best_motifs) = Ok best_score' /\
      (new_score < best_score ->
       after.(best_motifs) = after.(motifs) /\ best_score' = new_score) /\
      (best_score <= new_score ->
       after.(best_motifs) = before.(best_motifs) /\ best_score' = best_score) /\
      best_score' <= best_score.
Proof.
  do 2 eexists. split; [vm_compute; reflexivity|].
  split; [vm_compute; reflexivity|].
  apply (best_score_never_increases dna 4 5 1 (start_of dna 4 example_draws));
    vm_compute; reflexivity.
Defined.

(** ** Malformed corpora *)

Lemma init_motifs_short (dna : list str) (k : Z) (acc : list str) (g : rng) :
  Exists (fun seq => len seq < k) dna ->
  for_each dna
    (fun seq '(motifs, g) =>
       let* (i, g') := randint 0 (len seq - k) g in
       Ok (motifs ++ [kmer_at seq k i], g'))
    (acc, g)
  = Err ValueError.
Proof.
  intros Hshort. revert acc g.
  induction dna as [|seq dna IH]; intros acc g; [by apply Exists_nil in Hshort|].
  cbn [for_each]. unfold randint at 1.
  destruct (Z.ltb_spec (len seq - k) 0) as [Hlt|Hge]; [done|].
  cbn [random Py.bind]. apply IH.
  apply Exists_cons in Hshort as [Hseq|Hrest]; [lia | done].
Qed.

Lemma getitem_nil {A} (i : Z) : getitem (@nil A) i = Err IndexError.
Proof.
  unfold getitem.
  destruct ((wrap (len (@nil A)) i <? 0) || (len (@nil A) <=? wrap (len (@nil A)) i))
    eqn:Hout; [done|].
  apply orb_false_elim in Hout as [Hneg Hlen].
  apply Z.ltb_ge in Hneg. apply Z.leb_gt in Hlen.
  unfold len in Hneg, Hlen. simpl in Hneg, Hlen. lia.
Qed.

Lemma gibbs_step_empty (k t : Z) (st : locals) :
  st.(motifs) = [] ->
  gibbs_step [] k t st = Err ValueError \/ gibbs_step [] k t st = Err IndexError.
Proof.
  intros Hnil. unfold gibbs_step, randint.
  destruct (t - 1 <? 0); [by left|]. right.
  cbn [random Py.bind]. by rewrite Hnil, getitem_nil.
Qed.

Lemma gibbs_sampler_empty (k t N : Z) (g : rng) :
  gibbs_sampler [] k t N g = Err ValueError \/
  gibbs_sampler [] k t N g = Err IndexError.
Proof.
  unfold gibbs_sampler. change (gibbs_init [] k g) with
    (Ok {| motifs := []; best_motifs := []; gibbs_motifs := None;
           consensus_motif := None; gen := g |}).
  cbn [Py.bind]. unfold gibbs_loop, range.
  destruct (Z.to_nat N) as [|n]; [by right|].
  cbn [seq for_each].
  by destruct (gibbs_step_empty k t
                 {| motifs := []; best_motifs := []; gibbs_motifs := None;
                    consensus_motif := None; gen := g |} eq_refl) as [-> | ->];
    [left | right].
Qed.

(** C6, as the code has it: an empty corpus or a sequence shorter than [k]
    makes [gibbs_sampler] raise.  A short sequence raises [ValueError] while
    the initial offsets are drawn, before the sampling loop is entered; on an
    empty corpus no sampling iteration completes. *)
Theorem malformed_corpus_raises (dna : list str) (k t N : Z) (g : rng) :
  dna = [] \/ Exists (fun seq => len seq < k) dna ->
  (exists e, gibbs_sampler dna k t N g = Err e /\
             (e = ValueError \/ e = IndexError)) /\
  (forall st, gibbs_init dna k g = Ok st ->
              is_ok (gibbs_step dna k t st) = false) /\
  (Exists (fun seq => len seq < k) dna ->
   gibbs_init dna k g = Err ValueError /\
   gibbs_sampler dna k t N g = Err ValueError).
Proof.
  assert (Exists (fun seq => len seq < k) dna ->
          gibbs_init dna k g = Err ValueError /\
          gibbs_sampler dna k t N g = Err ValueError) as Hshort.
  { intros Hex. unfold gibbs_sampler, gibbs_init, init_motifs.
    by rewrite init_motifs_short. }
  intros [-> | Hex].
  - split; [|split; [|done]].
    + destruct (gibbs_sampler_empty k t N g) as [H | H]; eauto.
    + intros st Hst. injection Hst as <-.
      by destruct (gibbs_step_empty k t
                     {| motifs := []; best_motifs := []; gibbs_motifs := None;
                        consensus_motif := None; gen := g |} eq_refl)
        as [-> | ->].
  - destruct (Hshort Hex) as [Hinit Hrun].
    split; [eauto|]. split; [|done].
    intros st Hst. by rewrite Hinit in Hst.
Qed.

Lemma malformed_corpus_raises_witness :
  (exists e, gibbs_sampler [lit "ACGTAC"; lit "AC"] 3 2 1 example_draws = Err e /\
             (e = ValueError \/ e = IndexError)) /\
  (forall st, gibbs_init [lit "ACGTAC"; lit "AC"] 3 example_draws = Ok st ->
              is_ok (gibbs_step [lit "ACGTAC"; lit "AC"] 3 2 st) = false) /\
  (Exists (fun seq => len seq < 3) [lit "ACGTAC"; lit "AC"] ->
   gibbs_init [lit "ACGTAC"; lit "AC"] 3 example_draws = Err ValueError /\
   gibbs_sampler [lit "ACGTAC"; lit "AC"] 3 2 1 example_draws = Err ValueError).
Proof.
  apply (malformed_corpus_raises [lit "ACGTAC"; lit "AC"] 3 2 1 example_draws).
  right. apply Exists_cons_tl, Exists_cons_hd. reflexivity.
Defined.

(** C6 as stated names these as the only failures.  A corpus of one sequence,
    long enough for [k], with [t = 1] and one iteration fails too: after the
    eviction no motif is left to build the profile from. *)
Lemma single_sequence_corpus_raises :
  gibbs_sampler [lit "ACGT"] 2 1 1 (of_list []) = Err IndexError /\
  pop [lit "AC"] 0 = Ok [] /\
  build_profile_matrix [] = Err IndexError /\
  [lit "ACGT"] <> [] /\
  ~ Exists (fun seq => len seq < 2) [lit "ACGT"].
Proof.
  repeat split; [discriminate|].
  intros [H|H]%Exists_cons; [discriminate H | by apply Exists_nil in H].
Qed.

(** ** [RepeatGibbsMotSearch] *)

Lemma batch_loop_extends (k t N : Z) (xs : list nat) (b b' : batch) :
  for_each xs
    (fun _ b =>
       let* (motif, score, gibbs_motifs, consensus, g') :=
         gibbs_sampler dna k t N b.(bgen) in
       Ok {| motif_lst := b.(motif_lst) ++ [motif];
             score_lst := b.(score_lst) ++ [score];
             all_gibs_motifs_lst := b.(all_gibs_motifs_lst) ++ [gibbs_motifs];
             consensus_lst := b.(consensus_lst) ++ [consensus];
             bgen := g' |})
    b = Ok b' ->
  exists ss gs cs,
    b'.(score_lst) = b.(score_lst) ++ ss /\
    b'.(all_gibs_motifs_lst) = b.(all_gibs_motifs_lst) ++ gs /\
    b'.(consensus_lst) = b.(consensus_lst) ++ cs.
Proof.
  revert b. induction xs as [|x xs IH]; intros b Hloop.
  - injection Hloop as <-. exists [], [], []. by rewrite !app_nil_r.
  - cbn [for_each] in Hloop. apply bind_ok in Hloop as (b1 & Hb1 & Hrest).
    apply bind_ok in Hb1 as ([[[[motif score] gm] cons] g'] & _ & Hb1).
    injection Hb1 as <-.
    destruct (IH _ Hrest) as (ss & gs & cs & Hss & Hgs & Hcs).
    cbn [score_lst all_gibs_motifs_lst consensus_lst] in Hss, Hgs, Hcs.
    exists (score :: ss), (gm :: gs), (cons :: cs).
    rewrite Hss, Hgs, Hcs, <- !app_assoc. done.
Qed.

(** Whatever the batch holds, the block written for an outer iteration shows
    the consensus and the motifs of the first run of the batch, and the first
    score ever appended to the module-level [score_lst]. *)
Lemma outer_iteration_reports_first_run (k t N n_times : Z) (N_iter : nat)
    (d d' : driver) (motif : list str) (score : Z) (gibbs_motifs : list str)
    (cons : str) (g' : rng) :
  gibbs_sampler dna k t N d.(dgen) = Ok (motif, score, gibbs_motifs, cons, g') ->
  outer_iteration k t N n_times N_iter d = Ok d' ->
  d'.(report)
  = d.(report)
    ++ [WriteHeader (Z.of_nat N_iter + 1) N; WriteConsensus cons;
        WriteScore (hd score d.(scores)); WriteMotifsTitle]
    ++ map WriteMotif gibbs_motifs ++ [WriteSeparator].
Proof.
  intros Hfirst. unfold outer_iteration, run_batch.
  intros (b & Hb & H)%bind_ok.
  apply bind_ok in H as (c0 & Hc0 & H).
  apply bind_ok in H as (s0 & Hs0 & H).
  apply bind_ok in H as (g0 & Hg0 & H).
  injection H as <-. cbn [report].
  unfold range in Hb. destruct (Z.to_nat n_times) as [|n].
  { injection Hb as <-. discriminate Hc0. }
  cbn [seq for_each bgen] in Hb. rewrite Hfirst in Hb. cbn [Py.bind] in Hb.
  apply batch_loop_extends in Hb as (ss & gs & cs & Hss & Hgs & Hcs).
  cbn [score_lst all_gibs_motifs_lst consensus_lst] in Hss, Hgs, Hcs.
  unfold index in Hc0, Hs0, Hg0. rewrite Hcs in Hc0. rewrite Hgs in Hg0.
  rewrite Hss in Hs0. cbn in Hc0, Hg0.
  injection Hc0 as <-. injection Hg0 as <-.
  destruct (scores d) as [|s ss0]; cbn in Hs0; by injection Hs0 as <-.
Qed.

(** C1 on two runs of one outer iteration: the first run ends with score 11
    and consensus ["CATC"], the second with score 5 and consensus ["ACGT"].
    The sorted [data] starts with the second run, but the block written to
    the report is the first run's. *)
Theorem report_shows_first_run_not_best :
  exists d,
    RepeatGibbsMotSearch 4 5 1 2 [] batch_draws = Ok d /\
    d.(scores) = [11; 5] /\
    d.(data)
    = [ (5,
         [highlighted "TT" "ACCT" "TAAC"; highlighted "G" "ATGT" "CTGTC";
          highlighted "CCG" "GCGT" "TAG"; highlighted "CACTA" "ACGA" "G";
          highlighted "CGTCAG" "AGGT" ""],
         lit "ACGT");
        (11,
         [highlighted "" "TTAC" "CTTAAC"; highlighted "" "GATG" "TCTGTC";
          highlighted "" "CCGG" "CGTTAG"; highlighted "" "CACT" "AACGAG";
          highlighted "" "CGTC" "AGAGGT"],
         lit "CATC") ] /\
    d.(report)
    = [ WriteHeader 1 1; WriteConsensus (lit "CATC"); WriteScore 11;
        WriteMotifsTitle;
        WriteMotif (highlighted "" "TTAC" "CTTAAC");
        WriteMotif (highlighted "" "GATG" "TCTGTC");
        WriteMotif (highlighted "" "CCGG" "CGTTAG");
        WriteMotif (highlighted "" "CACT" "AACGAG");
        WriteMotif (highlighted "" "CGTC" "AGAGGT");
        WriteSeparator ].
Proof. eexists. split; [vm_compute; reflexivity|]. by vm_compute. Qed.

(** ** A well-formed run goes through (in exact arithmetic) *)

Lemma valid_tail (g : rng) : valid g -> valid (snd (random g)).
Proof. intros Hg n. apply (Hg (S n)). Qed.

Lemma randint_range (a b : Z) (g : rng) :
  valid g -> a <= b ->
  exists i, randint a b g = Ok (i, snd (random g)) /\ a <= i <= b.
Proof.
  intros Hg Hab. unfold randint.
  destruct (Z.ltb_spec b a) as [?|_]; [lia|]. cbn [random].
  destruct (Hg 0%nat) as [Hge Hlt].
  assert (0 < inject_Z (b - a + 1))%Q as Hw by (apply inject_Z_pos; lia).
  eexists. split; [reflexivity|].
  assert (0 <= Qfloor (g 0%nat * inject_Z (b - a + 1))) as Hlo.
  { change 0 with (Qfloor 0). apply Qfloor_resp_le.
    apply Qmult_le_0_compat; [done | by apply Qlt_le_weak]. }
  assert (Qfloor (g 0%nat * inject_Z (b - a + 1)) < b - a + 1) as Hhi.
  { rewrite Zlt_Qlt. eapply Qle_lt_trans; [apply Qfloor_le|].
    rewrite <- (Qmult_1_l (inject_Z (b - a + 1))) at 2.
    by apply Qmult_lt_compat_r. }
  lia.
Qed.

Lemma slice_length {A} (s : list A) (i : Z) (k : nat) :
  0 <= i -> i + Z.of_nat k <= len s ->
  length (slice s i (i + Z.of_nat k)) = k.
Proof.
  unfold slice, clamp, len. intros Hi Hk.
  destruct (Z.ltb_spec i 0) as [?|_]; [lia|].
  destruct (Z.ltb_spec (i + Z.of_nat k) 0) as [?|_]; [lia|].
  rewrite !Z.min_l by lia.
  rewrite length_take, length_drop. lia.
Qed.

Lemma wrap_nonneg (n i : Z) : 0 <= i -> wrap n i = i.
Proof. unfold wrap. intros Hi. by destruct (Z.ltb_spec i 0) as [?|_]; [lia|]. Qed.

Lemma in_range_test (n i : Z) : 0 <= i < n -> (i <? 0) || (n <=? i) = false.
Proof.
  intros Hi. destruct (Z.ltb_spec i 0) as [?|_]; [lia|].
  by destruct (Z.leb_spec n i) as [?|_]; [lia|].
Qed.

Lemma getitem_in_range {A} (l : list A) (i : Z) :
  0 <= i < len l -> exists x, getitem l i = Ok x /\ l !! Z.to_nat i = Some x.
Proof.
  intros Hi. unfold getitem. rewrite wrap_nonneg, in_range_test by lia.
  destruct (index_lt l (Z.to_nat i)) as (x & Hx & Hix); [unfold len in Hi; lia|].
  by exists x.
Qed.

Lemma pop_in_range {A} (l : list A) (i : Z) :
  0 <= i < len l -> pop l i = Ok (delete (Z.to_nat i) l).
Proof.
  intros Hi. unfold pop. by rewrite wrap_nonneg, in_range_test by lia.
Qed.

Lemma insert_in_range {A} (l : list A) (i : Z) (x : A) :
  0 <= i <= len l ->
  Py.insert l i x = take (Z.to_nat i) l ++ x :: drop (Z.to_nat i) l.
Proof.
  intros Hi. unfold Py.insert. rewrite wrap_nonneg by lia.
  by rewrite Z.max_r, Z.min_l by lia.
Qed.

Lemma evicted (k : nat) (ms : list str) (i : Z) :
  0 <= i < len ms -> equal_length k ms ->
  length (delete (Z.to_nat i) ms) = (length ms - 1)%nat /\
  equal_length k (delete (Z.to_nat i) ms).
Proof.
  unfold len. intros Hi Hk. split; [|by apply Forall_delete].
  rewrite length_delete; [lia | apply lookup_lt_is_Some_2; lia].
Qed.

Lemma reinserted (k : nat) (ms : list str) (i : Z) (m : str) :
  0 <= i < len ms -> equal_length k ms -> length m = k ->
  length (Py.insert (delete (Z.to_nat i) ms) i m) = length ms /\
  equal_length k (Py.insert (delete (Z.to_nat i) ms) i m).
Proof.
  intros Hi Hk Hm. destruct (evicted k ms i Hi Hk) as [Hdel Hkdel].
  unfold len in Hi. rewrite insert_in_range by (unfold len; lia). split.
  - rewrite length_app. cbn [length].
    rewrite length_take, length_drop. lia.
  - apply Forall_app. split; [by apply Forall_take|].
    apply Forall_cons. split; [done | by apply Forall_drop].
Qed.

Lemma init_motifs_loop (dna : list str) (k : nat) (acc : list str) (g : rng) :
  long_enough k dna -> valid g ->
  exists ms g',
    for_each dna
      (fun seq '(motifs, g) =>
         let* (i, g') := randint 0 (len seq - Z.of_nat k) g in
         Ok (motifs ++ [kmer_at seq (Z.of_nat k) i], g'))
      (acc, g)
    = Ok (acc ++ ms, g') /\
    length ms = length dna /\ equal_length k ms /\ valid g'.
Proof.
  intros Hdna. revert acc g.
  induction Hdna as [|seq dna Hseq _ IH]; intros acc g Hg.
  - exists [], g. rewrite app_nil_r.
    split; [done|]. split; [done|]. split; [apply Forall_nil_2 | done].
  - cbn [for_each].
    destruct (randint_range 0 (len seq - Z.of_nat k) g Hg) as (i & -> & Hi);
      [unfold len; lia|].
    cbn [Py.bind].
    destruct (IH (acc ++ [kmer_at seq (Z.of_nat k) i]) _ (valid_tail g Hg))
      as (ms & g' & -> & Hlen & Hk & Hg').
    exists (kmer_at seq (Z.of_nat k) i :: ms), g'.
    rewrite <- app_assoc. split; [done|]. split; [simpl; lia|]. split; [|done].
    apply Forall_cons. split; [|done].
    apply slice_length; [lia | unfold len in *; lia].
Qed.

Lemma kmer_probs_ok (seq : str) (k : nat) (profile : list (list Q))
    (offs : list nat) :
  positive_profile profile -> length profile = k ->
  Forall (fun i => (i + k <= length seq)%nat) offs ->
  exists ps,
    comprehension
      (fun i => kmer_prob (kmer_at seq (Z.of_nat k) (Z.of_nat i)) (Z.of_nat k)
                  profile)
      offs = Ok ps /\
    length ps = length offs /\ Forall (fun p => (0 < p)%Q) ps.
Proof.
  intros Hprof Hrows. induction 1 as [|i offs Hi _ (ps & IH & Hlen & Hpos)].
  - by exists [].
  - cbn [comprehension].
    assert (length (kmer_at seq (Z.of_nat k) (Z.of_nat i)) = k) as Hkmer
      by (apply slice_length; unfold len; lia).
    destruct (kmer_prob_pos (kmer_at seq (Z.of_nat k) (Z.of_nat i)) profile)
      as (p & Hp & Hppos); [done | congruence |].
    unfold len in Hp. rewrite Hkmer in Hp. rewrite Hp, IH. cbn [Py.bind].
    exists (p :: ps). split; [done|]. split; [simpl; lia|].
    by apply Forall_cons.
Qed.

Lemma fold_sum_pos (ps : list Q) (acc : Q) :
  (0 < acc)%Q -> Forall (fun p => (0 < p)%Q) ps ->
  (0 < fold_left Qplus ps acc)%Q.
Proof.
  intros Hacc Hps. revert acc Hacc.
  induction Hps as [|p ps Hp _ IH]; intros acc Hacc; [done|].
  cbn [fold_left]. apply IH.
  rewrite <- (Qplus_0_l 0). apply Qplus_lt_le_compat; [done|].
  by apply Qlt_le_weak.
Qed.

Lemma sum_pos (ps : list Q) :
  ps <> [] -> Forall (fun p => (0 < p)%Q) ps -> (0 < Py.sum ps)%Q.
Proof.
  intros Hne Hps. destruct Hps as [|p ps Hp Hps]; [done|].
  unfold Py.sum. cbn [fold_left]. apply fold_sum_pos; [|done].
  by rewrite Qplus_0_l.
Qed.

Lemma normalise_ok (total : Q) (ps : list Q) :
  (0 < total)%Q -> Forall (fun p => (0 < p)%Q) ps ->
  exists ws,
    comprehension (fun p => fdiv p total) ps = Ok ws /\
    length ws = length ps /\ Forall (fun w => (0 < w)%Q) ws.
Proof.
  intros Htotal. induction 1 as [|p ps Hp _ (ws & IH & Hlen & Hpos)].
  - by exists [].
  - cbn [comprehension]. unfold fdiv at 1. rewrite (Qeq_bool_pos _ Htotal).
    cbn [Py.bind]. rewrite IH. cbn [Py.bind].
    exists ((p / total)%Q :: ws). split; [done|]. split; [simpl; lia|].
    apply Forall_cons. split; [|done].
    apply Qlt_shift_div_l; [done|]. by rewrite Qmult_0_l.
Qed.

Lemma accumulate_from_pos (acc : Q) (ws : list Q) :
  (0 <= acc)%Q -> Forall (fun w => (0 < w)%Q) ws ->
  length (accumulate_from acc ws) = length ws /\
  Forall (fun c => (0 < c)%Q) (accumulate_from acc ws).
Proof.
  intros Hacc Hws. revert acc Hacc.
  induction Hws as [|w ws Hw _ IH]; intros acc Hacc; [done|].
  assert (0 < acc + w)%Q as Hpos.
  { rewrite Qplus_comm, <- (Qplus_0_l 0). by apply Qplus_lt_le_compat. }
  cbn [accumulate_from]. destruct (IH (acc + w)%Q) as [Hlen Hall];
    [by apply Qlt_le_weak|].
  split; [simpl; lia | by apply Forall_cons].
Qed.

Lemma getitem_last {A} (l : list A) :
  l <> [] -> exists x, getitem l (-1) = Ok x /\ x ∈ l.
Proof.
  intros Hne. assert (0 < len l) as Hlen
    by (destruct l; [done | unfold len; simpl; lia]).
  unfold getitem. change (wrap (len l) (-1)) with (-1 + len l).
  rewrite in_range_test by lia.
  destruct (index_lt l (Z.to_nat (-1 + len l))) as (x & Hx & ->);
    [unfold len in *; lia|].
  exists x. split; [done | by eapply list_elem_of_lookup_2].
Qed.

Lemma bisect_le (a : list Q) (x : Q) (hi : nat) : (bisect a x hi <= hi)%nat.
Proof.
  revert a. induction hi as [|hi IH]; intros [|y a]; simpl; try lia.
  destruct (Qle_bool y x); [|lia]. specialize (IH a). lia.
Qed.

Lemma accumulate_pos (ws : list Q) :
  Forall (fun w => (0 < w)%Q) ws ->
  length (accumulate ws) = length ws /\
  Forall (fun c => (0 < c)%Q) (accumulate ws).
Proof.
  intros [|w ws' Hw Hws]; [done|]. cbn [accumulate].
  destruct (accumulate_from_pos w ws') as [Hlen Hall];
    [by apply Qlt_le_weak | done |].
  split; [simpl; lia | by apply Forall_cons].
Qed.

Lemma choices_ok {A} (population : list A) (ws : list Q) (g : rng) :
  population <> [] -> length ws = length population ->
  Forall (fun w => (0 < w)%Q) ws ->
  exists x, choices population ws g = Ok (x, snd (random g)) /\ x ∈ population.
Proof.
  intros Hne Hlen Hws. unfold choices.
  destruct (accumulate_pos ws Hws) as [Hcum Hpos].
  rewrite Hcum, Hlen, Nat.eqb_refl. cbn [negb].
  destruct (getitem_last (accumulate ws)) as (total & -> & Hin).
  { intros Hnil. rewrite Hnil in Hcum. destruct population; [done|].
    simpl in *. lia. }
  cbn [Py.bind]. rewrite Forall_forall in Hpos.
  rewrite (Qle_bool_pos total (Hpos total Hin)). cbn [random].
  destruct (index_lt population
              (bisect (accumulate ws) (g 0%nat * total)
                 (length population - 1))) as (x & Hx & ->).
  { pose proof (bisect_le (accumulate ws) (g 0%nat * total)
                  (length population - 1)).
    destruct population; [done | simpl in *; lia]. }
  cbn [Py.bind]. exists x. split; [done | by eapply list_elem_of_lookup_2].
Qed.

Lemma sampler_ok (seq : str) (k : nat) (profile : list (list Q)) (g : rng) :
  positive_profile profile -> length profile = k -> (k <= length seq)%nat ->
  exists m,
    profile_randomly_generated_kmer seq (Z.of_nat k) profile g
    = Ok (m, snd (random g)) /\
    length m = k.
Proof.
  intros Hprof Hrows Hk.
  assert (offsets seq (Z.of_nat k) = List.seq 0 (length seq - k + 1)) as Hoff.
  { unfold offsets, range, len. f_equal. lia. }
  assert (Forall (fun i => (i + k <= length seq)%nat)
            (List.seq 0 (length seq - k + 1))) as Hfit.
  { apply Forall_forall. intros i Hi%elem_of_seq. lia. }
  unfold profile_randomly_generated_kmer, kmer_weights. rewrite Hoff.
  destruct (kmer_probs_ok seq k profile _ Hprof Hrows Hfit)
    as (ps & -> & Hlen & Hpos).
  cbn [Py.bind]. rewrite length_seq in Hlen.
  destruct (normalise_ok (Py.sum ps) ps) as (ws & -> & Hwlen & Hwpos);
    [apply sum_pos; [destruct ps; [simpl in Hlen; lia | done] | done] | done |].
  cbn [Py.bind].
  destruct (choices_ok (List.seq 0 (length seq - k + 1)) ws g)
    as (i & -> & Hi%elem_of_seq);
    [by rewrite Nat.add_1_r | rewrite length_seq; lia | done |].
  cbn [Py.bind]. eexists. split; [done|].
  apply slice_length; unfold len; lia.
Qed.

Lemma uniform_profile_positive (k : nat) (m : Z) :
  0 <= m -> positive_profile (replicate k (replicate 4 (1 / inject_Z (m + 4))%Q)).
Proof.
  intros Hm. apply Forall_replicate. split; [done|].
  apply Forall_replicate. apply Qlt_shift_div_l; [apply inject_Z_pos; lia|].
  by rewrite Qmult_0_l.
Qed.

Lemma highlight_loop (dna best : list str) (n j : nat) (acc : list str) :
  (n + j <= length dna)%nat -> (n + j <= length best)%nat ->
  exists gm,
    for_each (seq n j)
      (fun i gibbs_motifs =>
         let* seq := index dna i in
         let* b := index best i in
         Ok (gibbs_motifs ++ [replace seq b (red ++ b ++ reset)]))
      acc = Ok gm.
Proof.
  revert n acc. induction j as [|j IH]; intros n acc Hdna Hbest.
  - by exists acc.
  - cbn [seq for_each].
    destruct (index_lt dna n) as (s & _ & ->); [lia|].
    destruct (index_lt best n) as (b & _ & ->); [lia|].
    cbn [Py.bind]. apply IH; lia.
Qed.

Lemma highlight_ok (dna best : list str) :
  length best = length dna -> exists gm, highlight dna best = Ok gm.
Proof.
  intros Hlen. unfold highlight. rewrite range_len.
  apply highlight_loop; lia.
Qed.

(** What one iteration establishes: both motif sets stay aligned with the
    corpus, and the rendering and the consensus that are kept are those of
    the best set. *)
Lemma gibbs_step_ok (dna : list str) (k : nat) (st : locals) :
  long_enough k dna -> (2 <= length dna)%nat ->
  aligned dna k st.(motifs) -> aligned dna k st.(best_motifs) ->
  valid st.(gen) ->
  exists st' gm cm,
    gibbs_step dna (Z.of_nat k) (len dna) st = Ok st' /\
    aligned dna k st'.(motifs) /\ aligned dna k st'.(best_motifs) /\
    valid st'.(gen) /\
    st'.(gibbs_motifs) = Some gm /\ highlight dna st'.(best_motifs) = Ok gm /\
    st'.(consensus_motif) = Some cm /\ consensus st'.(best_motifs) = Ok cm.
Proof.
  intros Hdna Htwo [Hlen Hk] [Hblen Hbk] Hg. unfold gibbs_step.
  destruct (randint_range 0 (len dna - 1) st.(gen) Hg) as (i & -> & Hi);
    [unfold len; lia|].
  cbn [Py.bind].
  assert (0 <= i < len st.(motifs)) as Hi' by (unfold len in *; lia).
  destruct (getitem_in_range st.(motifs) i Hi') as (old & -> & _).
  cbn [Py.bind]. rewrite pop_in_range by done. cbn [Py.bind].
  destruct (evicted k st.(motifs) i Hi' Hk) as [Hdel Hkdel].
  rewrite (build_profile_matrix_spec k)
    by (done || (intros Hnil; rewrite Hnil in Hdel; simpl in Hdel; lia)).
  cbn [Py.bind].
  destruct (getitem_in_range dna i) as (seq & -> & Hseq); [unfold len in *; lia|].
  cbn [Py.bind].
  assert (k <= length seq)%nat as Hfit.
  { unfold long_enough in Hdna. rewrite Forall_lookup in Hdna. by eapply Hdna. }
  destruct (sampler_ok seq k
              (replicate k
                 (replicate 4
                    (1 / inject_Z (len (delete (Z.to_nat i) st.(motifs)) + 4))%Q))
              (snd (random st.(gen))))
    as (m & -> & Hm);
    [apply uniform_profile_positive; unfold len; lia
    | by rewrite length_replicate | done |].
  cbn [Py.bind].
  destruct (reinserted k st.(motifs) i m Hi' Hk Hm) as [Hnlen Hnk].
  set (new := Py.insert (delete (Z.to_nat i) st.(motifs)) i m) in *.
  assert (forall ms : list str, length ms = length dna -> ms <> []) as Hne
    by (intros ms Hms ->; simpl in Hms; lia).
  rewrite (score_motif_spec k new) by (done || apply Hne; congruence).
  rewrite (score_motif_spec k st.(best_motifs)) by (done || by apply Hne).
  cbn [Py.bind].
  set (best := if score_of k new <? score_of k st.(best_motifs)
               then new else st.(best_motifs)).
  assert (aligned dna k best) as [Hbest_len Hbest_k].
  { unfold best. destruct (_ <? _); split; (done || congruence). }
  destruct (highlight_ok dna best Hbest_len) as (gm & Hgm). rewrite Hgm.
  cbn [Py.bind].
  rewrite (consensus_spec k best) by (done || by apply Hne).
  cbn [Py.bind].
  exists {| motifs := new; best_motifs := best; gibbs_motifs := Some gm;
            consensus_motif := Some (consensus_of k best);
            gen := snd (random (snd (random st.(gen)))) |},
    gm, (consensus_of k best).
  cbn [motifs best_motifs gibbs_motifs consensus_motif gen].
  split; [done|]. split; [split; [congruence | done]|].
  split; [by split|]. split; [by do 2 apply valid_tail|].
  split; [done|]. split; [done|]. split; [done|].
  apply consensus_spec; [by apply Hne | done].
Qed.

Lemma gibbs_loop_ok (dna : list str) (k : nat) (n : nat) (st : locals) :
  long_enough k dna -> (2 <= length dna)%nat ->
  aligned dna k st.(motifs) -> aligned dna k st.(best_motifs) ->
  valid st.(gen) ->
  exists st' gm cm,
    gibbs_loop dna (Z.of_nat k) (len dna) (Z.of_nat (S n)) st = Ok st' /\
    aligned dna k st'.(motifs) /\ aligned dna k st'.(best_motifs) /\
    valid st'.(gen) /\
    st'.(gibbs_motifs) = Some gm /\ highlight dna st'.(best_motifs) = Ok gm /\
    st'.(consensus_motif) = Some cm /\ consensus st'.(best_motifs) = Ok cm.
Proof.
  intros Hdna Htwo Hms Hbest Hg. induction n as [|n IH].
  - rewrite gibbs_loop_succ. change (gibbs_loop dna (Z.of_nat k) (len dna)
                                       (Z.of_nat 0) st) with (Ok st).
    cbn [Py.bind]. by apply gibbs_step_ok.
  - destruct IH as (mid & _ & _ & Hmid & Hmms & Hmbest & Hmg & _).
    rewrite gibbs_loop_succ, Hmid. cbn [Py.bind]. by apply gibbs_step_ok.
Qed.

(** In exact arithmetic, a run of at least one iteration on a corpus of two
    or more sequences, each with room for a motif of length [k], returns: a
    best set aligned with the corpus, its score, and the rendering and the
    consensus of that same set. *)
Lemma gibbs_sampler_returns (dna : list str) (k : nat) (n : nat) (g : rng) :
  long_enough k dna -> (2 <= length dna)%nat -> valid g ->
  exists best score gm cm g',
    gibbs_sampler dna (Z.of_nat k) (len dna) (Z.of_nat (S n)) g
    = Ok (best, score, gm, cm, g') /\
    aligned dna k best /\
    score_motif best = Ok score /\
    highlight dna best = Ok gm /\
    consensus best = Ok cm.
Proof.
  intros Hdna Htwo Hg. unfold gibbs_sampler, gibbs_init, init_motifs.
  destruct (init_motifs_loop dna k [] g Hdna Hg)
    as (ms & g0 & -> & Hlen & Hk & Hg0).
  cbn [Py.bind app].
  destruct (gibbs_loop_ok dna k n
              {| motifs := ms; best_motifs := ms; gibbs_motifs := None;
                 consensus_motif := None; gen := g0 |})
    as (st & gm & cm & -> & _ & [Hblen Hbk] & _ & Hgm & Hhl & Hcm & Hcons);
    [done.. | by split | by split | done |].
  cbn [Py.bind]. unfold gibbs_return.
  rewrite (score_motif_spec k st.(best_motifs))
    by (done || (intros Hnil; rewrite Hnil in Hblen; simpl in Hblen; lia)).
  rewrite Hgm, Hcm. cbn [Py.bind read].
  exists st.(best_motifs), (score_of k st.(best_motifs)), gm, cm, st.(gen).
  split; [done|]. split; [by split|]. split; [|by split].
  apply score_motif_spec; [|done].
  intros Hnil; rewrite Hnil in Hblen; simpl in Hblen; lia.
Qed.

(** * Further properties *)

(** ** Which motif sets [score_motif] and [consensus] accept *)

(** A loop whose passes raise nothing but [e] raises [e] as soon as one pass
    is bound to. *)
Lemma for_each_raises {A S} (e : exn) (xs : list A) (body : A -> S -> result S)
    (s : S) :
  (forall x s, body x s = Err e \/ exists s', body x s = Ok s') ->
  Exists (fun x => forall s, body x s = Err e) xs ->
  for_each xs body s = Err e.
Proof.
  intros Honly Hex. revert s.
  induction Hex as [x xs Hx|x xs _ IH]; intros s; cbn [for_each].
  - by rewrite Hx.
  - destruct (Honly x s) as [-> | [s' ->]]; [done | apply IH].
Qed.

Lemma tally_loop_short (motif : list str) (i : nat) (a c g t : Z) :
  Exists (fun m => (length m <= i)%nat) motif ->
  for_each motif (fun m counts => let* ch := index m i in tally ch counts)
    [a; c; g; t]
  = Err IndexError.
Proof.
  intros Hshort. revert a c g t.
  induction motif as [|m ms IH]; intros a c g t; [by apply Exists_nil in Hshort|].
  cbn [for_each]. destruct (decide (i < length m)%nat) as [Hlt|Hge].
  - destruct (index_lt m i Hlt) as (ch & _ & ->). cbn [Py.bind].
    rewrite tally_spec. cbn [Py.bind]. apply IH.
    apply Exists_cons in Hshort as [?|?]; [lia | done].
  - unfold index. by rewrite lookup_ge_None_2 by lia.
Qed.

Lemma column_counts_short (motif : list str) (i : nat) :
  Exists (fun m => (length m <= i)%nat) motif ->
  column_counts motif i = Err IndexError.
Proof.
  intros Hshort. unfold column_counts.
  rewrite (for_each_subscripts motif
             (fun m counts => let* ch := index m i in tally ch counts)).
  by apply tally_loop_short.
Qed.

Lemma readable_or_short (motif : list str) (i : nat) :
  Forall (fun m => (i < length m)%nat) motif \/
  Exists (fun m => (length m <= i)%nat) motif.
Proof.
  induction motif as [|m ms [IH|IH]]; [by left | |].
  - destruct (decide (i < length m)%nat) as [Hlt|Hge].
    + left. by apply Forall_cons.
    + right. apply Exists_cons_hd. lia.
  - right. by apply Exists_cons_tl.
Qed.

Lemma for_each_only_raises {A S} (e : exn) (xs : list A)
    (body : A -> S -> result S) (s : S) :
  (forall x s, body x s = Err e \/ exists s', body x s = Ok s') ->
  for_each xs body s = Err e \/ exists s', for_each xs body s = Ok s'.
Proof.
  intros Honly. revert s. induction xs as [|x xs IH]; intros s.
  - right. by exists s.
  - cbn [for_each]. destruct (Honly x s) as [-> | [s' ->]]; [by left | apply IH].
Qed.

Lemma mismatch_loop_raises (motif : list str) (i : nat) (consensus : str)
    (score : Z) :
  for_each motif
    (fun m score =>
       let* c := index m i in
       let* d := index consensus i in
       if Ascii.eqb c d then Ok score else Ok (score + 1))
    score = Err IndexError \/
  exists score',
    for_each motif
      (fun m score =>
         let* c := index m i in
         let* d := index consensus i in
         if Ascii.eqb c d then Ok score else Ok (score + 1))
      score = Ok score'.
Proof.
  apply for_each_only_raises. intros m sc. unfold index.
  destruct (m !! i) as [c|]; [|by left]. cbn [Py.bind].
  destruct (consensus !! i) as [d|]; [|by left]. cbn [Py.bind].
  right. destruct (Ascii.eqb c d); by eexists.
Qed.

Lemma score_column_raises (motif : list str) (i : nat) (st : str * Z) :
  score_column motif i st = Err IndexError \/
  exists st', score_column motif i st = Ok st'.
Proof.
  destruct st as [cons score]. unfold score_column.
  destruct (readable_or_short motif i) as [Hread|Hshort].
  - rewrite (column_counts_spec motif i Hread). cbn [Py.bind].
    rewrite append_majority_column. cbn [Py.bind].
    unfold count_mismatches.
    rewrite (for_each_subscripts motif
               (fun m score =>
                  let* c := index m i in
                  let* d := index (cons ++ [majority (column motif i)]) i in
                  if Ascii.eqb c d then Ok score else Ok (score + 1))).
    destruct (mismatch_loop_raises motif i
                (cons ++ [majority (column motif i)]) score)
      as [-> | [score' ->]]; [by left|]. right. by eexists.
  - rewrite (column_counts_short motif i Hshort). by left.
Qed.

Lemma consensus_column_raises (motifs : list str) (i : nat) (cons : str) :
  consensus_column motifs i cons = Err IndexError \/
  exists cons', consensus_column motifs i cons = Ok cons'.
Proof.
  unfold consensus_column.
  destruct (readable_or_short motifs i) as [Hread|Hshort].
  - rewrite (column_counts_spec motifs i Hread). cbn [Py.bind].
    rewrite append_majority_column. right. by eexists.
  - rewrite (column_counts_short motifs i Hshort). by left.
Qed.

Lemma forallb_false {A} (f : A -> bool) (l : list A) :
  forallb f l = false -> Exists (fun x => f x = false) l.
Proof.
  induction l as [|x l IH]; [done|]. cbn [forallb].
  destruct (f x) eqn:Hx; [|intros _; by apply Exists_cons_hd].
  intros Hl. by apply Exists_cons_tl, IH.
Qed.

Lemma no_shorter_false (m0 : str) (ms : list str) :
  no_shorter (m0 :: ms) = false ->
  exists i, (i < length m0)%nat /\
            Exists (fun m => (length m <= i)%nat) (m0 :: ms).
Proof.
  unfold no_shorter. intros Hex%forallb_false.
  apply Exists_exists in Hex as (m & Hm & Hlt). apply Nat.leb_gt in Hlt.
  exists (length m). split; [done|]. apply Exists_exists. by exists m.
Qed.

Lemma no_shorter_true (motifs : list str) :
  no_shorter motifs = true ->
  motifs <> [] /\
  Forall (fun m => (width motifs <= length m)%nat) motifs.
Proof.
  destruct motifs as [|m0 ms]; [done|]. unfold no_shorter, width.
  intros Hall. split; [done|]. apply Forall_forall. intros m Hm.
  apply Nat.leb_le.
  apply (proj1 (forallb_forall _ _) Hall). by apply list_elem_of_In.
Qed.

Lemma wide_lt (k : nat) (motifs : list str) (i : nat) :
  Forall (fun m => (k <= length m)%nat) motifs -> (i < k)%nat ->
  Forall (fun m => (i < length m)%nat) motifs.
Proof.
  intros Hk Hi. eapply Forall_impl; [exact Hk|]. simpl. intros m Hm. lia.
Qed.

Lemma consensus_loop_wide (k : nat) (motifs : list str) (n j : nat)
    (acc : str) :
  Forall (fun m => (k <= length m)%nat) motifs -> (n + j <= k)%nat ->
  for_each (seq n j) (consensus_column motifs) acc
  = Ok (acc ++ map (fun i => majority (column motifs i)) (seq n j)).
Proof.
  intros Hk. revert n acc. induction j as [|j IH]; intros n acc Hn.
  - simpl. by rewrite app_nil_r.
  - cbn [seq for_each map]. unfold consensus_column at 1.
    rewrite (column_counts_spec motifs n) by (apply (wide_lt k); [done | lia]).
    cbn [Py.bind]. rewrite append_majority_column. cbn [Py.bind].
    rewrite IH by lia. by rewrite <- app_assoc.
Qed.

Lemma score_loop_wide (k : nat) (motifs : list str) (n j : nat) (acc : str)
    (score : Z) :
  Forall (fun m => (k <= length m)%nat) motifs -> (n + j <= k)%nat ->
  length acc = n ->
  for_each (seq n j) (score_column motifs) (acc, score)
  = Ok (acc ++ map (fun i => majority (column motifs i)) (seq n j),
        score + sumZ (map (column_score motifs) (seq n j))).
Proof.
  intros Hk. revert n acc score.
  induction j as [|j IH]; intros n acc score Hn Hacc.
  - simpl. by rewrite app_nil_r, Z.add_0_r.
  - assert (Forall (fun m => (n < length m)%nat) motifs) as Hlt
      by (apply (wide_lt k); [done | lia]).
    cbn [seq for_each map]. unfold score_column at 1.
    rewrite (column_counts_spec motifs n Hlt). cbn [Py.bind].
    rewrite append_majority_column. cbn [Py.bind].
    rewrite (count_mismatches_spec motifs n _ (majority (column motifs n)))
      by (done || (rewrite <- Hacc; apply list_lookup_middle; done)).
    cbn [Py.bind]. rewrite IH by (try lia; rewrite length_app; simpl; lia).
    rewrite <- app_assoc. cbn [sumZ fold_right app]. unfold column_score at 2.
    do 2 f_equal. fold (sumZ (map (column_score motifs) (seq (S n) j))). lia.
Qed.

(** On every input the two functions are given by one case distinction:
    the closed forms when no motif is shorter than the first, [IndexError]
    otherwise. *)
Lemma score_motif_locals_cases (motifs : list str) :
  score_motif_locals motifs
  = if no_shorter motifs
    then Ok (consensus_of (width motifs) motifs, score_of (width motifs) motifs)
    else Err IndexError.
Proof.
  destruct (no_shorter motifs) eqn:Hns.
  - apply no_shorter_true in Hns as [Hne Hwide].
    destruct motifs as [|m0 ms]; [done|]. unfold score_motif_locals.
    change (index (m0 :: ms) 0) with (Ok m0). cbn [Py.bind].
    rewrite range_len. by apply (score_loop_wide (length m0)).
  - destruct motifs as [|m0 ms]; [done|].
    apply no_shorter_false in Hns as (i & Hi & Hshort).
    unfold score_motif_locals. change (index (m0 :: ms) 0) with (Ok m0).
    cbn [Py.bind]. rewrite range_len.
    apply for_each_raises; [apply score_column_raises|].
    apply Exists_exists. exists i. split; [apply elem_of_seq; lia|].
    intros [cons score]. unfold score_column.
    by rewrite (column_counts_short _ i Hshort).
Qed.

Lemma consensus_cases (motifs : list str) :
  consensus motifs
  = if no_shorter motifs then Ok (consensus_of (width motifs) motifs)
    else Err IndexError.
Proof.
  destruct (no_shorter motifs) eqn:Hns.
  - apply no_shorter_true in Hns as [Hne Hwide].
    destruct motifs as [|m0 ms]; [done|]. unfold consensus.
    change (index (m0 :: ms) 0) with (Ok m0). cbn [Py.bind].
    rewrite range_len. by apply (consensus_loop_wide (length m0)).
  - destruct motifs as [|m0 ms]; [done|].
    apply no_shorter_false in Hns as (i & Hi & Hshort).
    unfold consensus. change (index (m0 :: ms) 0) with (Ok m0).
    cbn [Py.bind]. rewrite range_len.
    apply for_each_raises; [apply consensus_column_raises|].
    apply Exists_exists. exists i. split; [apply elem_of_seq; lia|].
    intros cons. unfold consensus_column.
    by rewrite (column_counts_short _ i Hshort).
Qed.

(** X1: [score_motif] and [consensus] return exactly when the motif set is
    not empty and no motif is shorter than the first one; on every other
    input both raise [IndexError]. *)
Theorem score_and_consensus_accept (motifs : list str) :
  if no_shorter motifs
  then is_ok (score_motif motifs) = true /\ is_ok (consensus motifs) = true
  else score_motif motifs = Err IndexError /\ consensus motifs = Err IndexError.
Proof.
  unfold score_motif. rewrite score_motif_locals_cases, consensus_cases.
  by destruct (no_shorter motifs).
Qed.

(** X2: on every input, failing ones included, the consensus string that
    [score_motif] builds is what [consensus] returns: both raise the same
    exception or both reach the same string. *)
Theorem score_motif_consensus_agree_everywhere (motifs : list str) :
  (let* st := score_motif_locals motifs in Ok (fst st)) = consensus motifs.
Proof.
  rewrite score_motif_locals_cases, consensus_cases.
  by destruct (no_shorter motifs).
Qed.

Lemma occurrences_absent (s : ascii) (col : str) :
  s ∉ col -> occurrences s col = 0.
Proof.
  induction col as [|c col IH]; [done|]. intros Hnotin. cbn [occurrences].
  rewrite IH by (intros Hin; apply Hnotin; by right).
  destruct (Ascii.eqb_spec c s) as [->|_]; [|done].
  exfalso. apply Hnotin. by left.
Qed.

Lemma majority_nucleotide (col : str) : nucleotide (majority col).
Proof.
  destruct (majority_spec col) as (r & Hr & _).
  by eapply list_elem_of_lookup_2.
Qed.

(** X3: whatever characters the motifs hold, a returned consensus has the
    length of the first motif and is written over A, C, G, T only; a column
    in which none of the four symbols occurs gets A. *)
Theorem consensus_over_alphabet (motifs : list str) (c : str) :
  consensus motifs = Ok c ->
  length c = width motifs /\
  Forall nucleotide c /\
  forall i, (i < width motifs)%nat ->
    (forall s, nucleotide s -> s ∉ column motifs i) ->
    c !! i = Some (chr "A").
Proof.
  rewrite consensus_cases. destruct (no_shorter motifs); [|done].
  intros [= <-]. unfold consensus_of.
  split; [by rewrite length_map, length_seq|]. split.
  - apply Forall_fmap, Forall_forall. intros i _. apply majority_nucleotide.
  - intros i Hi Hnone. rewrite list_lookup_fmap, lookup_seq_lt by done.
    cbn. f_equal. unfold majority.
    by rewrite !occurrences_absent by (apply Hnone; motif_set).
Qed.

Lemma consensus_over_alphabet_witness :
  length (lit "AA") = width [lit "AN"; lit "CN"] /\
  Forall nucleotide (lit "AA") /\
  forall i, (i < width [lit "AN"; lit "CN"])%nat ->
    (forall s, nucleotide s -> s ∉ column [lit "AN"; lit "CN"] i) ->
    lit "AA" !! i = Some (chr "A").
Proof.
  apply (consensus_over_alphabet [lit "AN"; lit "CN"] (lit "AA")). reflexivity.
Defined.

(** ** The score as a count of non-consensus symbols *)

Lemma mismatches_occurrences (s : ascii) (col : str) :
  mismatches s col = len col - occurrences s col.
Proof.
  unfold len. induction col as [|c col IH]; [done|].
  cbn [mismatches occurrences length]. rewrite IH.
  destruct (Ascii.eqb c s); lia.
Qed.

Lemma column_length (motifs : list str) (i : nat) :
  Forall (fun m => (i < length m)%nat) motifs ->
  length (column motifs i) = length motifs.
Proof.
  induction 1 as [|m ms Hm _ IH]; [done|].
  destruct (index_lt m i Hm) as (ch & Hch & _).
  cbn [column]. rewrite Hch. simpl. by rewrite IH.
Qed.

Lemma column_nucleotides (motifs : list str) (i : nat) :
  over_alphabet motifs -> Forall nucleotide (column motifs i).
Proof.
  intros Halpha. apply Forall_forall. intros c (m & Hm & Hc)%column_elem_of.
  unfold over_alphabet in Halpha. rewrite Forall_forall in Halpha.
  specialize (Halpha m Hm). rewrite Forall_forall in Halpha.
  apply Halpha. by eapply list_elem_of_lookup_2.
Qed.

Lemma occurrences_nonneg (s : ascii) (col : str) : 0 <= occurrences s col.
Proof.
  induction col as [|c col IH]; simpl; [lia|]. destruct (Ascii.eqb c s); lia.
Qed.

Lemma occurrences_total (col : str) :
  Forall nucleotide col ->
  occurrences (chr "A") col + occurrences (chr "C") col
  + occurrences (chr "G") col + occurrences (chr "T") col = len col.
Proof.
  unfold len. induction 1 as [|c col Hc _ IH]; [done|].
  cbn [occurrences length]. rewrite Nat2Z.inj_succ.
  unfold nucleotide, symbols in Hc.
  repeat (apply elem_of_cons in Hc as [->|Hc]);
    [..|by apply elem_of_nil in Hc];
    repeat match goal with
           | |- context [Ascii.eqb ?a ?b] =>
               let v := eval vm_compute in (Ascii.eqb a b) in
               change (Ascii.eqb a b) with v
           end; cbv iota; lia.
Qed.

Lemma majority_quarter (col : str) :
  Forall nucleotide col -> len col <= 4 * occurrences (majority col) col.
Proof.
  intros Hcol. rewrite <- (occurrences_total col Hcol).
  destruct (majority_spec col) as (r & _ & Hmax).
  pose proof (Hmax 0%nat (chr "A") eq_refl) as [? _].
  pose proof (Hmax 1%nat (chr "C") eq_refl) as [? _].
  pose proof (Hmax 2%nat (chr "G") eq_refl) as [? _].
  pose proof (Hmax 3%nat (chr "T") eq_refl) as [? _].
  lia.
Qed.

Lemma zip_with_maps {A B C D} (f : B -> C -> D) (g : A -> B) (h : A -> C)
    (l : list A) :
  zip_with f (map g l) (map h l) = map (fun x => f (g x) (h x)) l.
Proof. induction l as [|x l IH]; [done|]. simpl. by rewrite IH. Qed.

Lemma sumZ_bound (b : Z) (l : list Z) :
  Forall (fun x => 4 * x <= b) l -> 4 * sumZ l <= b * Z.of_nat (length l).
Proof.
  induction 1 as [|x l Hx _ IH]; [simpl; lia|].
  change (sumZ (x :: l)) with (x + sumZ l). cbn [length]. lia.
Qed.

(** X4: on a non-empty set of [m] equal-length motifs over A, C, G, T the
    score is the sum, over the columns, of [m] minus the number of motifs
    that carry the consensus symbol there; so four times the score is at most
    [3 * k * m]. *)
Theorem score_counts_non_consensus (k : nat) (motifs : list str) :
  motifs <> [] -> equal_length k motifs -> over_alphabet motifs ->
  exists score c,
    score_motif motifs = Ok score /\
    consensus motifs = Ok c /\
    score
    = sumZ (zip_with (fun s col => len motifs - occurrences s col) c
              (columns k motifs)) /\
    4 * score <= 3 * Z.of_nat k * len motifs.
Proof.
  intros Hne Hk Halpha. exists (score_of k motifs), (consensus_of k motifs).
  split; [by apply score_motif_spec|]. split; [by apply consensus_spec|].
  assert (forall i, i ∈ seq 0 k ->
            column_score motifs i
            = len motifs - occurrences (majority (column motifs i))
                             (column motifs i)) as Hcol.
  { intros i Hi%elem_of_seq. unfold column_score.
    rewrite mismatches_occurrences. unfold len.
    rewrite column_length by (apply (equal_length_lt k); [done | lia]). done. }
  split.
  - unfold score_of, consensus_of, columns. rewrite zip_with_maps.
    f_equal. apply map_ext_in. intros i Hi. apply Hcol.
    by apply list_elem_of_In.
  - unfold score_of.
    pose proof (sumZ_bound (3 * len motifs)
                  (map (column_score motifs) (seq 0 k))) as Hbound.
    rewrite length_map, length_seq in Hbound.
    etransitivity; [apply Hbound|lia].
    apply Forall_fmap, Forall_forall. intros i Hi. cbn. rewrite (Hcol i Hi).
    pose proof (majority_quarter (column motifs i)
                  (column_nucleotides motifs i Halpha)) as Hq.
    apply elem_of_seq in Hi. unfold len in Hq.
    rewrite column_length in Hq by (apply (equal_length_lt k); [done | lia]).
    unfold len. lia.
Qed.

Lemma score_counts_non_consensus_witness :
  exists score c,
    score_motif [lit "TTAC"; lit "GATG"; lit "CCGG"] = Ok score /\
    consensus [lit "TTAC"; lit "GATG"; lit "CCGG"] = Ok c /\
    score
    = sumZ (zip_with
              (fun s col =>
                 len [lit "TTAC"; lit "GATG"; lit "CCGG"] - occurrences s col)
              c (columns 4 [lit "TTAC"; lit "GATG"; lit "CCGG"])) /\
    4 * score <= 3 * Z.of_nat 4 * len [lit "TTAC"; lit "GATG"; lit "CCGG"].
Proof.
  apply (score_counts_non_consensus 4 [lit "TTAC"; lit "GATG"; lit "CCGG"]);
    motif_set.
Defined.

(** ** Which motif sets [build_profile_matrix] accepts *)

Lemma column_of_short (motifs : list str) (i : nat) :
  Exists (fun m => (length m <= i)%nat) motifs ->
  column_of motifs i = Err IndexError.
Proof.
  unfold column_of. induction motifs as [|m ms IH];
    [by intros ?%Exists_nil|].
  intros Hshort. cbn [comprehension]. unfold index at 1.
  destruct (m !! i) as [c|] eqn:Hc; [|done]. cbn [Py.bind].
  apply lookup_lt_Some in Hc. rewrite IH; [done|].
  apply Exists_cons in Hshort as [?|?]; [lia | done].
Qed.

Lemma set_cell_raises (profile : list (list Q)) (i j : nat) (v : Q) :
  set_cell profile i j v = Err IndexError \/
  exists profile', set_cell profile i j v = Ok profile'.
Proof.
  unfold set_cell, index, set_index.
  destruct (profile !! i) as [row|]; [|by left]. cbn [Py.bind].
  destruct (bool_decide (j < length row)%nat); [|by left]. cbn [Py.bind].
  destruct (bool_decide (i < length profile)%nat); [right; by eexists | by left].
Qed.

Lemma profile_pass_raises (motifs : list str) (i : nat)
    (profile : list (list Q)) :
  (let* column := column_of motifs i in fill_row motifs i column profile)
  = Err IndexError \/
  exists profile',
    (let* column := column_of motifs i in fill_row motifs i column profile)
    = Ok profile'.
Proof.
  destruct (readable_or_short motifs i) as [Hread|Hshort].
  - rewrite (column_of_spec motifs i Hread). cbn [Py.bind]. unfold fill_row.
    apply for_each_only_raises. intros j p. apply set_cell_raises.
  - rewrite (column_of_short motifs i Hshort). by left.
Qed.

Lemma profile_loop_wide (k : nat) (motifs : list str) (n j : nat)
    (filled : list (list Q)) :
  Forall (fun m => (k <= length m)%nat) motifs -> (n + j <= k)%nat ->
  length filled = n ->
  for_each (seq n j)
    (fun i profile =>
       let* column := column_of motifs i in
       fill_row motifs i column profile)
    (filled ++ replicate j (replicate 4 0%Q))
  = Ok (filled ++ replicate j (replicate 4 (1 / inject_Z (len motifs + 4))%Q)).
Proof.
  intros Hk. revert n filled. induction j as [|j IH]; intros n filled Hn Hlen.
  - done.
  - cbn [seq for_each replicate].
    rewrite column_of_spec by (apply (wide_lt k); [done | lia]).
    cbn [Py.bind].
    rewrite (fill_row_spec motifs n _ _ (replicate 4 0%Q));
      [|rewrite <- Hlen; by apply list_lookup_middle|done].
    cbn [Py.bind]. rewrite insert_app_r_alt by lia.
    rewrite Hlen, Nat.sub_diag. cbn [list_insert].
    specialize (IH (S n)
      (filled ++ [replicate 4 (1 / inject_Z (len motifs + 4))%Q])).
    rewrite <- !app_assoc in IH. apply IH; [lia|].
    rewrite length_app. simpl. lia.
Qed.

Lemma build_profile_matrix_table (motifs : list str) :
  build_profile_matrix motifs
  = if no_shorter motifs
    then Ok (replicate (width motifs)
               (replicate 4 (1 / inject_Z (len motifs + 4))%Q))
    else Err IndexError.
Proof.
  destruct (no_shorter motifs) eqn:Hns.
  - apply no_shorter_true in Hns as [Hne Hwide].
    destruct motifs as [|m0 ms]; [done|]. unfold build_profile_matrix.
    change (index (m0 :: ms) 0) with (Ok m0). cbn [Py.bind].
    rewrite range_len, map_const_replicate, length_seq.
    change (map (fun _ => 0%Q) (range 4)) with (replicate 4 0%Q).
    by apply (profile_loop_wide (length m0) (m0 :: ms) 0 (length m0) []).
  - destruct motifs as [|m0 ms]; [done|].
    apply no_shorter_false in Hns as (i & Hi & Hshort).
    unfold build_profile_matrix. change (index (m0 :: ms) 0) with (Ok m0).
    cbn [Py.bind]. rewrite range_len.
    apply for_each_raises; [intros x p; apply profile_pass_raises|].
    apply Exists_exists. exists i. split; [apply elem_of_seq; lia|].
    intros p. by rewrite (column_of_short _ i Hshort).
Qed.

(** X5: [build_profile_matrix] raises [IndexError] when the motif set is
    empty or holds a motif shorter than the first one; on every other set of
    [m] motifs it returns one row per position of the first motif, with all
    four cells equal to [1 / (m + 4)], whatever symbols the motifs hold. *)
Theorem build_profile_matrix_cases (motifs : list str) :
  build_profile_matrix motifs
  = if no_shorter motifs
    then Ok (replicate (width motifs)
               (replicate 4 (1 / inject_Z (len motifs + 4))%Q))
    else Err IndexError.
Proof. apply build_profile_matrix_table. Qed.

(** ** The weights and the result of the k-mer sampler *)

Lemma kmer_at_window (seq : str) (k i : nat) :
  (i + k <= length seq)%nat ->
  kmer_at seq (Z.of_nat k) (Z.of_nat i) = take k (drop i seq).
Proof.
  intros Hfit. unfold kmer_at, slice, clamp, len.
  destruct (Z.ltb_spec (Z.of_nat i) 0) as [?|_]; [lia|].
  destruct (Z.ltb_spec (Z.of_nat i + Z.of_nat k) 0) as [?|_]; [lia|].
  rewrite !Z.min_l by lia. f_equal; [lia | f_equal; lia].
Qed.

Lemma normalise_map (total : Q) (ps : list Q) :
  (0 < total)%Q ->
  comprehension (fun p => fdiv p total) ps
  = Ok (map (fun p => (p / total)%Q) ps).
Proof.
  intros Htotal. induction ps as [|p ps IH]; [done|].
  cbn [comprehension map]. unfold fdiv at 1. rewrite (Qeq_bool_pos _ Htotal).
  cbn [Py.bind]. by rewrite IH.
Qed.

Lemma fold_sum_proper (l : list Q) (a b : Q) :
  (a == b)%Q -> (fold_left Qplus l a == fold_left Qplus l b)%Q.
Proof.
  revert a b. induction l as [|x l IH]; intros a b Hab; [done|].
  cbn [fold_left]. apply IH. by rewrite Hab.
Qed.

Lemma fold_sum_scaled (total : Q) (ps : list Q) (a : Q) :
  (fold_left Qplus (map (fun p => p / total) ps) (a / total)
   == fold_left Qplus ps a / total)%Q.
Proof.
  revert a. induction ps as [|p ps IH]; intros a; [done|].
  cbn [map fold_left]. rewrite <- IH. apply fold_sum_proper.
  unfold Qdiv. ring.
Qed.

Lemma sum_scaled (total : Q) (ps : list Q) :
  (Py.sum (map (fun p => p / total) ps) == Py.sum ps / total)%Q.
Proof.
  unfold Py.sum. rewrite <- fold_sum_scaled. apply fold_sum_proper.
  unfold Qdiv. ring.
Qed.

Lemma offsets_fit (seq : str) (k : nat) :
  (k <= length seq)%nat ->
  offsets seq (Z.of_nat k) = List.seq 0 (length seq - k + 1) /\
  Forall (fun i => (i + k <= length seq)%nat) (List.seq 0 (length seq - k + 1)).
Proof.
  intros Hk. split.
  - unfold offsets, range, len. f_equal. lia.
  - apply Forall_forall. intros i Hi%elem_of_seq. lia.
Qed.

Lemma kmer_weights_spec (seq : str) (k : nat) (profile : list (list Q)) :
  positive_profile profile -> length profile = k -> (k <= length seq)%nat ->
  exists ws,
    kmer_weights seq (Z.of_nat k) profile = Ok ws /\
    length ws = (length seq - k + 1)%nat /\
    Forall (fun w => (0 < w)%Q) ws /\
    (Py.sum ws == 1)%Q.
Proof.
  intros Hprof Hrows Hk. destruct (offsets_fit seq k Hk) as [Hoff Hfit].
  unfold kmer_weights. rewrite Hoff.
  destruct (kmer_probs_ok seq k profile _ Hprof Hrows Hfit)
    as (ps & -> & Hlen & Hpos).
  cbn [Py.bind]. rewrite length_seq in Hlen.
  assert (0 < Py.sum ps)%Q as Hsum
    by (apply sum_pos; [destruct ps; [simpl in Hlen; lia | done] | done]).
  rewrite (normalise_map _ ps Hsum). eexists. split; [done|].
  split; [by rewrite length_map|]. split.
  - apply Forall_fmap. eapply Forall_impl; [exact Hpos|]. cbn. intros p Hp.
    apply Qlt_shift_div_l; [done|]. by rewrite Qmult_0_l.
  - rewrite sum_scaled. apply Qmult_inv_r. intros Hzero.
    rewrite Hzero in Hsum. by apply Qlt_irrefl in Hsum.
Qed.

Lemma sampler_spec (seq : str) (k : nat) (profile : list (list Q)) (g : rng) :
  positive_profile profile -> length profile = k -> (k <= length seq)%nat ->
  exists i : nat,
    profile_randomly_generated_kmer seq (Z.of_nat k) profile g
    = Ok (take k (drop i seq), snd (random g)) /\
    (i + k <= length seq)%nat.
Proof.
  intros Hprof Hrows Hk.
  destruct (kmer_weights_spec seq k profile Hprof Hrows Hk)
    as (ws & Hws & Hlen & Hpos & _).
  destruct (offsets_fit seq k Hk) as [Hoff _].
  unfold profile_randomly_generated_kmer. rewrite Hws, Hoff. cbn [Py.bind].
  destruct (choices_ok (List.seq 0 (length seq - k + 1)) ws g)
    as (i & -> & Hi%elem_of_seq);
    [by rewrite Nat.add_1_r | rewrite length_seq; lia | done |].
  cbn [Py.bind]. exists i. rewrite kmer_at_window by lia. split; [done | lia].
Qed.

(** X8: when [k] exceeds the length of the sequence there is no candidate
    offset, and the sampler raises [IndexError] (from [random.choices] on an
    empty population) for every profile and every generator state. *)
Theorem sampler_rejects_long_k (seq : str) (k : Z) (profile : list (list Q))
    (g : rng) :
  len seq < k ->
  offsets seq k = [] /\
  profile_randomly_generated_kmer seq k profile g = Err IndexError.
Proof.
  intros Hk.
  assert (offsets seq k = []) as Hoff.
  { unfold offsets, range. by replace (Z.to_nat (len seq - k + 1)) with 0%nat by lia. }
  split; [done|].
  unfold profile_randomly_generated_kmer, kmer_weights. by rewrite Hoff.
Qed.

Lemma sampler_rejects_long_k_witness :
  offsets (lit "ACG") 4 = [] /\
  profile_randomly_generated_kmer (lit "ACG") 4
    (replicate 4 (replicate 4 (1 # 8)%Q)) example_draws = Err IndexError.
Proof.
  apply (sampler_rejects_long_k (lit "ACG") 4). reflexivity.
Defined.

(** ** The weights and the result of the k-mer sampler, in binary64 *)







Lemma comprehension_length {A B} (f : A -> result B) (xs : list A)
    (ys : list B) :
  comprehension f xs = Ok ys -> length ys = length xs.
Proof.
  revert ys. induction xs as [|x xs IH]; intros ys Hys.
  - by injection Hys as <-.
  - cbn [comprehension] in Hys. destruct (f x) as [y|e]; [|done].
    cbn [Py.bind] in Hys. destruct (comprehension f xs) as [ys'|e]; [|done].
    cbn [Py.bind] in Hys. injection Hys as <-. simpl. f_equal. by apply IH.
Qed.

Lemma b64_accumulate_length (ws : list float) :
  length (Binary64.accumulate ws) = length ws.
Proof.
  destruct ws as [|w ws]; [done|]. cbn [Binary64.accumulate length]. f_equal.
  generalize w. induction ws as [|w' ws IH]; intros acc; [done|].
  cbn [Binary64.accumulate_from length]. by rewrite IH.
Qed.

(** The binary search stays between its bounds and reads the list below
    [hi] only, whatever the floats compare to. *)
Lemma b64_bisect_loop_spec (fuel : nat) (a : list float) (x : float)
    (lo hi : nat) :
  (lo <= hi)%nat -> (hi <= length a)%nat ->
  exists r, Binary64.bisect_loop fuel a x lo hi = Ok r /\ (lo <= r <= hi)%nat.
Proof.
  revert lo hi. induction fuel as [|fuel IH]; intros lo hi Hlo Hhi.
  - exists lo. split; [done | lia].
  - cbn [Binary64.bisect_loop]. destruct (Nat.ltb_spec lo hi) as [Hlt|Hge].
    + assert (lo <= (lo + hi) / 2 < hi)%nat as Hmid.
      { split; [apply Nat.div_le_lower_bound | apply Nat.Div0.div_lt_upper_bound];
          lia. }
      destruct (index_lt a ((lo + hi) / 2)) as (y & _ & ->); [lia|].
      cbn [Py.bind]. destruct (x <? y)%float.
      * destruct (IH lo ((lo + hi) / 2)%nat) as (r & -> & Hr); [lia..|].
        exists r. split; [done | lia].
      * destruct (IH ((lo + hi) / 2 + 1)%nat hi) as (r & -> & Hr); [lia..|].
        exists r. split; [done | lia].
    + exists lo. split; [done | lia].
Qed.

(** The fuel [hi - lo] of [bisect] is enough: more of it changes nothing. *)
Lemma b64_bisect_fuel (fuel fuel' : nat) (a : list float) (x : float)
    (lo hi : nat) :
  (hi - lo <= fuel)%nat -> (hi - lo <= fuel')%nat ->
  Binary64.bisect_loop fuel a x lo hi = Binary64.bisect_loop fuel' a x lo hi.
Proof.
  revert fuel' lo hi.
  induction fuel as [|fuel IH]; intros [|fuel'] lo hi Hf Hf';
    cbn [Binary64.bisect_loop]; try done.
  - by destruct (Nat.ltb_spec lo hi) as [?|_]; [lia|].
  - by destruct (Nat.ltb_spec lo hi) as [?|_]; [lia|].
  - destruct (Nat.ltb_spec lo hi) as [Hlt|_]; [|done].
    assert (lo <= (lo + hi) / 2 < hi)%nat as Hmid.
    { split; [apply Nat.div_le_lower_bound | apply Nat.Div0.div_lt_upper_bound];
        lia. }
    destruct (index a ((lo + hi) / 2)) as [y|e]; [|done].
    cbn [Py.bind]. destruct (x <? y)%float; apply IH; lia.
Qed.

Lemma b64_choices_spec {A} (population : list A) (ws : list float)
    (g : Binary64.rng) :
  length ws = length population -> population <> [] ->
  exists total,
    Binary64.total_weight (Binary64.accumulate ws) = Ok total /\
    if (total <=? 0)%float || negb (is_finite total)
    then Binary64.choices population ws g = Err ValueError
    else exists i x,
           population !! i = Some x /\
           Binary64.choices population ws g = Ok (x, snd (Binary64.random g)).
Proof.
  intros Hlen Hne.
  assert (0 < length population)%nat as Hpos
    by (destruct population; [done | simpl; lia]).
  destruct (getitem_last (Binary64.accumulate ws)) as (c & Hc & _).
  { intros Hnil. apply (f_equal length) in Hnil.
    rewrite b64_accumulate_length in Hnil. simpl in Hnil. lia. }
  exists (c + 0)%float. unfold Binary64.choices, Binary64.total_weight.
  rewrite Hc. cbn [Py.bind]. split; [done|].
  rewrite b64_accumulate_length, Hlen, Nat.eqb_refl. cbn [negb].
  destruct (c + 0 <=? 0)%float; [done|]. cbn [orb].
  destruct (is_finite (c + 0)); [|done]. cbn [negb].
  unfold Binary64.random, Binary64.bisect.
  destruct (b64_bisect_loop_spec (length population - 1 - 0)
              (Binary64.accumulate ws) (g 0%nat * (c + 0))%float 0
              (length population - 1)) as (i & -> & Hi);
    [lia | rewrite b64_accumulate_length; lia |].
  cbn [Py.bind]. destruct (index_lt population i) as (x & Hx & ->); [lia|].
  cbn [Py.bind snd]. by exists i, x.
Qed.

Lemma b64_kmer_weights_length (seq : str) (k : Z)
    (profile : list (list float)) (ws : list float) :
  Binary64.kmer_weights seq k profile = Ok ws ->
  length ws = length (offsets seq k).
Proof.
  unfold Binary64.kmer_weights, Binary64.likelihoods. intros Hws.
  destruct (comprehension _ (offsets seq k)) as [ps|e] eqn:Hps; [|done].
  cbn [Py.bind] in Hws.
  by rewrite (comprehension_length _ _ _ Hws), (comprehension_length _ _ _ Hps).
Qed.

(** X7: when line 100 has produced the weights [ws] for a sequence of length
    at least [k], what [random.choices] does is decided by their running
    total [total]: unless it is positive and finite the call raises
    [ValueError]; otherwise the call returns, after one draw, [k] consecutive
    characters of the sequence taken at an offset between 0 and
    [len(seq) - k], whatever the weights and the draw are. *)
Theorem sampler_draws_a_window (seq : str) (k : nat)
    (profile : list (list float)) (g : Binary64.rng) (ws : list float) :
  (k <= length seq)%nat ->
  Binary64.kmer_weights seq (Z.of_nat k) profile = Ok ws ->
  exists total,
    Binary64.total_weight (Binary64.accumulate ws) = Ok total /\
    if (total <=? 0)%float || negb (is_finite total)
    then Binary64.profile_randomly_generated_kmer seq (Z.of_nat k) profile g
         = Err ValueError
    else exists (i : nat) (m : str),
           Binary64.profile_randomly_generated_kmer seq (Z.of_nat k) profile g
           = Ok (m, snd (Binary64.random g)) /\
           (i + k <= length seq)%nat /\ m = take k (drop i seq) /\
           length m = k /\ window k seq m.
Proof.
  intros Hk Hws. destruct (offsets_fit seq k Hk) as [Hoff _].
  pose proof (b64_kmer_weights_length _ _ _ _ Hws) as Hlen.
  destruct (b64_choices_spec (offsets seq (Z.of_nat k)) ws g Hlen)
    as (total & Htotal & Hrun).
  { rewrite Hoff, Nat.add_1_r. done. }
  exists total. split; [done|].
  unfold Binary64.profile_randomly_generated_kmer. rewrite Hws. cbn [Py.bind].
  destruct ((total <=? 0)%float || negb (is_finite total)).
  - by rewrite Hrun.
  - destruct Hrun as (j & i & Hi & ->). cbn [Py.bind].
    rewrite Hoff in Hi. apply lookup_seq in Hi as [-> Hj].
    cbn [Nat.add] in *. exists j, (take k (drop j seq)).
    rewrite kmer_at_window by lia. split; [done|]. split; [lia|].
    split; [done|]. split; [rewrite length_take, length_drop; lia|].
    exists j. split; [lia | done].
Qed.

Lemma sampler_draws_a_window_witness :
  exists total,
    Binary64.total_weight
      (Binary64.accumulate (replicate 3 (0x1p-12 / 0x1.8p-11)%float))
    = Ok total /\
    if (total <=? 0)%float || negb (is_finite total)
    then Binary64.profile_randomly_generated_kmer (lit "ACGTAC") (Z.of_nat 4)
           (replicate 4 (replicate 4 0.125%float))
           (Binary64.of_list [0.75%float])
         = Err ValueError
    else exists (i : nat) (m : str),
           Binary64.profile_randomly_generated_kmer (lit "ACGTAC") (Z.of_nat 4)
             (replicate 4 (replicate 4 0.125%float))
             (Binary64.of_list [0.75%float])
           = Ok (m, snd (Binary64.random (Binary64.of_list [0.75%float]))) /\
           (i + 4 <= length (lit "ACGTAC"))%nat /\
           m = take 4 (drop i (lit "ACGTAC")) /\
           length m = 4%nat /\ window 4 (lit "ACGTAC") m.
Proof.
  apply (sampler_draws_a_window (lit "ACGTAC") 4
           (replicate 4 (replicate 4 0.125%float))
           (Binary64.of_list [0.75%float])); [simpl; lia|].
  vm_compute. reflexivity.
Defined.

(** ** The profile the code builds, in binary64, and resampling against it *)












(** ** One iteration and one run of the sampler, in detail *)

Lemma windows_aligned (dna : list str) (k : nat) (ms : list str) :
  windows dna k ms -> aligned dna k ms.
Proof.
  intros Hw. split; [symmetry; by eapply Forall2_length|].
  unfold equal_length. apply Forall_forall. intros m Hm.
  apply list_elem_of_lookup in Hm as [i Hi].
  destruct (Forall2_lookup_r _ _ _ _ _ Hw Hi) as (seq & _ & j & Hj & ->).
  rewrite length_take, length_drop. lia.
Qed.

(** Evicting a motif and inserting another one at the same index replaces
    the motif in place. *)
Lemma evict_reinsert_replaces {A} (l : list A) (i : nat) (x : A) :
  (i < length l)%nat ->
  Py.insert (delete i l) (Z.of_nat i) x = <[i := x]> l.
Proof.
  intros Hi. rewrite insert_in_range
    by (unfold len; rewrite length_delete by (by apply lookup_lt_is_Some_2); lia).
  rewrite Nat2Z.id, insert_take_drop, delete_take_drop by done.
  rewrite take_app_le, drop_app_ge by (rewrite length_take; lia).
  rewrite take_take, length_take.
  replace (i `min` i)%nat with i by lia.
  by replace (i - i `min` length l)%nat with 0%nat by lia.
Qed.

Lemma init_motifs_windows_loop (dna : list str) (k : nat) (acc : list str)
    (g : rng) :
  long_enough k dna -> valid g ->
  exists ms g',
    for_each dna
      (fun seq '(motifs, g) =>
         let* (i, g') := randint 0 (len seq - Z.of_nat k) g in
         Ok (motifs ++ [kmer_at seq (Z.of_nat k) i], g'))
      (acc, g)
    = Ok (acc ++ ms, g') /\
    windows dna k ms /\ valid g'.
Proof.
  intros Hdna. revert acc g.
  induction Hdna as [|seq dna Hseq _ IH]; intros acc g Hg.
  - exists [], g. rewrite app_nil_r. split; [done|]. split; [constructor | done].
  - cbn [for_each].
    destruct (randint_range 0 (len seq - Z.of_nat k) g Hg) as (i & -> & Hi);
      [unfold len; lia|].
    cbn [Py.bind].
    destruct (IH (acc ++ [kmer_at seq (Z.of_nat k) i]) _ (valid_tail g Hg))
      as (ms & g' & -> & Hw & Hg').
    exists (kmer_at seq (Z.of_nat k) i :: ms), g'.
    rewrite <- app_assoc. split; [done|]. split; [|done].
    constructor; [|done]. exists (Z.to_nat i).
    unfold len in Hi. split; [lia|].
    rewrite <- (Z2Nat.id i) at 1 by lia. apply kmer_at_window. lia.
Qed.

Lemma gibbs_step_spec (dna : list str) (k : nat) (st : locals) :
  long_enough k dna -> (2 <= length dna)%nat ->
  windows dna k st.(motifs) -> windows dna k st.(best_motifs) ->
  valid st.(gen) ->
  exists (i : nat) (seq m : str) (gm : list str),
    let new := <[i := m]> st.(motifs) in
    let best :=
      if score_of k new <? score_of k st.(best_motifs)
      then new else st.(best_motifs) in
    dna !! i = Some seq /\ window k seq m /\
    windows dna k new /\ windows dna k best /\
    highlight dna best = Ok gm /\
    gibbs_step dna (Z.of_nat k) (len dna) st
    = Ok {| motifs := new; best_motifs := best; gibbs_motifs := Some gm;
            consensus_motif := Some (consensus_of k best);
            gen := snd (random (snd (random st.(gen)))) |}.
Proof.
  intros Hdna Htwo Hw Hbw Hg.
  destruct (windows_aligned dna k _ Hw) as [Hlen Hk].
  destruct (windows_aligned dna k _ Hbw) as [Hblen Hbk].
  unfold gibbs_step.
  destruct (randint_range 0 (len dna - 1) st.(gen) Hg) as (z & -> & Hz);
    [unfold len; lia|].
  cbn [Py.bind].
  assert (0 <= z < len st.(motifs)) as Hz' by (unfold len in *; lia).
  destruct (getitem_in_range st.(motifs) z Hz') as (old & -> & _).
  cbn [Py.bind]. rewrite pop_in_range by done. cbn [Py.bind].
  destruct (evicted k st.(motifs) z Hz' Hk) as [Hdel Hkdel].
  rewrite (build_profile_matrix_spec k)
    by (done || (intros Hnil; rewrite Hnil in Hdel; simpl in Hdel; lia)).
  cbn [Py.bind].
  destruct (getitem_in_range dna z) as (seq & -> & Hseq); [unfold len in *; lia|].
  cbn [Py.bind].
  assert (k <= length seq)%nat as Hfit.
  { unfold long_enough in Hdna. rewrite Forall_lookup in Hdna. by eapply Hdna. }
  destruct (sampler_spec seq k
              (replicate k
                 (replicate 4
                    (1 / inject_Z (len (delete (Z.to_nat z) st.(motifs)) + 4))%Q))
              (snd (random st.(gen))))
    as (o & -> & Ho);
    [apply uniform_profile_positive; unfold len; lia
    | by rewrite length_replicate | done |].
  cbn [Py.bind].
  pose proof (evict_reinsert_replaces st.(motifs) (Z.to_nat z)
                (take k (drop o seq))) as Hrep.
  rewrite Z2Nat.id in Hrep by lia.
  rewrite Hrep by (unfold len in Hz'; lia). clear Hrep.
  set (i := Z.to_nat z) in *. set (m := take k (drop o seq)).
  assert (window k seq m) as Hm by (by exists o).
  assert (windows dna k (<[i := m]> st.(motifs))) as Hnw.
  { unfold windows. rewrite <- (list_insert_id dna i seq Hseq).
    by apply Forall2_insert. }
  destruct (windows_aligned dna k _ Hnw) as [Hnlen Hnk].
  assert (forall ms : list str, length ms = length dna -> ms <> []) as Hne
    by (intros ms Hms ->; simpl in Hms; lia).
  rewrite (score_motif_spec k (<[i := m]> st.(motifs)))
    by (done || by apply Hne).
  rewrite (score_motif_spec k st.(best_motifs)) by (done || by apply Hne).
  cbn [Py.bind].
  set (best := if score_of k (<[i := m]> st.(motifs))
                  <? score_of k st.(best_motifs)
               then <[i := m]> st.(motifs) else st.(best_motifs)).
  assert (windows dna k best) as Hbest by (unfold best; by destruct (_ <? _)).
  destruct (windows_aligned dna k _ Hbest) as [Hbest_len Hbest_k].
  destruct (highlight_ok dna best Hbest_len) as (gm & Hgm). rewrite Hgm.
  cbn [Py.bind].
  rewrite (consensus_spec k best) by (done || by apply Hne).
  cbn [Py.bind]. exists i, seq, m, gm. cbv zeta. fold best.
  by repeat split.
Qed.

Lemma example_draws_valid : valid example_draws.
Proof.
  intros n. unfold example_draws, of_list.
  do 9 (destruct n as [|n]; [split; [by unfold Qle | by unfold Qlt]|]).
  destruct n; (split; [by unfold Qle | by unfold Qlt]).
Qed.

Lemma example_locals_windows : windows dna 4 example_locals.(motifs).
Proof.
  unfold windows, dna. cbn [motifs example_locals].
  repeat (constructor; [exists 0%nat; split; [simpl; lia | reflexivity]|]).
  constructor.
Qed.

Lemma dna_long_enough : long_enough 4 dna.
Proof. unfold long_enough, dna. repeat constructor; simpl; lia. Qed.

(** X10: on a corpus of two or more sequences with room for [k], an
    iteration that completes has replaced exactly one motif of the working
    set, at a position [i] below [t], by a window of the [i]th sequence; the
    other motifs stay, the set stays aligned with the corpus, and the best
    set either becomes the new working set or stays what it was. *)
Theorem completed_iteration_replaces_one_motif (dna : list str) (k : nat)
    (st st' : locals) :
  long_enough k dna -> (2 <= length dna)%nat ->
  windows dna k st.(motifs) -> windows dna k st.(best_motifs) ->
  valid st.(gen) ->
  gibbs_step dna (Z.of_nat k) (len dna) st = Ok st' ->
  exists (i : nat) (seq m : str),
    dna !! i = Some seq /\ window k seq m /\
    st'.(motifs) = <[i := m]> st.(motifs) /\
    (forall j, j <> i -> st'.(motifs) !! j = st.(motifs) !! j) /\
    windows dna k st'.(motifs) /\
    (st'.(best_motifs) = st'.(motifs) \/ st'.(best_motifs) = st.(best_motifs)).
Proof.
  intros Hdna Htwo Hw Hbw Hg Hrun.
  destruct (gibbs_step_spec dna k st Hdna Htwo Hw Hbw Hg)
    as (i & seq & m & gm & Hseq & Hm & Hnw & _ & _ & Hstep).
  rewrite Hstep in Hrun. injection Hrun as <-.
  exists i, seq, m. cbn [motifs best_motifs].
  split; [done|]. split; [done|]. split; [done|].
  split; [intros j Hj; by apply list_lookup_insert_ne|]. split; [done|].
  destruct (_ <? _); [by left | by right].
Qed.

Lemma completed_iteration_replaces_one_motif_witness :
  exists st' : locals,
    gibbs_step dna (Z.of_nat 4) (len dna) example_locals = Ok st' /\
    exists (i : nat) (seq m : str),
      dna !! i = Some seq /\ window 4 seq m /\
      st'.(motifs) = <[i := m]> example_locals.(motifs) /\
      (forall j, j <> i -> st'.(motifs) !! j = example_locals.(motifs) !! j) /\
      windows dna 4 st'.(motifs) /\
      (st'.(best_motifs) = st'.(motifs) \/
       st'.(best_motifs) = example_locals.(best_motifs)).
Proof.
  eexists. split; [vm_compute; reflexivity|].
  apply (completed_iteration_replaces_one_motif dna 4 example_locals).
  - apply dna_long_enough.
  - simpl. lia.
  - apply example_locals_windows.
  - apply example_locals_windows.
  - apply example_draws_valid.
  - vm_compute. reflexivity.
Defined.

(** ** The rendering *)

Lemma highlight_from (d1 d2 b1 b2 acc : list str) :
  length d1 = length b1 -> (length b2 <= length d2)%nat ->
  for_each (seq (length b1) (length b2))
    (fun i gibbs_motifs =>
       let* seq := index (d1 ++ d2) i in
       let* b := index (b1 ++ b2) i in
       Ok (gibbs_motifs ++ [replace seq b (red ++ b ++ reset)]))
    acc
  = Ok (acc ++ zip_with render d2 b2).
Proof.
  revert d1 d2 b1 acc. induction b2 as [|b b2 IH]; intros d1 d2 b1 acc Hlen Hle.
  - cbn. destruct d2; by rewrite app_nil_r.
  - destruct d2 as [|d d2]; [simpl in Hle; lia|].
    cbn [length seq for_each]. unfold index at 1.
    rewrite <- Hlen, list_lookup_middle by done. cbn [Py.bind].
    unfold index at 1. rewrite list_lookup_middle by done. cbn [Py.bind].
    specialize (IH (d1 ++ [d]) d2 (b1 ++ [b])
                  (acc ++ [replace d b (red ++ b ++ reset)])).
    rewrite !length_app, <- !app_assoc in IH. cbn [length app] in IH.
    rewrite !Nat.add_1_r in IH. rewrite Hlen, IH by (simpl in Hle; lia).
    done.
Qed.

Lemma highlight_spec (dna best : list str) :
  (length best <= length dna)%nat ->
  highlight dna best = Ok (zip_with render dna best).
Proof.
  intros Hle. unfold highlight. rewrite range_len.
  apply (highlight_from [] dna [] best []); done.
Qed.

Lemma startswith_app (old rest : str) : startswith (old ++ rest) old = true.
Proof.
  induction old as [|c old IH]; [by destruct rest|].
  cbn [app startswith]. by rewrite Ascii.eqb_refl, IH.
Qed.

Lemma replace_from_contains (old new before after : str) :
  old <> [] ->
  exists u v,
    replace_from old new 0 (before ++ old ++ after) = u ++ new ++ v.
Proof.
  intros Hold. induction before as [|c before IH].
  - destruct old as [|c old]; [done|]. cbn [app replace_from].
    change (c :: old ++ after) with ((c :: old) ++ after).
    rewrite startswith_app. exists [], (replace_from (c :: old) new
                                          (length (c :: old) - 1) (old ++ after)).
    done.
  - cbn [app replace_from].
    destruct (startswith (c :: before ++ old ++ after) old).
    + eexists [], _. done.
    + destruct IH as (u & v & ->). by exists (c :: u), v.
Qed.

Lemma render_contains (k : nat) (seq b : str) :
  window k seq b ->
  exists u v, render seq b = u ++ red ++ b ++ reset ++ v.
Proof.
  intros (i & Hi & ->). unfold render, replace.
  destruct (take k (drop i seq)) as [|c old] eqn:Hb.
  - eexists [], _. cbn [app]. by rewrite <- !app_assoc.
  - rewrite <- Hb.
    destruct (replace_from_contains (take k (drop i seq))
                (red ++ take k (drop i seq) ++ reset)
                (take i seq) (drop k (drop i seq)))
      as (u & v & Hrep); [by rewrite Hb|].
    rewrite !take_drop in Hrep. rewrite Hrep. exists u, v.
    by rewrite <- !app_assoc.
Qed.

(** X11: for a motif set made of one window per sequence, [highlight] returns
    one line per sequence, the sequence with [replace] applied, and every
    line holds its motif between the red and the reset escape. *)
Theorem highlight_marks_every_motif (dna best : list str) (k : nat) :
  windows dna k best ->
  exists gm,
    highlight dna best = Ok gm /\
    gm = zip_with render dna best /\
    length gm = length dna /\
    Forall2 (fun b line => exists u v, line = u ++ red ++ b ++ reset ++ v)
      best gm.
Proof.
  intros Hw. exists (zip_with render dna best).
  pose proof (Forall2_length _ _ _ Hw) as Hlen.
  split; [apply highlight_spec; lia|]. split; [done|].
  split; [rewrite length_zip_with; lia|].
  induction Hw as [|seq b dna best Hb _ IH]; [constructor|].
  cbn [zip_with]. constructor; [by apply (render_contains k) | apply IH].
  simpl in Hlen. lia.
Qed.

Lemma highlight_marks_every_motif_witness :
  exists gm,
    highlight dna example_locals.(best_motifs) = Ok gm /\
    gm = zip_with render dna example_locals.(best_motifs) /\
    length gm = length dna /\
    Forall2 (fun b line => exists u v, line = u ++ red ++ b ++ reset ++ v)
      example_locals.(best_motifs) gm.
Proof.
  apply (highlight_marks_every_motif dna example_locals.(best_motifs) 4).
  apply example_locals_windows.
Defined.

(** ** What a run returns *)

Lemma gibbs_loop_spec (dna : list str) (k : nat) (n : nat) (st : locals) :
  long_enough k dna -> (2 <= length dna)%nat ->
  windows dna k st.(motifs) -> windows dna k st.(best_motifs) ->
  valid st.(gen) ->
  exists st',
    gibbs_loop dna (Z.of_nat k) (len dna) (Z.of_nat (S n)) st = Ok st' /\
    windows dna k st'.(motifs) /\ windows dna k st'.(best_motifs) /\
    valid st'.(gen) /\
    st'.(gibbs_motifs) = Some (zip_with render dna st'.(best_motifs)) /\
    st'.(consensus_motif) = Some (consensus_of k st'.(best_motifs)).
Proof.
  intros Hdna Htwo Hw Hbw Hg.
  assert (forall s : locals,
            windows dna k s.(motifs) -> windows dna k s.(best_motifs) ->
            valid s.(gen) ->
            exists s',
              gibbs_step dna (Z.of_nat k) (len dna) s = Ok s' /\
              windows dna k s'.(motifs) /\ windows dna k s'.(best_motifs) /\
              valid s'.(gen) /\
              s'.(gibbs_motifs) = Some (zip_with render dna s'.(best_motifs)) /\
              s'.(consensus_motif) = Some (consensus_of k s'.(best_motifs)))
    as Hstep.
  { intros s Hsw Hsbw Hsg.
    destruct (gibbs_step_spec dna k s Hdna Htwo Hsw Hsbw Hsg)
      as (i & seq & m & gm & _ & _ & Hnw & Hbest & Hgm & ->).
    eexists. split; [done|]. cbn [motifs best_motifs gibbs_motifs
                                   consensus_motif gen].
    split; [done|]. split; [done|]. split; [by do 2 apply valid_tail|].
    split; [|done]. rewrite highlight_spec in Hgm; [congruence|].
    rewrite (Forall2_length _ _ _ Hbest). lia. }
  induction n as [|n IH].
  - rewrite gibbs_loop_succ.
    change (gibbs_loop dna (Z.of_nat k) (len dna) (Z.of_nat 0) st) with (Ok st).
    cbn [Py.bind]. by apply Hstep.
  - destruct IH as (mid & Hmid & Hmw & Hmbw & Hmg & _).
    rewrite gibbs_loop_succ, Hmid. cbn [Py.bind]. by apply Hstep.
Qed.

(** In exact arithmetic a run of at least one iteration, on a corpus of two
    or more sequences with room for [k] and with [t] the size of the corpus,
    returns, and what it returns hangs together. *)
Lemma gibbs_run_spec (dna : list str) (k n : nat) (g : rng) :
  long_enough k dna -> (2 <= length dna)%nat -> valid g ->
  exists best score gm cm g',
    gibbs_sampler dna (Z.of_nat k) (len dna) (Z.of_nat (S n)) g
    = Ok (best, score, gm, cm, g') /\
    windows dna k best /\
    score_motif best = Ok score /\
    gm = zip_with render dna best /\
    consensus best = Ok cm /\
    length cm = k.
Proof.
  intros Hdna Htwo Hg. unfold gibbs_sampler, gibbs_init, init_motifs.
  destruct (init_motifs_windows_loop dna k [] g Hdna Hg)
    as (ms & g0 & -> & Hw & Hg0).
  cbn [Py.bind app].
  destruct (gibbs_loop_spec dna k n
              {| motifs := ms; best_motifs := ms; gibbs_motifs := None;
                 consensus_motif := None; gen := g0 |})
    as (st & -> & _ & Hbw & _ & Hgm & Hcm); [done..|].
  destruct (windows_aligned dna k _ Hbw) as [Hblen Hbk].
  assert (st.(best_motifs) <> []) as Hne
    by (intros Hnil; rewrite Hnil in Hblen; simpl in Hblen; lia).
  cbn [Py.bind]. unfold gibbs_return.
  rewrite (score_motif_spec k st.(best_motifs)) by done.
  rewrite Hgm, Hcm. cbn [Py.bind read].
  eexists _, _, _, _, _. split; [done|]. split; [done|].
  split; [by apply score_motif_spec|]. split; [done|].
  split; [by apply consensus_spec|].
  unfold consensus_of. by rewrite length_map, length_seq.
Qed.

(** X12: a run of at least one iteration, on a corpus of two or more
    sequences with room for [k] and with [t] the size of the corpus, that
    returns, returns a consistent tuple: the best set holds one window of
    each sequence, and the three other components are computed from that
    same set: its score, its rendering line by line, and its consensus. *)
Theorem returned_run_is_consistent (dna : list str) (k n : nat) (g : rng)
    (best : list str) (score : Z) (gm : list str) (cm : str) (g' : rng) :
  long_enough k dna -> (2 <= length dna)%nat -> valid g ->
  gibbs_sampler dna (Z.of_nat k) (len dna) (Z.of_nat (S n)) g
  = Ok (best, score, gm, cm, g') ->
  windows dna k best /\
  score_motif best = Ok score /\
  gm = zip_with render dna best /\
  consensus best = Ok cm /\
  length cm = k.
Proof.
  intros Hdna Htwo Hg Hrun.
  destruct (gibbs_run_spec dna k n g Hdna Htwo Hg)
    as (best0 & score0 & gm0 & cm0 & g0 & Hrun0 & Hspec).
  rewrite Hrun0 in Hrun. by injection Hrun as <- <- <- <- <-.
Qed.

Lemma returned_run_is_consistent_witness :
  exists best score gm cm g',
    gibbs_sampler dna (Z.of_nat 4) (len dna) (Z.of_nat (S 1)) example_draws
    = Ok (best, score, gm, cm, g') /\
    windows dna 4 best /\
    score_motif best = Ok score /\
    gm = zip_with render dna best /\
    consensus best = Ok cm /\
    length cm = 4%nat.
Proof.
  do 5 eexists. split; [vm_compute; reflexivity|].
  eapply (returned_run_is_consistent dna 4 1 example_draws).
  - apply dna_long_enough.
  - simpl. lia.
  - apply example_draws_valid.
  - vm_compute. reflexivity.
Defined.

(** ** The report and the score list of [RepeatGibbsMotSearch] *)

(** X13: whenever an outer iteration completes, the block it writes shows
    the consensus and the rendered motifs of the first run of its batch,
    and as score the first entry of the module-level score list: the first
    run's score on a fresh list, an older score otherwise. *)
Theorem block_shows_first_run (k t N n_times : Z) (N_iter : nat)
    (d d' : driver) (motif : list str) (score : Z) (gibbs_motifs : list str)
    (cons : str) (g' : rng) :
  gibbs_sampler dna k t N d.(dgen) = Ok (motif, score, gibbs_motifs, cons, g') ->
  outer_iteration k t N n_times N_iter d = Ok d' ->
  d'.(report)
  = d.(report)
    ++ [WriteHeader (Z.of_nat N_iter + 1) N; WriteConsensus cons;
        WriteScore (hd score d.(scores)); WriteMotifsTitle]
    ++ map WriteMotif gibbs_motifs ++ [WriteSeparator].
Proof. apply outer_iteration_reports_first_run. Qed.

Lemma block_shows_first_run_witness :
  exists d' motif score gibbs_motifs cons g',
    gibbs_sampler dna 4 5 1 batch_draws
    = Ok (motif, score, gibbs_motifs, cons, g') /\
    outer_iteration 4 5 1 2 0
      {| scores := [3]; report := []; data := []; dgen := batch_draws |}
    = Ok d' /\
    d'.(report)
    = [] ++ [WriteHeader (Z.of_nat 0 + 1) 1; WriteConsensus cons;
             WriteScore (hd score [3]); WriteMotifsTitle]
         ++ map WriteMotif gibbs_motifs ++ [WriteSeparator].
Proof.
  do 6 eexists. split; [vm_compute; reflexivity|].
  split; [vm_compute; reflexivity|].
  eapply (block_shows_first_run 4 5 1 2 0
            {| scores := [3]; report := []; data := []; dgen := batch_draws |});
    vm_compute; reflexivity.
Defined.

Lemma batch_loop_grows (k t N : Z) (xs : list nat) (b b' : batch) :
  for_each xs
    (fun _ b =>
       let* (motif, score, gibbs_motifs, consensus, g') :=
         gibbs_sampler dna k t N b.(bgen) in
       Ok {| motif_lst := b.(motif_lst) ++ [motif];
             score_lst := b.(score_lst) ++ [score];
             all_gibs_motifs_lst := b.(all_gibs_motifs_lst) ++ [gibbs_motifs];
             consensus_lst := b.(consensus_lst) ++ [consensus];
             bgen := g' |})
    b = Ok b' ->
  exists ss, b'.(score_lst) = b.(score_lst) ++ ss /\ length ss = length xs.
Proof.
  revert b. induction xs as [|x xs IH]; intros b Hloop.
  - injection Hloop as <-. exists []. by rewrite app_nil_r.
  - cbn [for_each] in Hloop. apply bind_ok in Hloop as (b1 & Hb1 & Hrest).
    apply bind_ok in Hb1 as ([[[[motif score] gm] cons] g'] & _ & Hb1).
    injection Hb1 as <-.
    destruct (IH _ Hrest) as (ss & Hss & Hlen). cbn [score_lst] in Hss.
    exists (score :: ss). rewrite Hss, <- app_assoc. split; [done|].
    simpl. by rewrite Hlen.
Qed.

Lemma outer_iteration_grows (k t N n_times : Z) (N_iter : nat) (d d' : driver) :
  outer_iteration k t N n_times N_iter d = Ok d' ->
  (exists ss, d'.(scores) = d.(scores) ++ ss /\
              length ss = Z.to_nat n_times) /\
  headers d'.(report)
  = headers d.(report) ++ [WriteHeader (Z.of_nat N_iter + 1) N].
Proof.
  unfold outer_iteration, run_batch.
  intros (b & Hb & H)%bind_ok.
  apply bind_ok in H as (c0 & _ & H).
  apply bind_ok in H as (s0 & _ & H).
  apply bind_ok in H as (g0 & _ & H).
  injection H as <-. cbn [scores report]. split.
  - apply batch_loop_grows in Hb as (ss & Hss & Hlen).
    cbn [score_lst] in Hss. exists ss. split; [done|].
    rewrite Hlen. unfold range. by rewrite length_seq.
  - assert (headers (map WriteMotif g0) = []) as Hmotifs
      by (induction g0 as [|m g0 IHg]; [done | exact IHg]).
    unfold headers in *. rewrite List.filter_app. cbn [List.filter].
    by rewrite List.filter_app, Hmotifs.
Qed.

Lemma outer_loop_grows (k t N n_times : Z) (a j : nat) (d d' : driver) :
  for_each (seq a j) (outer_iteration k t N n_times) d = Ok d' ->
  (exists ss, d'.(scores) = d.(scores) ++ ss /\
              length ss = (j * Z.to_nat n_times)%nat) /\
  headers d'.(report)
  = headers d.(report)
    ++ map (fun i => WriteHeader (Z.of_nat i + 1) N) (seq a j).
Proof.
  revert a d. induction j as [|j IH]; intros a d Hloop.
  - injection Hloop as <-. split; [exists []|]; by rewrite app_nil_r.
  - cbn [seq for_each] in Hloop. apply bind_ok in Hloop as (d1 & Hd1 & Hrest).
    apply outer_iteration_grows in Hd1 as [(s1 & Hs1 & Hl1) Hh1].
    apply IH in Hrest as [(s2 & Hs2 & Hl2) Hh2]. split.
    + exists (s1 ++ s2). rewrite Hs2, Hs1, <- app_assoc. split; [done|].
      rewrite length_app. lia.
    + rewrite Hh2, Hh1, <- app_assoc. done.
Qed.

(** X14: a call that returns has appended exactly one score per run to the
    module-level list, [N * n_times] scores after the ones it found there,
    and has written exactly [N] report blocks, headed 1 of N to N of N. *)
Theorem driver_appends_scores_and_blocks (k t N n_times : Z) (scores0 : list Z)
    (g : rng) (d : driver) :
  RepeatGibbsMotSearch k t N n_times scores0 g = Ok d ->
  (exists new,
     d.(scores) = scores0 ++ new /\
     length new = (Z.to_nat N * Z.to_nat n_times)%nat) /\
  headers d.(report)
  = map (fun i => WriteHeader (Z.of_nat i + 1) N) (seq 0 (Z.to_nat N)).
Proof.
  unfold RepeatGibbsMotSearch, range. intros Hrun.
  by apply outer_loop_grows in Hrun.
Qed.

Lemma driver_appends_scores_and_blocks_witness :
  exists d,
    RepeatGibbsMotSearch 4 5 1 2 [3] batch_draws = Ok d /\
    (exists new,
       d.(scores) = [3] ++ new /\
       length new = (Z.to_nat 1 * Z.to_nat 2)%nat) /\
    headers d.(report)
    = map (fun i => WriteHeader (Z.of_nat i + 1) 1) (seq 0 (Z.to_nat 1)).
Proof.
  eexists. split; [vm_compute; reflexivity|].
  apply (driver_appends_scores_and_blocks 4 5 1 2 [3] batch_draws).
  vm_compute. reflexivity.
Defined.

(** X15: with at least one outer iteration and no run per iteration
    ([n_times <= 0]) the first report block cannot be written: the call
    raises [IndexError] at [consensus_lst[0]], for every [k], [t] and
    generator state. *)
Theorem driver_rejects_zero_runs (k t N n_times : Z) (scores0 : list Z)
    (g : rng) :
  1 <= N -> n_times <= 0 ->
  RepeatGibbsMotSearch k t N n_times scores0 g = Err IndexError.
Proof.
  intros HN Hn. unfold RepeatGibbsMotSearch, range.
  destruct (Z.to_nat N) as [|n] eqn:HNn; [lia|].
  cbn [seq for_each]. unfold outer_iteration at 1, run_batch, range.
  by replace (Z.to_nat n_times) with 0%nat by lia.
Qed.

Lemma driver_rejects_zero_runs_witness :
  RepeatGibbsMotSearch 4 5 3 0 [] example_draws = Err IndexError.
Proof. apply (driver_rejects_zero_runs 4 5 3 0 [] example_draws); lia. Defined.

(** ** [visualize_until_convergence] *)

Lemma int_of_fifth (n : nat) :
  int_of_float ((2 # 10) * inject_Z (Z.of_nat n)) = Z.of_nat (n / 5).
Proof.
  unfold int_of_float, Qmult, inject_Z. cbn [Qnum Qden].
  change (Z.pos (10 * 1)) with (2 * 5). rewrite Z.quot_div_nonneg by lia.
  rewrite Z.div_mul_cancel_l by lia. by rewrite Nat2Z.inj_div.
Qed.

Lemma int_of_tenth (n : nat) :
  int_of_float ((1 # 10) * inject_Z (Z.of_nat n)) = Z.of_nat (n / 10).
Proof.
  unfold int_of_float, Qmult, inject_Z. cbn [Qnum Qden].
  change (Z.pos (10 * 1)) with 10. rewrite Z.quot_div_nonneg by lia.
  rewrite Z.mul_1_l. by rewrite Nat2Z.inj_div.
Qed.

Lemma slice_from {A} (l : list A) (lo : nat) :
  (lo <= length l)%nat ->
  slice l (Z.of_nat lo) (Z.of_nat (length l)) = drop lo l.
Proof.
  intros Hlo. unfold slice, clamp, len.
  destruct (Z.ltb_spec (Z.of_nat lo) 0) as [?|_]; [lia|].
  destruct (Z.ltb_spec (Z.of_nat (length l)) 0) as [?|_]; [lia|].
  rewrite !Z.min_l, Nat2Z.id by lia.
  apply take_ge. rewrite length_drop. lia.
Qed.

Lemma slice_upto {A} (l : list A) (hi : nat) :
  (hi <= length l)%nat -> slice l 0 (Z.of_nat hi) = take hi l.
Proof.
  intros Hhi. unfold slice, clamp, len.
  destruct (Z.ltb_spec (Z.of_nat hi) 0) as [?|_]; [lia|].
  change (0 <? 0) with false. cbv iota.
  rewrite (Z.min_l 0), Z.min_l, Z.sub_0_r, Nat2Z.id by lia.
  by rewrite drop_0.
Qed.

Lemma fold_min_spec (l : list Z) (x : Z) :
  fold_left Z.min l x ∈ x :: l /\
  forall y, y ∈ x :: l -> fold_left Z.min l x <= y.
Proof.
  revert x. induction l as [|z l IH]; intros x.
  - cbn. split; [by left|]. intros y [->|Hy%elem_of_nil]%elem_of_cons; [lia|done].
  - cbn [fold_left]. destruct (IH (Z.min x z)) as [Hin Hle]. split.
    + apply elem_of_cons in Hin as [Heq|Hin]; [|by do 2 right].
      rewrite Heq. destruct (Z.min_spec x z) as [[_ ->]|[_ ->]];
        [by left | right; by left].
    + intros y Hy. assert (Z.min x z <= y \/ y ∈ l) as [Hmin|Hyl].
      { apply elem_of_cons in Hy as [->|Hy]; [left; lia|].
        apply elem_of_cons in Hy as [->|Hy]; [left; lia | by right]. }
      * etransitivity; [apply Hle; by left | done].
      * apply Hle. by right.
Qed.

Lemma list_min_spec (l : list Z) :
  l <> [] ->
  exists m, list_min l = Ok m /\ m ∈ l /\ forall y, y ∈ l -> m <= y.
Proof.
  destruct l as [|x l]; [done|]. intros _. eexists. split; [done|].
  apply fold_min_spec.
Qed.

Lemma list_index_spec (l : list Z) (x : Z) :
  x ∈ l ->
  exists i : nat,
    list_index l x = Ok (Z.of_nat i) /\ l !! i = Some x /\
    forall j, (j < i)%nat -> l !! j <> Some x.
Proof.
  induction l as [|y l IH]; [by intros ?%elem_of_nil|].
  intros Hin. cbn [list_index]. destruct (Z.eqb_spec y x) as [->|Hne].
  - exists 0%nat. split; [done|]. split; [done|]. intros j Hj. lia.
  - apply elem_of_cons in Hin as [->|Hin]; [done|].
    destruct (IH Hin) as (i & -> & Hi & Hfirst). cbn [Py.bind].
    exists (S i). split; [f_equal; lia|]. split; [done|].
    intros [|j] Hj; cbn; [congruence | apply Hfirst; lia].
Qed.

(** What the function computes on a non-empty score list. *)
Lemma visualize_spec (score_lst : list Z) :
  score_lst <> [] ->
  exists (min_score : Z) (iter : nat),
    visualize_until_convergence score_lst
    = Ok [ SetStyle; Figure; Plot score_lst; Xlabel; Ylabel; Title;
           FillBetween (seq 0 (length score_lst / 10))
             (take (length score_lst / 10) score_lst);
           Scatter (Z.of_nat iter) min_score; Ylim 4 12;
           Legend min_score (Z.of_nat iter); Savefig; Show ] /\
    min_score ∈ drop (length score_lst / 5) score_lst /\
    (forall y, y ∈ drop (length score_lst / 5) score_lst -> min_score <= y) /\
    score_lst !! iter = Some min_score /\
    (forall j, (j < iter)%nat -> score_lst !! j <> Some min_score).
Proof.
  intros Hne.
  assert (0 < length score_lst)%nat as Hpos
    by (destruct score_lst; [done | simpl; lia]).
  assert (length score_lst / 5 < length score_lst)%nat as Hfifth
    by (apply Nat.div_lt; lia).
  assert (length score_lst / 10 <= length score_lst)%nat as Htenth
    by (apply Nat.Div0.div_le_upper_bound; lia).
  unfold visualize_until_convergence. cbv zeta.
  change (len score_lst) with (Z.of_nat (length score_lst)).
  rewrite int_of_fifth, int_of_tenth.
  rewrite slice_from by lia.
  destruct (list_min_spec (drop (length score_lst / 5) score_lst))
    as (m & -> & Hin & Hmin).
  { intros Hnil. apply (f_equal length) in Hnil.
    rewrite length_drop in Hnil. cbn [length] in Hnil. lia. }
  cbn [Py.bind].
  destruct (list_index_spec score_lst m) as (i & -> & Hi & Hfirst).
  { apply list_elem_of_lookup in Hin as [j Hj]. rewrite lookup_drop in Hj.
    by eapply list_elem_of_lookup_2. }
  cbn [Py.bind]. rewrite slice_upto, range_of_nat by done.
  by exists m, i.
Qed.

(** X16: on an empty score list line 171 raises [ValueError] (the minimum of
    an empty slice) and the call ends with it.  On a non-empty list neither
    line 171 nor line 172 raises: the slice [score_lst[int(0.2 * n):]] is not
    empty, and its minimum is found in the list by [index]. *)
Theorem minimum_needs_scores (score_lst : list Z) :
  let n := len score_lst in
  let tail := slice score_lst (int_of_float ((2 # 10) * inject_Z n)) n in
  match score_lst with
  | [] =>
      list_min tail = Err ValueError /\
      visualize_until_convergence score_lst = Err ValueError
  | _ :: _ =>
      exists (min_score : Z) (iter : nat),
        list_min tail = Ok min_score /\
        list_index score_lst min_score = Ok (Z.of_nat iter) /\
        (iter < length score_lst)%nat
  end.
Proof.
  destruct score_lst as [|x l]; [done|]. cbv zeta.
  set (score_lst := x :: l).
  assert (0 < length score_lst)%nat as Hpos by (simpl; lia).
  assert (length score_lst / 5 < length score_lst)%nat as Hfifth
    by (apply Nat.div_lt; lia).
  change (len score_lst) with (Z.of_nat (length score_lst)).
  rewrite int_of_fifth, slice_from by lia.
  destruct (list_min_spec (drop (length score_lst / 5) score_lst))
    as (m & Hm & Hin & _).
  { intros Hnil. apply (f_equal length) in Hnil.
    rewrite length_drop in Hnil. cbn [length] in Hnil. lia. }
  destruct (list_index_spec score_lst m) as (i & Hindex & Hi & _).
  { apply list_elem_of_lookup in Hin as [j Hj]. rewrite lookup_drop in Hj.
    by eapply list_elem_of_lookup_2. }
  exists m, i. split; [done|]. split; [done|]. by eapply lookup_lt_Some.
Qed.

(** X17: on a non-empty list of [n] scores the shaded prefix is the first
    [n // 10] scores, the marked score is the least of the scores from
    position [n // 5] on, and the marked position is where that value first
    occurs in the whole list, which may lie before position [n // 5]. *)
Theorem visualize_marks_first_occurrence (score_lst : list Z) :
  score_lst <> [] ->
  exists (calls : list plot_call) (min_score : Z) (iter : nat),
    visualize_until_convergence score_lst = Ok calls /\
    Scatter (Z.of_nat iter) min_score ∈ calls /\
    FillBetween (seq 0 (length score_lst / 10))
      (take (length score_lst / 10) score_lst) ∈ calls /\
    min_score ∈ drop (length score_lst / 5) score_lst /\
    (forall y, y ∈ drop (length score_lst / 5) score_lst -> min_score <= y) /\
    score_lst !! iter = Some min_score /\
    (forall j, (j < iter)%nat -> score_lst !! j <> Some min_score).
Proof.
  intros Hne.
  destruct (visualize_spec score_lst Hne)
    as (m & i & Hrun & Hin & Hmin & Hi & Hfirst).
  eexists _, m, i. split; [exact Hrun|].
  split; [do 7 right; by left|]. split; [do 6 right; by left|]. done.
Qed.

Lemma visualize_marks_first_occurrence_witness :
  exists (calls : list plot_call) (min_score : Z) (iter : nat),
    visualize_until_convergence [5; 9; 9; 9; 9; 5; 7; 8; 9; 9] = Ok calls /\
    Scatter (Z.of_nat iter) min_score ∈ calls /\
    FillBetween (seq 0 (length [5; 9; 9; 9; 9; 5; 7; 8; 9; 9] / 10))
      (take (length [5; 9; 9; 9; 9; 5; 7; 8; 9; 9] / 10)
         [5; 9; 9; 9; 9; 5; 7; 8; 9; 9]) ∈ calls /\
    min_score ∈ drop (length [5; 9; 9; 9; 9; 5; 7; 8; 9; 9] / 5)
                  [5; 9; 9; 9; 9; 5; 7; 8; 9; 9] /\
    (forall y, y ∈ drop (length [5; 9; 9; 9; 9; 5; 7; 8; 9; 9] / 5)
                     [5; 9; 9; 9; 9; 5; 7; 8; 9; 9] -> min_score <= y) /\
    [5; 9; 9; 9; 9; 5; 7; 8; 9; 9] !! iter = Some min_score /\
    (forall j, (j < iter)%nat ->
               [5; 9; 9; 9; 9; 5; 7; 8; 9; 9] !! j <> Some min_score).
Proof.
  apply (visualize_marks_first_occurrence [5; 9; 9; 9; 9; 5; 7; 8; 9; 9]).
  discriminate.
Defined.

(** ** [main] *)

Lemma gibbs_sampler_keeps_valid (dna : list str) (k n : nat) (g : rng) :
  long_enough k dna -> (2 <= length dna)%nat -> valid g ->
  exists r g',
    gibbs_sampler dna (Z.of_nat k) (len dna) (Z.of_nat (S n)) g = Ok (r, g') /\
    valid g'.
Proof.
  intros Hdna Htwo Hg. unfold gibbs_sampler, gibbs_init, init_motifs.
  destruct (init_motifs_windows_loop dna k [] g Hdna Hg)
    as (ms & g0 & -> & Hw & Hg0).
  cbn [Py.bind app].
  destruct (gibbs_loop_spec dna k n
              {| motifs := ms; best_motifs := ms; gibbs_motifs := None;
                 consensus_motif := None; gen := g0 |})
    as (st & -> & _ & Hbw & Hvalid & Hgm & Hcm); [done..|].
  destruct (windows_aligned dna k _ Hbw) as [Hblen Hbk].
  cbn [Py.bind]. unfold gibbs_return.
  rewrite (score_motif_spec k st.(best_motifs))
    by (done || (intros Hnil; rewrite Hnil in Hblen; simpl in Hblen; lia)).
  rewrite Hgm, Hcm. cbn [Py.bind read]. by eexists _, _.
Qed.

Lemma module_run_ok (N : Z) (g : rng) :
  1 <= N -> valid g ->
  exists r g', gibbs_sampler dna 4 5 N g = Ok (r, g') /\ valid g'.
Proof.
  intros HN Hg. replace N with (Z.of_nat (S (Z.to_nat N - 1))) by lia.
  apply (gibbs_sampler_keeps_valid dna 4);
    [apply dna_long_enough | simpl; lia | done].
Qed.

Lemma batch_loop_ok (N : Z) (xs : list nat) (b : batch) :
  1 <= N -> valid b.(bgen) ->
  exists b',
    for_each xs
      (fun _ b =>
         let* (motif, score, gibbs_motifs, consensus, g') :=
           gibbs_sampler dna 4 5 N b.(bgen) in
         Ok {| motif_lst := b.(motif_lst) ++ [motif];
               score_lst := b.(score_lst) ++ [score];
               all_gibs_motifs_lst := b.(all_gibs_motifs_lst) ++ [gibbs_motifs];
               consensus_lst := b.(consensus_lst) ++ [consensus];
               bgen := g' |})
      b = Ok b' /\
    valid b'.(bgen) /\
    length b'.(score_lst) = (length b.(score_lst) + length xs)%nat /\
    length b'.(all_gibs_motifs_lst)
    = (length b.(all_gibs_motifs_lst) + length xs)%nat /\
    length b'.(consensus_lst) = (length b.(consensus_lst) + length xs)%nat.
Proof.
  intros HN. revert b. induction xs as [|x xs IH]; intros b Hg.
  - exists b. cbn. by rewrite !Nat.add_0_r.
  - cbn [for_each].
    destruct (module_run_ok N b.(bgen) HN Hg)
      as ([[[motif score] gm] cons] & g' & -> & Hg').
    cbn [Py.bind].
    destruct (IH {| motif_lst := b.(motif_lst) ++ [motif];
                    score_lst := b.(score_lst) ++ [score];
                    all_gibs_motifs_lst := b.(all_gibs_motifs_lst) ++ [gm];
                    consensus_lst := b.(consensus_lst) ++ [cons];
                    bgen := g' |} Hg')
      as (b' & -> & Hvalid & Hs & Ha & Hc).
    cbn [score_lst all_gibs_motifs_lst consensus_lst] in Hs, Ha, Hc.
    rewrite length_app in Hs, Ha, Hc. cbn [length] in *.
    exists b'. split; [done|]. split; [done|]. lia.
Qed.

Lemma outer_iteration_ok (N n_times : Z) (N_iter : nat) (d : driver) :
  1 <= N -> 1 <= n_times -> valid d.(dgen) ->
  exists d', outer_iteration 4 5 N n_times N_iter d = Ok d' /\ valid d'.(dgen).
Proof.
  intros HN Hn Hg. unfold outer_iteration, run_batch.
  destruct (batch_loop_ok N (range n_times)
              {| motif_lst := []; score_lst := d.(scores);
                 all_gibs_motifs_lst := []; consensus_lst := [];
                 bgen := d.(dgen) |} HN Hg)
    as (b & -> & Hvalid & Hs & Ha & Hc).
  cbn [score_lst all_gibs_motifs_lst consensus_lst length] in Hs, Ha, Hc.
  assert (0 < length (range n_times))%nat as Hruns
    by (unfold range; rewrite length_seq; lia).
  cbn [Py.bind].
  destruct (index_lt b.(consensus_lst) 0) as (c0 & _ & ->); [lia|].
  destruct (index_lt b.(score_lst) 0) as (s0 & _ & ->); [lia|].
  destruct (index_lt b.(all_gibs_motifs_lst) 0) as (g0 & _ & ->); [lia|].
  cbn [Py.bind]. by eexists.
Qed.

Lemma outer_loop_ok (N n_times : Z) (xs : list nat) (d : driver) :
  1 <= N -> 1 <= n_times -> valid d.(dgen) ->
  exists d', for_each xs (outer_iteration 4 5 N n_times) d = Ok d'.
Proof.
  intros HN Hn. revert d. induction xs as [|x xs IH]; intros d Hg.
  - by exists d.
  - cbn [for_each].
    destruct (outer_iteration_ok N n_times x d HN Hn Hg) as (d1 & -> & Hg1).
    cbn [Py.bind]. by apply IH.
Qed.

(** X18: in exact arithmetic, with arguments that give [N >= 1] and
    [n_times >= 1] (the defaults 30 and 60 when absent), [main] runs
    through: [N] report blocks are written, [N * n_times] scores are
    collected and plotted, and the three messages are printed. *)
Theorem main_runs_through (int_of_str : str -> result Z) (argv : list str)
    (N n_times : Z) (g : rng) :
  argument int_of_str argv 1 30 = Ok N ->
  argument int_of_str argv 2 60 = Ok n_times ->
  1 <= N -> 1 <= n_times -> valid g ->
  exists d calls,
    main int_of_str argv g
    = Ok (d, calls, [PrintRunning n_times N; PrintVisualizing; PrintDone]) /\
    length d.(scores) = (Z.to_nat N * Z.to_nat n_times)%nat /\
    headers d.(report)
    = map (fun i => WriteHeader (Z.of_nat i + 1) N) (seq 0 (Z.to_nat N)) /\
    Plot d.(scores) ∈ calls.
Proof.
  intros HargN Hargn HN Hn Hg. unfold main. cbv zeta. rewrite HargN, Hargn.
  cbn [Py.bind].
  destruct (outer_loop_ok N n_times (range N)
              {| scores := []; report := []; data := []; dgen := g |} HN Hn Hg)
    as (d & Hd).
  fold (RepeatGibbsMotSearch 4 5 N n_times [] g) in Hd. rewrite Hd.
  cbn [Py.bind].
  destruct (outer_loop_grows 4 5 N n_times 0 (Z.to_nat N) _ d Hd)
    as [(new & Hnew & Hlen) Hheaders].
  cbn [scores report app] in Hnew, Hheaders. subst new.
  destruct (visualize_spec d.(scores)) as (m & i & -> & _).
  { intros Hnil. rewrite Hnil in Hlen. simpl in Hlen. lia. }
  cbn [Py.bind]. eexists _, _. split; [done|]. split; [done|].
  split; [done|]. do 2 right. by left.
Qed.

Lemma main_runs_through_witness :
  exists d calls,
    main (fun _ => Err ValueError) [lit "gibbs_sampler.py"] example_draws
    = Ok (d, calls, [PrintRunning 60 30; PrintVisualizing; PrintDone]) /\
    length d.(scores) = (Z.to_nat 30 * Z.to_nat 60)%nat /\
    headers d.(report)
    = map (fun i => WriteHeader (Z.of_nat i + 1) 30) (seq 0 (Z.to_nat 30)) /\
    Plot d.(scores) ∈ calls.
Proof.
  apply (main_runs_through (fun _ => Err ValueError) [lit "gibbs_sampler.py"]
           30 60 example_draws); [reflexivity | reflexivity | lia | lia |].
  apply example_draws_valid.
Defined.

(** X19: when the first argument gives [N <= 0], nothing is sampled, the
    report stays empty, and [main] ends with the [ValueError] that
    [visualize_until_convergence] raises on the empty score list. *)
Theorem main_without_iterations_raises (int_of_str : str -> result Z)
    (argv : list str) (N n_times : Z) (g : rng) :
  argument int_of_str argv 1 30 = Ok N ->
  argument int_of_str argv 2 60 = Ok n_times ->
  N <= 0 ->
  RepeatGibbsMotSearch 4 5 N n_times [] g
  = Ok {| scores := []; report := []; data := []; dgen := g |} /\
  main int_of_str argv g = Err ValueError.
Proof.
  intros HargN Hargn HN.
  assert (RepeatGibbsMotSearch 4 5 N n_times [] g
          = Ok {| scores := []; report := []; data := []; dgen := g |}) as Hrun.
  { unfold RepeatGibbsMotSearch, range.
    by replace (Z.to_nat N) with 0%nat by lia. }
  split; [done|]. unfold main. cbv zeta. rewrite HargN, Hargn. cbn [Py.bind].
  by rewrite Hrun.
Qed.

Lemma main_without_iterations_raises_witness :
  RepeatGibbsMotSearch 4 5 0 60 [] example_draws
  = Ok {| scores := []; report := []; data := []; dgen := example_draws |} /\
  main (fun _ => Ok 0) [lit "gibbs_sampler.py"; lit "0"] example_draws
  = Err ValueError.
Proof.
  apply (main_without_iterations_raises (fun _ => Ok 0)
           [lit "gibbs_sampler.py"; lit "0"] 0 60 example_draws);
    [reflexivity | reflexivity | lia].
Defined.

(** ** The score as a distance to the consensus *)

Lemma hamming_nil_r (a : str) : hamming a [] = 0.
Proof. by destruct a. Qed.

Lemma column_step (s : ascii) (c' : str) (n : nat) (ms : list str) :
  Forall (fun m => (n < length m)%nat) ms ->
  mismatches s (column ms n)
  + sumZ (map (fun m => hamming (drop (S n) m) c') ms)
  = sumZ (map (fun m => hamming (drop n m) (s :: c')) ms).
Proof.
  induction 1 as [|m ms Hm _ IH]; [done|].
  destruct (index_lt m n Hm) as (ch & Hch & _).
  cbn [column map]. rewrite Hch.
  change (sumZ (?x :: ?l)) with (x + sumZ l). rewrite <- IH.
  rewrite (drop_S m ch n Hch). cbn [mismatches hamming]. lia.
Qed.

Lemma columns_to_rows (c : str) (ms : list str) (n : nat) :
  Forall (fun m => (n + length c <= length m)%nat) ms ->
  sumZ (zip_with (fun s i => mismatches s (column ms i)) c (seq n (length c)))
  = sumZ (map (fun m => hamming (drop n m) c) ms).
Proof.
  revert n. induction c as [|s c IH]; intros n Hlen.
  - cbn. induction ms as [|m ms IHms]; [done|].
    cbn [map]. change (sumZ (?x :: ?l)) with (x + sumZ l).
    rewrite hamming_nil_r, <- IHms; [done|]. by apply Forall_cons in Hlen as [_ ?].
  - cbn [length seq zip_with]. change (sumZ (?x :: ?l)) with (x + sumZ l).
    rewrite IH.
    + apply column_step. eapply Forall_impl; [exact Hlen|].
      cbn. intros m Hm. lia.
    + eapply Forall_impl; [exact Hlen|]. cbn. intros m Hm. lia.
Qed.

(** X22: on a non-empty set of equal-length motifs the score is the sum,
    over the motifs, of the number of positions at which the motif differs
    from the consensus string. *)
Theorem score_is_distance_to_consensus (k : nat) (motifs : list str) :
  motifs <> [] -> equal_length k motifs ->
  exists score c,
    score_motif motifs = Ok score /\
    consensus motifs = Ok c /\
    score = sumZ (map (fun m => hamming m c) motifs).
Proof.
  intros Hne Hk. exists (score_of k motifs), (consensus_of k motifs).
  split; [by apply score_motif_spec|]. split; [by apply consensus_spec|].
  assert (length (consensus_of k motifs) = k) as Hlen
    by (unfold consensus_of; by rewrite length_map, length_seq).
  transitivity
    (sumZ (zip_with (fun s i => mismatches s (column motifs i))
             (consensus_of k motifs) (seq 0 (length (consensus_of k motifs))))).
  - rewrite Hlen. unfold score_of, consensus_of.
    rewrite <- (map_id (seq 0 k)) at 3. rewrite zip_with_maps.
    f_equal.
  - rewrite columns_to_rows; [done|]. rewrite Hlen.
    unfold equal_length in Hk. eapply Forall_impl; [exact Hk|].
    cbn. intros m ->. lia.
Qed.

Lemma score_is_distance_to_consensus_witness :
  exists score c,
    score_motif [lit "TTAC"; lit "GATG"; lit "CCGG"] = Ok score /\
    consensus [lit "TTAC"; lit "GATG"; lit "CCGG"] = Ok c /\
    score = sumZ (map (fun m => hamming m c)
                    [lit "TTAC"; lit "GATG"; lit "CCGG"]).
Proof.
  apply (score_is_distance_to_consensus 4
           [lit "TTAC"; lit "GATG"; lit "CCGG"]); motif_set.
Defined.

(** ** Runs that cannot go through *)

Lemma gibbs_init_windows (dna : list str) (k : nat) (g : rng) :
  long_enough k dna -> valid g ->
  exists ms g',
    gibbs_init dna (Z.of_nat k) g
    = Ok {| motifs := ms; best_motifs := ms; gibbs_motifs := None;
            consensus_motif := None; gen := g' |} /\
    windows dna k ms /\ valid g'.
Proof.
  intros Hdna Hg. unfold gibbs_init, init_motifs.
  destruct (init_motifs_windows_loop dna k [] g Hdna Hg)
    as (ms & g0 & -> & Hw & Hg0).
  cbn [Py.bind app]. by exists ms, g0.
Qed.

(** X20: on a non-empty corpus whose sequences have room for [k], a call
    with [N <= 0] draws the initial motifs, finds their score, and then
    raises [UnboundLocalError] at the [return], for negative [N] as for 0
    and whatever [t] is. *)
Theorem no_iteration_raises_unbound_local (dna : list str) (k : nat)
    (t N : Z) (g : rng) :
  dna <> [] -> long_enough k dna -> valid g -> N <= 0 ->
  (exists st score,
     gibbs_init dna (Z.of_nat k) g = Ok st /\
     windows dna k st.(best_motifs) /\
     score_motif st.(best_motifs) = Ok score) /\
  gibbs_sampler dna (Z.of_nat k) t N g = Err UnboundLocalError.
Proof.
  intros Hne Hdna Hg HN.
  destruct (gibbs_init_windows dna k g Hdna Hg) as (ms & g' & Hinit & Hw & _).
  destruct (windows_aligned dna k ms Hw) as [Hlen Hk].
  assert (ms <> []) as Hms
    by (intros ->; destruct dna; [done | discriminate Hlen]).
  split.
  - eexists _, _. split; [exact Hinit|]. cbn [best_motifs].
    split; [done | by apply (score_motif_spec k)].
  - unfold gibbs_sampler. rewrite Hinit. cbn [Py.bind].
    unfold gibbs_loop, range. replace (Z.to_nat N) with 0%nat by lia.
    cbn [seq for_each Py.bind]. unfold gibbs_return. cbn [best_motifs].
    by rewrite (score_motif_spec k ms).
Qed.

Lemma no_iteration_raises_unbound_local_witness :
  (exists st score,
     gibbs_init dna (Z.of_nat 4) example_draws = Ok st /\
     windows dna 4 st.(best_motifs) /\
     score_motif st.(best_motifs) = Ok score) /\
  gibbs_sampler dna (Z.of_nat 4) 5 (-3) example_draws = Err UnboundLocalError.
Proof.
  apply (no_iteration_raises_unbound_local dna 4 5 (-3) example_draws).
  - discriminate.
  - apply dna_long_enough.
  - apply example_draws_valid.
  - lia.
Defined.

(** X21: a corpus of a single sequence cannot be sampled.  With [t = 1]
    and at least one iteration, the only motif is evicted, no motif is left
    to build the profile from, and the call raises [IndexError], whatever
    the sequence, [k] and the generator state. *)
Theorem single_sequence_raises (s : str) (k : nat) (N : Z) (g : rng) :
  (k <= length s)%nat -> valid g -> 1 <= N ->
  gibbs_sampler [s] (Z.of_nat k) 1 N g = Err IndexError.
Proof.
  intros Hk Hg HN.
  destruct (gibbs_init_windows [s] k g) as (ms & g' & Hinit & Hw & Hg');
    [by apply Forall_cons | done |].
  destruct (windows_aligned [s] k ms Hw) as [Hlen Hkms].
  destruct ms as [|m [|? ?]]; try discriminate Hlen.
  unfold gibbs_sampler. rewrite Hinit. cbn [Py.bind].
  unfold gibbs_loop, range. destruct (Z.to_nat N) as [|n] eqn:HNn; [lia|].
  cbn [seq for_each]. unfold gibbs_step at 1. cbn [gen motifs].
  destruct (randint_range 0 (1 - 1) g' Hg') as (i & -> & Hi); [lia|].
  assert (i = 0) as -> by lia. by cbn.
Qed.

Lemma single_sequence_raises_witness :
  gibbs_sampler [lit "ACGTAC"] (Z.of_nat 4) 1 3 example_draws = Err IndexError.
Proof.
  apply (single_sequence_raises (lit "ACGTAC") 4 3 example_draws);
    [simpl; lia | apply example_draws_valid | lia].
Defined.
